(** * Quiz back end: attempt sessions, sharing, access checks and bulk build

    A shallow embedding of the Django application [quiz]
    ([models.py], [utils.py], [serializers.py], [views.py]) and the
    properties its specification states about it.

    Conventions of the embedding.
    - A table of the relational store is the list of its rows, in insertion
      order.  Uniqueness constraints ([unique_together]) are not built into
      the representation: they are invariants, proved to be preserved.
    - A primary key (a [uuid4]) is a natural number drawn from a counter kept
      in the store, so that every draw is fresh.
    - A [DateTimeField] is an integer number of microseconds; [timezone.now()]
      is an argument of the request that reads it.
    - The score is a Python [float], a binary64 number, held as the
      rational number it denotes; the quotient and the product of
      [calculate_quiz_score] are each rounded to the nearest binary64 number,
      ties to the even significand.
    - A view is a function from the store to a response and a store. *)

From Stdlib Require Import List ZArith NArith QArith String Ascii Bool Arith Lia.
From Stdlib Require Import Qpower Qreduction Qabs Lqa SpecFloat.
Import ListNotations.

Local Open Scope string_scope.
Local Open Scope list_scope.
Local Open Scope nat_scope.

(** ** models.py *)

Definition uuid := nat.
Definition datetime := Z.

(** [django.contrib.auth.models.User], with the columns the views read. *)
Module User.
Record t := mk { id : nat; username : string; email : string }.
End User.

(** [request.user]: [AnonymousUser] or a row of [User]. *)
Inductive RequestUser :=
| AnonymousUser
| Authenticated (u : nat).

Definition is_anonymous (user : RequestUser) : bool :=
  match user with AnonymousUser => true | Authenticated _ => false end.

(** [obj.creator == request.user]: an anonymous user equals no row. *)
Definition user_is (owner : nat) (user : RequestUser) : bool :=
  match user with AnonymousUser => false | Authenticated u => owner =? u end.

Module Quiz.
Record t := mk {
  id : uuid;
  title : string;
  creator : nat;
  duration_minutes : N;
  is_public : bool;
  (* the first eight characters of the text of a uuid4: kept as the uuid
     the text is cut from *)
  share_code : option uuid;
  allow_anonymous_attempts : bool
}.
End Quiz.

Module Question.
Record t := mk { id : uuid; quiz : uuid; text : string; order : nat }.
End Question.

Module Choice.
Record t := mk {
  id : uuid; question : uuid; text : string; is_correct : bool; order : nat
}.
End Choice.

(** The dictionaries the image extraction returns.  A key that may be absent
    is an [option]; a value that is present has the type the extraction prompt
    prescribes. *)
Module Parsed.
Record choice_data := mk_choice {
  choice_text : option string;
  is_correct : option bool
}.
Record q_data := mk_question {
  question_text : option string;
  choices : option (list choice_data)
}.
(* [process_image_with_openai] returns either the extracted questions or
   a dictionary with the one key [error] *)
Record parsed_data := mk {
  questions : option (list q_data);
  error : option string
}.
(** Truth value of the dictionary: false exactly when it has no key. *)
Definition truthy (d : parsed_data) : bool :=
  match questions d, error d with
  | None, None => false
  | _, _ => true
  end.
End Parsed.

Module ImageUpload.
Record t := mk {
  id : uuid;
  user : nat;
  processed : bool;
  parsed_data : option Parsed.parsed_data
}.
End ImageUpload.

Module QuizSession.
Record t := mk {
  id : uuid;
  quiz : uuid;
  user : nat;
  started_at : datetime;
  completed_at : option datetime;
  score : option Q
}.

(** [is_completed]: [completed_at is not None]. *)
Definition is_completed (s : t) : bool :=
  match completed_at s with Some _ => true | None => false end.
End QuizSession.

Module UserAnswer.
Record t := mk {
  id : uuid;
  session : uuid;
  question : uuid;
  selected_choice : uuid;
  answered_at : datetime
}.
End UserAnswer.

Module QuizShare.
Record t := mk {
  id : uuid;
  quiz : uuid;
  shared_by : nat;
  shared_with : nat;
  shared_at : datetime;
  permission_type : string
}.
End QuizShare.

(** ** The store *)

Record Store := mkStore {
  users : list User.t;
  quizzes : list Quiz.t;
  questions : list Question.t;
  choices : list Choice.t;
  image_uploads : list ImageUpload.t;
  sessions : list QuizSession.t;
  answers : list UserAnswer.t;
  shares : list QuizShare.t;
  next_uuid : uuid
}.

Definition empty_store : Store := mkStore [] [] [] [] [] [] [] [] 0.

Definition set_quizzes (v : list Quiz.t) (st : Store) : Store :=
  mkStore (users st) v (questions st) (choices st) (image_uploads st)
          (sessions st) (answers st) (shares st) (next_uuid st).
Definition set_questions (v : list Question.t) (st : Store) : Store :=
  mkStore (users st) (quizzes st) v (choices st) (image_uploads st)
          (sessions st) (answers st) (shares st) (next_uuid st).
Definition set_choices (v : list Choice.t) (st : Store) : Store :=
  mkStore (users st) (quizzes st) (questions st) v (image_uploads st)
          (sessions st) (answers st) (shares st) (next_uuid st).
Definition set_sessions (v : list QuizSession.t) (st : Store) : Store :=
  mkStore (users st) (quizzes st) (questions st) (choices st) (image_uploads st)
          v (answers st) (shares st) (next_uuid st).
Definition set_answers (v : list UserAnswer.t) (st : Store) : Store :=
  mkStore (users st) (quizzes st) (questions st) (choices st) (image_uploads st)
          (sessions st) v (shares st) (next_uuid st).
Definition set_shares (v : list QuizShare.t) (st : Store) : Store :=
  mkStore (users st) (quizzes st) (questions st) (choices st) (image_uploads st)
          (sessions st) (answers st) v (next_uuid st).
Definition set_next_uuid (v : uuid) (st : Store) : Store :=
  mkStore (users st) (quizzes st) (questions st) (choices st) (image_uploads st)
          (sessions st) (answers st) (shares st) v.

(** ** Queries of the object manager *)

(** Result of [objects.get(...)]. *)
Inductive Got (A : Type) :=
| One (a : A)
| DoesNotExist
| MultipleObjectsReturned.
Arguments One {A} a.
Arguments DoesNotExist {A}.
Arguments MultipleObjectsReturned {A}.

Definition objects_get {A : Type} (p : A -> bool) (rows : list A) : Got A :=
  match filter p rows with
  | [] => DoesNotExist
  | [a] => One a
  | _ :: _ :: _ => MultipleObjectsReturned
  end.

(** [queryset.count()] and [queryset.exists()] of a filtered table. *)
Definition objects_count {A : Type} (p : A -> bool) (rows : list A) : nat :=
  List.length (filter p rows).
Definition objects_exists {A : Type} (p : A -> bool) (rows : list A) : bool :=
  existsb p rows.

(** ** Statements that write, and exceptions *)

Inductive Exception :=
| KeyError (key : string)
| Http404 (what : string)
| OtherError (what : string).

Definition str (e : Exception) : string :=
  match e with
  | KeyError key => ("'" ++ key ++ "'")%string
  | Http404 what => ("No " ++ what ++ " matches the given query.")%string
  | OtherError what => what
  end.

Inductive Outcome (A : Type) :=
| Return (a : A)
| Raise (e : Exception).
Arguments Return {A} a.
Arguments Raise {A} e.

(** A statement runs on the store (in autocommit, unless an enclosing
    [atomic] block says otherwise): what it wrote before an exception stays
    written. *)
Definition Db (A : Type) := Store -> Outcome A * Store.

Definition ret {A} (a : A) : Db A := fun st => (Return a, st).
Definition raise {A} (e : Exception) : Db A := fun st => (Raise e, st).
Definition bind {A B} (c : Db A) (k : A -> Db B) : Db B :=
  fun st =>
    match c st with
    | (Return a, st') => k a st'
    | (Raise e, st') => (Raise e, st')
    end.

Declare Scope db_scope.
Delimit Scope db_scope with db.
Notation "x <- c ;; k" := (bind c (fun x => k))
  (at level 100, c at next level, right associativity) : db_scope.
Notation "c ;;; k" := (bind c (fun _ => k))
  (at level 100, right associativity) : db_scope.

(** [try: body except Exception as e: handler(e)]. *)
Definition try_except {A} (body : Db A) (handler : Exception -> Db A) : Db A :=
  fun st =>
    match body st with
    | (Return a, st') => (Return a, st')
    | (Raise e, st') => handler e st'
    end.

(** [with transaction.atomic(): body]: the block commits when the body leaves
    it normally (a [return] included) and rolls back to the store at entry
    when an exception leaves it. *)
Definition atomic {A} (body : Db A) : Db A :=
  fun st =>
    match body st with
    | (Return a, st') => (Return a, st')
    | (Raise e, _) => (Raise e, st)
    end.

(** [uuid.uuid4()]. *)
Definition uuid4 : Db uuid :=
  fun st => (Return (next_uuid st), set_next_uuid (S (next_uuid st)) st).

(** [d[key]] on a dictionary. *)
Definition getitem {A} (v : option A) (key : string) : Db A :=
  match v with
  | Some a => ret a
  | None => raise (KeyError key)
  end.

(** [d.get(key, default)]. *)
Definition get_default {A} (v : option A) (default : A) : A :=
  match v with Some a => a | None => default end.

(** [for i, x in enumerate(xs): body(i, x)], counting from [i]. *)
Fixpoint for_enumerate {A} (i : nat) (xs : list A) (body : nat -> A -> Db unit)
  : Db unit :=
  match xs with
  | [] => ret tt
  | x :: xs' => bind (body i x) (fun _ => for_enumerate (S i) xs' body)
  end.

(** ** Writing rows *)

(** [instance.save()]: the row with the primary key of the instance is
    replaced; when there is none the instance is inserted. *)
Definition save_row {A} (pk : A -> uuid) (row : A) (rows : list A) : list A :=
  if existsb (fun r => pk r =? pk row) rows
  then map (fun r => if pk r =? pk row then row else r) rows
  else rows ++ [row].

(** [instance.save(force_insert=True)], the write of [objects.create]: the
    row is inserted.  Its primary key is a [uuid4] just drawn. *)
Definition insert_row {A} (row : A) (rows : list A) : list A := rows ++ [row].

(** [Quiz.save]: a quiz without share code gets one, then the row is
    written. *)
Definition Quiz_save (force_insert : bool) (quiz : Quiz.t) : Db Quiz.t :=
  bind
    (match Quiz.share_code quiz with
     | Some _ => ret quiz
     | None =>
         bind uuid4 (fun code =>
           ret (Quiz.mk (Quiz.id quiz) (Quiz.title quiz) (Quiz.creator quiz)
                        (Quiz.duration_minutes quiz) (Quiz.is_public quiz)
                        (Some code) (Quiz.allow_anonymous_attempts quiz)))
     end)
    (fun quiz' st =>
       (Return quiz',
        set_quizzes (if force_insert then insert_row quiz' (quizzes st)
                     else save_row Quiz.id quiz' (quizzes st)) st)).

(** [Quiz.objects.create(title, creator, duration_minutes, is_public,
    share_code)]: the primary key is the default [uuid.uuid4], and
    [allow_anonymous_attempts] its default [False]. *)
Definition Quiz_objects_create (title : string) (creator : nat)
    (duration_minutes : N) (is_public : bool) (share_code : option uuid)
  : Db Quiz.t :=
  bind uuid4 (fun id =>
    Quiz_save true (Quiz.mk id title creator duration_minutes is_public
                            share_code false)).

Definition Question_objects_create (quiz : Quiz.t) (text : string) (order : nat)
  : Db Question.t :=
  bind uuid4 (fun id st =>
    let question := Question.mk id (Quiz.id quiz) text order in
    (Return question, set_questions (insert_row question (questions st)) st)).

Definition Choice_objects_create (question : Question.t) (text : string)
    (is_correct : bool) (order : nat) : Db Choice.t :=
  bind uuid4 (fun id st =>
    let choice := Choice.mk id (Question.id question) text is_correct order in
    (Return choice, set_choices (insert_row choice (choices st)) st)).

(** ** Python floats

    A finite [float] is the rational number it denotes.  An operation of
    binary64 arithmetic returns the exact result rounded to the nearest
    number of the format, a tie going to the even significand.  The overflow
    threshold [2 ^ 1024] is out of the reach of a quotient of two counts of
    rows and of its product by 100, so that no infinity is modelled. *)

(** [a / b] rounded to the nearest integer, a tie going to the even one;
    [0 < b]. *)
Definition round_half_even (a b : Z) : Z :=
  let f := (a / b)%Z in
  match (2 * (a mod b) ?= b)%Z with
  | Lt => f
  | Gt => (f + 1)%Z
  | Eq => if Z.even f then f else (f + 1)%Z
  end.

Definition round_to_integer (y : Q) : Z :=
  round_half_even (Qnum y) (Zpos (Qden y)).

(** The [e] with [2 ^ e <= x < 2 ^ (e + 1)], for [0 < x]: the difference of
    the binary logarithms of the numerator and of the denominator, or one
    less. *)
Definition floor_log2 (x : Q) : Z :=
  let e := (Z.log2 (Qnum x) - Z.log2 (Zpos (Qden x)))%Z in
  if Qle_bool (2 ^ e) x then e else (e - 1)%Z.

(** The exponent of the unit in the last place of [x]: 53 bits of
    significand, and the subnormal numbers below [2 ^ (-1022)]. *)
Definition ulp_exponent (x : Q) : Z := Z.max (floor_log2 x - 52) (-1074).

(** The binary64 number nearest to [x], for [0 < x]. *)
Definition nearest (x : Q) : Q :=
  let q := ulp_exponent x in
  let y := (x * 2 ^ (- q))%Q in
  Qred (inject_Z (round_to_integer y) * 2 ^ q)%Q.

Definition binary64 (x : Q) : Q :=
  match Qnum x with
  | Z0 => 0%Q
  | Zpos _ => nearest x
  | Zneg _ => (- nearest (- x))%Q
  end.

(** [a / b] on two [int]: the quotient, correctly rounded. *)
Definition int_truediv (a b : Z) : Q :=
  binary64 (inject_Z a / inject_Z b)%Q.

(** [x * y] on two [float]. *)
Definition float_mul (x y : Q) : Q := binary64 (x * y)%Q.

(** The same two operations in the IEEE 754 model of the Standard Library
    ([SpecFloat], precision 53, maximal exponent 1024), to compare with. *)
Definition SF_of_int (a : Z) : spec_float := binary_normalize 53 1024 a 0 false.

Definition SF_percentage (K N : Z) : spec_float :=
  SFmul 53 1024 (SFdiv 53 1024 (SF_of_int K) (SF_of_int N)) (SF_of_int 100).

Definition SF2Q (f : spec_float) : option Q :=
  match f with
  | S754_zero _ => Some 0%Q
  | S754_finite s m e =>
      Some (Qred ((if s then - inject_Z (Zpos m) else inject_Z (Zpos m))
                  * 2 ^ e)%Q)
  | _ => None
  end.

(** ** utils.py *)

Module Utils.

(** The body of the [for choice_order, choice_data in enumerate(...)]
    loop. *)
Definition create_choice (question : Question.t) (choice_order : nat)
    (choice_data : Parsed.choice_data) : Db unit :=
  (text <- getitem (Parsed.choice_text choice_data) "choice_text" ;;
   _ <- Choice_objects_create question text
          (get_default (Parsed.is_correct choice_data) false) choice_order ;;
   ret tt)%db.

(** The body of the [for order, q_data in enumerate(questions_data)]
    loop. *)
Definition create_question (quiz : Quiz.t) (order : nat)
    (q_data : Parsed.q_data) : Db unit :=
  (text <- getitem (Parsed.question_text q_data) "question_text" ;;
   question <- Question_objects_create quiz text order ;;
   for_enumerate 0 (get_default (Parsed.choices q_data) [])
                 (create_choice question))%db.

(** [create_quiz_from_parsed_data]: [None] is returned when anything in
    the [try] block raises. *)
Definition create_quiz_from_parsed_data (user : nat) (title : string)
    (parsed_data : Parsed.parsed_data) (duration_minutes : N)
    (is_public : bool) : Db (option Quiz.t) :=
  try_except
    (code <- uuid4 ;;
     quiz <- Quiz_objects_create title user duration_minutes is_public
               (Some code) ;;
     let questions_data := get_default (Parsed.questions parsed_data) [] in
     _ <- for_enumerate 0 questions_data (create_question quiz) ;;
     ret (Some quiz))%db
    (fun e => ret None).

(** [session.answers.filter(selected_choice__is_correct=True)]: the answer
    is of the session and its selected choice is a row flagged correct. *)
Definition selected_choice__is_correct (st : Store) (a : UserAnswer.t)
  : bool :=
  existsb (fun c => (Choice.id c =? UserAnswer.selected_choice a)
                    && Choice.is_correct c)
          (choices st).

Definition calculate_quiz_score (st : Store) (session : QuizSession.t) : Q :=
  let total_questions :=
    objects_count (fun q => Question.quiz q =? QuizSession.quiz session)
                  (questions st) in
  if total_questions =? 0 then 0%Q
  else
    let correct_answers :=
      objects_count
        (fun a => (UserAnswer.session a =? QuizSession.id session)
                  && selected_choice__is_correct st a)
        (answers st) in
    float_mul (int_truediv (Z.of_nat correct_answers)
                           (Z.of_nat total_questions))
              100%Q.

(** [complete_quiz_session]: [now] is the value of [timezone.now()]. *)
Definition complete_quiz_session (now : datetime) (session : QuizSession.t)
    (st : Store) : QuizSession.t * Store :=
  match QuizSession.completed_at session with
  | None =>
      let session' :=
        QuizSession.mk (QuizSession.id session) (QuizSession.quiz session)
                       (QuizSession.user session)
                       (QuizSession.started_at session)
                       (Some now)
                       (Some (calculate_quiz_score st session)) in
      (session',
       set_sessions (save_row QuizSession.id session' (sessions st)) st)
  | Some _ => (session, st)
  end.

End Utils.

(** ** Requests and responses *)

Inductive Method := GET | HEAD | OPTIONS | POST | PUT | PATCH | DELETE.

(** [permissions.SAFE_METHODS]. *)
Definition SAFE_METHODS (m : Method) : bool :=
  match m with GET | HEAD | OPTIONS => true | _ => false end.

(** The data of a response: [{"error": ...}], or what a serializer renders. *)
Inductive Body :=
| Error (message : string)
| QuizCreated (quiz_id : uuid) (share_code : option uuid)
| QuizData (quiz : Quiz.t)
| UserAnswerData (answer : UserAnswer.t)
| QuizSessionResult (session : QuizSession.t)
                    (total_questions correct_answers : nat)
| QuizShareData (share : QuizShare.t).

Record Response := mkResponse { status : nat; data : Body }.

Definition HTTP_200_OK := 200.
Definition HTTP_201_CREATED := 201.
Definition HTTP_400_BAD_REQUEST := 400.
Definition HTTP_401_UNAUTHORIZED := 401.
Definition HTTP_403_FORBIDDEN := 403.
Definition HTTP_404_NOT_FOUND := 404.
Definition HTTP_500_INTERNAL_SERVER_ERROR := 500.

(** What the framework answers by itself: a request without credentials on a
    view that wants [IsAuthenticated], a primary key outside the queryset, an
    object permission refused, an exception nothing catches. *)
Definition not_authenticated : Response :=
  mkResponse HTTP_401_UNAUTHORIZED
             (Error "Authentication credentials were not provided.").
Definition not_found : Response :=
  mkResponse HTTP_404_NOT_FOUND (Error "Not found.").
Definition permission_denied : Response :=
  mkResponse HTTP_403_FORBIDDEN
             (Error "You do not have permission to perform this action.").
Definition server_error : Response :=
  mkResponse HTTP_500_INTERNAL_SERVER_ERROR (Error "Server Error (500)").

(** The error kinds of the specification, read off a response. *)
Definition StateError (r : Response) : Prop :=
  status r = HTTP_400_BAD_REQUEST /\
  (data r = Error "This quiz session is already completed." \/
   data r = Error "This session is already completed").

Definition TimedOutError (r : Response) : Prop :=
  r = mkResponse HTTP_400_BAD_REQUEST
                 (Error "Time's up! The quiz session has expired.").

Definition ValidationError (r : Response) : Prop :=
  status r = HTTP_400_BAD_REQUEST /\
  (data r = Error "Question ID and Choice ID are required" \/
   data r = Error "Invalid question for this quiz" \/
   data r = Error "Invalid choice for this question" \/
   data r = Error "You cannot share a quiz with yourself.").

(** ** models.py: the derived state of a session *)

(** [session.quiz]: the row the foreign key points to. *)
Definition session_quiz (st : Store) (session : QuizSession.t) : Got Quiz.t :=
  objects_get (fun q => Quiz.id q =? QuizSession.quiz session) (quizzes st).

(** [QuizSession.is_timed_out] for a quiz of [duration_minutes] minutes:
    [time_elapsed.total_seconds() > duration_minutes * 60], both sides in
    microseconds. *)
Definition is_timed_out (now : datetime) (duration_minutes : N)
    (session : QuizSession.t) : bool :=
  match QuizSession.completed_at session with
  | None =>
      let time_elapsed := (now - QuizSession.started_at session)%Z in
      (Z.of_N duration_minutes * 60 * 1000000 <? time_elapsed)%Z
  | Some _ => false
  end.

(** ** views.py: the session engine *)

Module QuizSessionViewSet.

(** [get_queryset]: the sessions of the user, or on a quiz the user
    created. *)
Definition get_queryset (st : Store) (user : nat) : list QuizSession.t :=
  filter
    (fun s =>
       (QuizSession.user s =? user)
       || existsb (fun q => (Quiz.id q =? QuizSession.quiz s)
                            && (Quiz.creator q =? user))
                  (quizzes st))
    (sessions st).

(** [IsQuizCreatorOrParticipant.has_object_permission], [quiz] being
    [obj.quiz]. *)
Definition IsQuizCreatorOrParticipant (user : nat) (obj : QuizSession.t)
    (quiz : Quiz.t) : bool :=
  if Quiz.creator quiz =? user then true
  else if QuizSession.user obj =? user then true
  else false.

(** [self.get_object()], after the [IsAuthenticated] check of the view. *)
Definition get_object (st : Store) (user : RequestUser) (pk : uuid)
  : Response + QuizSession.t :=
  match user with
  | AnonymousUser => inl not_authenticated
  | Authenticated u =>
      match objects_get (fun s => QuizSession.id s =? pk)
                        (get_queryset st u) with
      | One session =>
          match session_quiz st session with
          | One quiz =>
              if IsQuizCreatorOrParticipant u session quiz then inr session
              else inl permission_denied
          | _ => inl server_error
          end
      | DoesNotExist => inl not_found
      | MultipleObjectsReturned => inl server_error
      end
  end.

(** [UserAnswer.objects.update_or_create(session=, question=,
    defaults={'selected_choice': choice})].  [answered_at] is
    [auto_now_add]: written at insertion only. *)
Definition update_or_create (now : datetime) (session : QuizSession.t)
    (question : Question.t) (choice : Choice.t)
  : Db (UserAnswer.t * bool) :=
  fun st =>
    match objects_get
            (fun a => (UserAnswer.session a =? QuizSession.id session)
                      && (UserAnswer.question a =? Question.id question))
            (answers st) with
    | One a =>
        let a' := UserAnswer.mk (UserAnswer.id a) (UserAnswer.session a)
                                (UserAnswer.question a) (Choice.id choice)
                                (UserAnswer.answered_at a) in
        (Return (a', false),
         set_answers (save_row UserAnswer.id a' (answers st)) st)
    | DoesNotExist =>
        bind uuid4 (fun id st' =>
          let a := UserAnswer.mk id (QuizSession.id session)
                                 (Question.id question) (Choice.id choice)
                                 now in
          (Return (a, true),
           set_answers (insert_row a (answers st')) st')) st
    | MultipleObjectsReturned =>
        (Raise (OtherError "get() returned more than one UserAnswer"), st)
    end.

(** [submit_answer]: [question_id] and [choice_id] are
    [request.data.get(...)], [None] when the key is absent. *)
Definition submit_answer (now : datetime) (user : RequestUser) (pk : uuid)
    (question_id choice_id : option uuid) (st : Store) : Response * Store :=
  match get_object st user pk with
  | inl response => (response, st)
  | inr session =>
      if QuizSession.is_completed session then
        (mkResponse HTTP_400_BAD_REQUEST
                    (Error "This quiz session is already completed."), st)
      else
        match session_quiz st session with
        | One quiz =>
            if is_timed_out now (Quiz.duration_minutes quiz) session then
              let (_, st') := Utils.complete_quiz_session now session st in
              (mkResponse HTTP_400_BAD_REQUEST
                          (Error "Time's up! The quiz session has expired."),
               st')
            else
              match question_id, choice_id with
              | Some question_id, Some choice_id =>
                  match objects_get
                          (fun q => (Question.id q =? question_id)
                                    && (Question.quiz q =? Quiz.id quiz))
                          (questions st) with
                  | One question =>
                      match objects_get
                              (fun c => (Choice.id c =? choice_id)
                                        && (Choice.question c
                                            =? Question.id question))
                              (choices st) with
                      | One choice =>
                          match update_or_create now session question
                                                 choice st with
                          | (Return (user_answer, _), st') =>
                              (mkResponse HTTP_200_OK
                                          (UserAnswerData user_answer), st')
                          | (Raise _, st') => (server_error, st')
                          end
                      | DoesNotExist =>
                          (mkResponse HTTP_400_BAD_REQUEST
                             (Error "Invalid choice for this question"), st)
                      | MultipleObjectsReturned => (server_error, st)
                      end
                  | DoesNotExist =>
                      (mkResponse HTTP_400_BAD_REQUEST
                         (Error "Invalid question for this quiz"), st)
                  | MultipleObjectsReturned => (server_error, st)
                  end
              | _, _ =>
                  (mkResponse HTTP_400_BAD_REQUEST
                     (Error "Question ID and Choice ID are required"), st)
              end
        | _ => (server_error, st)
        end
  end.

(** What [QuizSessionResultSerializer] adds to the row. *)
Definition result_data (st : Store) (session : QuizSession.t) : Body :=
  QuizSessionResult session
    (objects_count (fun q => Question.quiz q =? QuizSession.quiz session)
                   (questions st))
    (objects_count
       (fun a => (UserAnswer.session a =? QuizSession.id session)
                 && Utils.selected_choice__is_correct st a)
       (answers st)).

Definition complete (now : datetime) (user : RequestUser) (pk : uuid)
    (st : Store) : Response * Store :=
  match get_object st user pk with
  | inl response => (response, st)
  | inr session =>
      if QuizSession.is_completed session then
        (mkResponse HTTP_400_BAD_REQUEST
                    (Error "This session is already completed"), st)
      else
        let (session', st') := Utils.complete_quiz_session now session st in
        (mkResponse HTTP_200_OK (result_data st' session'), st')
  end.

End QuizSessionViewSet.

(** ** views.py: access checks on a quiz *)

(** [IsCreatorOrReadOnly.has_object_permission]. *)
Definition IsCreatorOrReadOnly (method : Method) (obj : Quiz.t)
    (user : RequestUser) : bool :=
  if SAFE_METHODS method then true
  else user_is (Quiz.creator obj) user.

(** [quiz.shared_with.filter(id=request.user.id).exists()]. *)
Definition shared_with_exists (st : Store) (quiz : Quiz.t) (u : nat) : bool :=
  objects_exists
    (fun sh => (QuizShare.quiz sh =? Quiz.id quiz)
               && (QuizShare.shared_with sh =? u))
    (shares st).

(** [get_object_or_404(Quiz, share_code=share_code)]. *)
Definition quiz_by_share_code (st : Store) (share_code : uuid)
  : Response + Quiz.t :=
  match objects_get
          (fun q => match Quiz.share_code q with
                    | Some c => c =? share_code
                    | None => false
                    end)
          (quizzes st) with
  | One quiz => inr quiz
  | DoesNotExist => inl not_found
  | MultipleObjectsReturned => inl server_error
  end.

Module JoinQuizByShareCodeView.

(** [retrieve], up to the response with the quiz details.  (The session
    that [auto_start=true] opens afterwards is not part of the check.) *)
Definition retrieve (user : RequestUser) (share_code : uuid) (st : Store)
  : Response :=
  match quiz_by_share_code st share_code with
  | inl response => response
  | inr quiz =>
      if negb (Quiz.is_public quiz) then
        match user with
        | AnonymousUser =>
            if negb (Quiz.allow_anonymous_attempts quiz) then
              mkResponse HTTP_403_FORBIDDEN
                (Error "This quiz is private. Please log in to attempt it.")
            else mkResponse HTTP_200_OK (QuizData quiz)
        | Authenticated u =>
            if negb (Quiz.creator quiz =? u)
               && negb (shared_with_exists st quiz u)
            then mkResponse HTTP_403_FORBIDDEN
                   (Error "You don't have access to this quiz.")
            else mkResponse HTTP_200_OK (QuizData quiz)
        end
      else mkResponse HTTP_200_OK (QuizData quiz)
  end.

End JoinQuizByShareCodeView.

(** [s] has the character ['@']: the test ['@' in recipient_identifier]. *)
Fixpoint has_at (s : string) : bool :=
  match s with
  | EmptyString => false
  | String c s' => if Ascii.eqb c "@"%char then true else has_at s'
  end.

Module QuizViewSet.

(** [get_queryset].  For a user with an account the three querysets joined
    by [|] are one query,
    [quiz LEFT OUTER JOIN quizshare ON quizshare.quiz_id = quiz.id
     WHERE quiz.is_public OR quiz.creator_id = u
           OR quizshare.shared_with_id = u],
    without [DISTINCT]: a quiz comes once for each of its share rows that
    passes, and once when it has no share row and passes by itself. *)
Definition get_queryset (st : Store) (user : RequestUser) : list Quiz.t :=
  match user with
  | AnonymousUser => filter Quiz.is_public (quizzes st)
  | Authenticated u =>
      flat_map
        (fun q =>
           let own := Quiz.is_public q || (Quiz.creator q =? u) in
           match filter (fun sh => QuizShare.quiz sh =? Quiz.id q)
                        (shares st) with
           | [] => if own then [q] else []
           | joined =>
               flat_map
                 (fun sh =>
                    if own || (QuizShare.shared_with sh =? u)
                    then [q] else [])
                 joined
           end)
        (quizzes st)
  end.

(** [self.get_object()] of an action that overrides the permission classes
    with [IsAuthenticated]. *)
Definition get_object (st : Store) (user : RequestUser) (pk : uuid)
  : Response + Quiz.t :=
  match user with
  | AnonymousUser => inl not_authenticated
  | Authenticated _ =>
      match objects_get (fun q => Quiz.id q =? pk) (get_queryset st user) with
      | One quiz => inr quiz
      | DoesNotExist => inl not_found
      | MultipleObjectsReturned => inl server_error
      end
  end.

(** [by_share_code]: the primary key of the route is the share code. *)
Definition by_share_code (user : RequestUser) (pk : uuid) (st : Store)
  : Response :=
  match quiz_by_share_code st pk with
  | inl response => response
  | inr quiz =>
      if negb (Quiz.is_public quiz) then
        match user with
        | AnonymousUser =>
            if negb (Quiz.allow_anonymous_attempts quiz) then
              mkResponse HTTP_403_FORBIDDEN
                (Error "This quiz is private and requires authentication.")
            else mkResponse HTTP_200_OK (QuizData quiz)
        | Authenticated u =>
            if negb (Quiz.creator quiz =? u)
               && negb (shared_with_exists st quiz u)
            then mkResponse HTTP_403_FORBIDDEN
                   (Error "You don't have access to this quiz.")
            else mkResponse HTTP_200_OK (QuizData quiz)
        end
      else mkResponse HTTP_200_OK (QuizData quiz)
  end.

(** [QuizShare.objects.filter(quiz=, shared_with=, permission_type='edit')
    .exists()]. *)
Definition edit_share_exists (st : Store) (quiz : Quiz.t) (u : nat) : bool :=
  objects_exists
    (fun sh => (QuizShare.quiz sh =? Quiz.id quiz)
               && (QuizShare.shared_with sh =? u)
               && String.eqb (QuizShare.permission_type sh) "edit")
    (shares st).

(** [QuizShare.objects.get_or_create(quiz=, shared_with=, defaults=...)];
    [shared_at] is [auto_now_add]. *)
Definition get_or_create (now : datetime) (quiz : Quiz.t) (recipient : nat)
    (permission_type : string) (shared_by : nat) : Db (QuizShare.t * bool) :=
  fun st =>
    match objects_get
            (fun sh => (QuizShare.quiz sh =? Quiz.id quiz)
                       && (QuizShare.shared_with sh =? recipient))
            (shares st) with
    | One share => (Return (share, false), st)
    | DoesNotExist =>
        bind uuid4 (fun id st' =>
          let share := QuizShare.mk id (Quiz.id quiz) shared_by recipient
                                    now permission_type in
          (Return (share, true),
           set_shares (insert_row share (shares st')) st')) st
    | MultipleObjectsReturned =>
        (Raise (OtherError "get() returned more than one QuizShare"), st)
    end.

(** [share]: [shared_with] and [permission_type] are
    [request.data.get(...)]. *)
Definition share (now : datetime) (user : RequestUser) (pk : uuid)
    (shared_with permission_type : option string) (st : Store)
  : Response * Store :=
  match get_object st user pk, user with
  | inl response, _ => (response, st)
  | inr _, AnonymousUser => (not_authenticated, st)
  | inr quiz, Authenticated u =>
      if negb (Quiz.creator quiz =? u) && negb (edit_share_exists st quiz u)
      then (mkResponse HTTP_403_FORBIDDEN
              (Error "You don't have permission to share this quiz."), st)
      else
        let permission_type := get_default permission_type "attempt" in
        match shared_with with
        | None => (server_error, st)   (* ['@' in None] is a TypeError *)
        | Some recipient_identifier =>
            match (if has_at recipient_identifier
                   then objects_get
                          (fun r => String.eqb (User.email r)
                                               recipient_identifier)
                          (users st)
                   else objects_get
                          (fun r => String.eqb (User.username r)
                                               recipient_identifier)
                          (users st)) with
            | One recipient =>
                match get_or_create now quiz (User.id recipient)
                                    permission_type u st with
                | (Return (share, created), st') =>
                    if negb created then
                      let share' :=
                        QuizShare.mk (QuizShare.id share)
                                     (QuizShare.quiz share)
                                     (QuizShare.shared_by share)
                                     (QuizShare.shared_with share)
                                     (QuizShare.shared_at share)
                                     permission_type in
                      (mkResponse HTTP_200_OK (QuizShareData share'),
                       set_shares
                         (save_row QuizShare.id share' (shares st')) st')
                    else (mkResponse HTTP_200_OK (QuizShareData share), st')
                | (Raise _, st') => (server_error, st')
                end
            | DoesNotExist =>
                (mkResponse HTTP_400_BAD_REQUEST
                   (Error ("User with identifier '" ++ recipient_identifier
                           ++ "' does not exist.")%string), st)
            | MultipleObjectsReturned => (server_error, st)
            end
        end
  end.

End QuizViewSet.

(** ** serializers.py and the [shares] route *)

Module QuizShareSerializer.

(** [validate(data)] for [data['quiz'] = quiz],
    [data['shared_with'] = shared_with] and [request.user = user]: the
    message of the [ValidationError] raised, or [None]. *)
Definition validate (st : Store) (user : nat) (quiz : Quiz.t)
    (shared_with : nat) : option string :=
  if shared_with =? user then
    Some "You cannot share a quiz with yourself."
  else if negb (Quiz.creator quiz =? user) then
    if negb (QuizViewSet.edit_share_exists st quiz user) then
      Some "You don't have permission to share this quiz."
    else None
  else None.

End QuizShareSerializer.

Module QuizShareViewSet.

(** [create] of the model view set ([POST shares/]): the fields are
    resolved (the primary keys must be rows, the permission one of the
    three choices of the model), the pair must be new
    ([unique_together]), [validate] is run, and [create] of the serializer
    inserts the row with [shared_by] the requester. *)
Definition create (now : datetime) (user : RequestUser)
    (quiz shared_with : uuid) (permission_type : option string)
    (st : Store) : Response * Store :=
  match user with
  | AnonymousUser => (not_authenticated, st)
  | Authenticated u =>
      let permission_type := get_default permission_type "attempt" in
      match objects_get (fun q => Quiz.id q =? quiz) (quizzes st),
            objects_get (fun r => User.id r =? shared_with) (users st) with
      | One quiz, One recipient =>
          if negb (existsb (String.eqb permission_type)
                           ["view"; "attempt"; "edit"])
          then (mkResponse HTTP_400_BAD_REQUEST
                  (Error "permission_type is not a valid choice."), st)
          else if shared_with_exists st quiz (User.id recipient)
          then (mkResponse HTTP_400_BAD_REQUEST
                  (Error "The fields quiz, shared_with must make a unique set."),
                st)
          else
            match QuizShareSerializer.validate st u quiz
                                               (User.id recipient) with
            | Some message =>
                (mkResponse HTTP_400_BAD_REQUEST (Error message), st)
            | None =>
                match uuid4 st with
                | (Return id, st') =>
                    let share := QuizShare.mk id (Quiz.id quiz) u
                                              (User.id recipient) now
                                              permission_type in
                    (mkResponse HTTP_201_CREATED (QuizShareData share),
                     set_shares (insert_row share (shares st')) st')
                | (Raise _, st') => (server_error, st')
                end
            end
      | _, _ =>
          (mkResponse HTTP_400_BAD_REQUEST
             (Error "Invalid pk - object does not exist."), st)
      end
  end.

End QuizShareViewSet.

(** ** views.py: a quiz from an uploaded image *)

Module CreateQuizFromImageView.

(** [get_object_or_404(ImageUpload, id=image_id, user=request.user)]. *)
Definition get_image_upload (image_id : option uuid) (user : nat)
  : Db ImageUpload.t :=
  fun st =>
    match image_id with
    | None => (Raise (Http404 "ImageUpload"), st)
    | Some image_id =>
        match objects_get
                (fun i => (ImageUpload.id i =? image_id)
                          && (ImageUpload.user i =? user))
                (image_uploads st) with
        | One image_upload => (Return image_upload, st)
        | DoesNotExist => (Raise (Http404 "ImageUpload"), st)
        | MultipleObjectsReturned =>
            (Raise (OtherError "get() returned more than one ImageUpload"),
             st)
        end
    end.

(** [not image_upload.processed or not image_upload.parsed_data]. *)
Definition not_processed (image_upload : ImageUpload.t) : bool :=
  negb (ImageUpload.processed image_upload)
  || negb (match ImageUpload.parsed_data image_upload with
           | Some d => Parsed.truthy d
           | None => false
           end).

(** [create]: the arguments after [user] are the keys of [request.data],
    [None] when absent. *)
Definition create (user : RequestUser) (image_id : option uuid)
    (title : option string) (duration_minutes : option N)
    (is_public : option bool) (st : Store) : Response * Store :=
  match user with
  | AnonymousUser => (not_authenticated, st)
  | Authenticated u =>
      let title := get_default title "Untitled Quiz" in
      let duration_minutes := get_default duration_minutes 10%N in
      let is_public := get_default is_public false in
      let run :=
        try_except
          (image_upload <- get_image_upload image_id u ;;
           if not_processed image_upload then
             ret (mkResponse HTTP_400_BAD_REQUEST
                             (Error "Image has not been processed yet."))
           else
             atomic
               (quiz <- Utils.create_quiz_from_parsed_data u title
                          (get_default (ImageUpload.parsed_data image_upload)
                                       (Parsed.mk None None))
                          duration_minutes is_public ;;
                match quiz with
                | Some quiz =>
                    ret (mkResponse HTTP_201_CREATED
                           (QuizCreated (Quiz.id quiz)
                                        (Quiz.share_code quiz)))
                | None =>
                    ret (mkResponse HTTP_500_INTERNAL_SERVER_ERROR
                                    (Error "Failed to create quiz"))
                end))%db
          (fun e => ret (mkResponse HTTP_400_BAD_REQUEST (Error (str e))))
      in
      match run st with
      | (Return response, st') => (response, st')
      | (Raise _, st') => (server_error, st')
      end
  end.

End CreateQuizFromImageView.

(** ** Vocabulary of the properties *)

(** Number of elements of a list with a property. *)
Fixpoint count_if {A} (p : A -> bool) (l : list A) : nat :=
  match l with
  | [] => 0
  | x :: l' => (if p x then 1 else 0) + count_if p l'
  end.

(** N: the questions of the quiz of the session. *)
Definition number_of_questions (st : Store) (session : QuizSession.t) : nat :=
  count_if (fun q => Question.quiz q =? QuizSession.quiz session)
           (questions st).

(** The selected choice of the answer has [is_correct = true]. *)
Definition answer_is_correct (st : Store) (a : UserAnswer.t) : bool :=
  existsb (fun c => (Choice.id c =? UserAnswer.selected_choice a)
                    && Choice.is_correct c)
          (choices st).

(** K: the recorded answers of the session whose selected choice is
    correct. *)
Definition number_correct (st : Store) (session : QuizSession.t) : nat :=
  count_if (fun a => (UserAnswer.session a =? QuizSession.id session)
                     && answer_is_correct st a)
           (answers st).

(** 100 × K / N, and 0 when N = 0. *)
Definition percentage (K N : nat) : Q :=
  match N with
  | 0 => 0%Q
  | S _ => (100 * inject_Z (Z.of_nat K) / inject_Z (Z.of_nat N))%Q
  end.

(** (K / N) × 100 in binary64, quotient first, and 0 when N = 0. *)
Definition float_percentage (K N : nat) : Q :=
  match N with
  | 0 => 0%Q
  | S _ => float_mul (int_truediv (Z.of_nat K) (Z.of_nat N)) 100%Q
  end.

(** The row of primary key [pk] in the table of sessions is [s]. *)
Definition stored_session (st : Store) (pk : uuid) (s : QuizSession.t) : Prop :=
  In s (sessions st) /\
  forall s', In s' (sessions st) -> QuizSession.id s' = pk -> s' = s.

(** *** Answers *)

(** The rows with the values [x] and [y] in the columns [k1] and [k2]. *)
Definition keyed {A} (k1 k2 : A -> nat) (x y : nat) : A -> bool :=
  fun r => (k1 r =? x) && (k2 r =? y).

(** The constraints of a table with primary key [pk] and
    [unique_together = [k1, k2]], whose keys in use are keys [uuid4] has
    drawn, [next] being the next one. *)
Definition table_wf {A} (pk k1 k2 : A -> nat) (rows : list A) (next : uuid)
  : Prop :=
  NoDup (map pk rows) /\
  (forall r, In r rows -> pk r < next) /\
  (forall x y, List.length (filter (keyed k1 k2 x y) rows) <= 1).

(** The answers recorded for a question in a session. *)
Definition answers_for (st : Store) (session question : uuid)
  : list UserAnswer.t :=
  filter (keyed UserAnswer.session UserAnswer.question session question)
         (answers st).

(** The constraints of the table of answers, with
    [unique_together = ['session', 'question']]. *)
Definition answers_wf (st : Store) : Prop :=
  table_wf UserAnswer.id UserAnswer.session UserAnswer.question
           (answers st) (next_uuid st).

(** A call of [submit_answer]. *)
Record SubmitAnswer := mkSubmitAnswer {
  sa_now : datetime;
  sa_user : RequestUser;
  sa_pk : uuid;
  sa_question_id : option uuid;
  sa_choice_id : option uuid
}.

Definition submit_answer (c : SubmitAnswer) : Store -> Response * Store :=
  QuizSessionViewSet.submit_answer (sa_now c) (sa_user c) (sa_pk c)
                                   (sa_question_id c) (sa_choice_id c).

(** The calls of a list, one after the other: the responses in order, and
    the store at the end. *)
Fixpoint submit_answers (calls : list SubmitAnswer) (st : Store)
  : list Response * Store :=
  match calls with
  | [] => ([], st)
  | c :: calls' =>
      let (r, st1) := submit_answer c st in
      let (rs, st') := submit_answers calls' st1 in
      (r :: rs, st')
  end.

(** The choice that the call [c] submits for the question in the session,
    when the call is answered 200: the [choice_id] of the request.  [None]
    for a call on another session or question, and for a call that is
    refused. *)
Definition submitted_choice (session question : uuid) (c : SubmitAnswer)
    (r : Response) : option uuid :=
  if (status r =? HTTP_200_OK) && (sa_pk c =? session) then
    match sa_question_id c with
    | Some q => if q =? question then sa_choice_id c else None
    | None => None
    end
  else None.

(** The choice of the last successful submission for the question in the
    session, among calls in order and their responses. *)
Fixpoint last_submitted_choice (session question : uuid)
    (calls : list SubmitAnswer) (rs : list Response) : option uuid :=
  match calls, rs with
  | c :: calls', r :: rs' =>
      match last_submitted_choice session question calls' rs' with
      | Some choice => Some choice
      | None => submitted_choice session question c r
      end
  | _, _ => None
  end.

(** The question is one of the quiz; the choice is one of the question. *)
Definition question_in_quiz (st : Store) (question quiz : uuid) : bool :=
  existsb (fun q => (Question.id q =? question) && (Question.quiz q =? quiz))
          (questions st).
Definition choice_in_question (st : Store) (choice question : uuid) : bool :=
  existsb (fun c => (Choice.id c =? choice) && (Choice.question c =? question))
          (choices st).

(** *** Shares *)

(** The shares of a quiz with a grantee. *)
Definition shares_for (st : Store) (quiz : uuid) (grantee : nat)
  : list QuizShare.t :=
  filter (keyed QuizShare.quiz QuizShare.shared_with quiz grantee)
         (shares st).

(** The constraints of the table of shares, with
    [unique_together = ['quiz', 'shared_with']]. *)
Definition shares_wf (st : Store) : Prop :=
  table_wf QuizShare.id QuizShare.quiz QuizShare.shared_with
           (shares st) (next_uuid st).

(** A call of the [share] action of a quiz. *)
Record Share := mkShare {
  sh_now : datetime;
  sh_user : RequestUser;
  sh_pk : uuid;
  sh_shared_with : option string;
  sh_permission_type : option string
}.

Definition share (c : Share) : Store -> Response * Store :=
  QuizViewSet.share (sh_now c) (sh_user c) (sh_pk c)
                    (sh_shared_with c) (sh_permission_type c).

Fixpoint share_all (calls : list Share) (st : Store)
  : list Response * Store :=
  match calls with
  | [] => ([], st)
  | c :: calls' =>
      let (r, st1) := share c st in
      let (rs, st') := share_all calls' st1 in
      (r :: rs, st')
  end.

(** The permission a response reports as granted on the quiz to the
    grantee; [None] for any other response. *)
Definition granted_permission (quiz : uuid) (grantee : nat) (r : Response)
  : option string :=
  match data r with
  | QuizShareData sh =>
      if (status r =? HTTP_200_OK)
         && (QuizShare.quiz sh =? quiz)
         && (QuizShare.shared_with sh =? grantee)
      then Some (QuizShare.permission_type sh) else None
  | _ => None
  end.

Fixpoint last_granted_permission (quiz : uuid) (grantee : nat)
    (rs : list Response) : option string :=
  match rs with
  | [] => None
  | r :: rs' =>
      match last_granted_permission quiz grantee rs' with
      | Some p => Some p
      | None => granted_permission quiz grantee r
      end
  end.

(** *** Access *)

Inductive Access :=
| no_access
| public_view
| owner
| shared
| anonymous_allowed.

(** The condition under which [by_share_code] and
    [JoinQuizByShareCodeView.retrieve] answer 403. *)
Definition access_refused (st : Store) (quiz : Quiz.t) (user : RequestUser)
  : bool :=
  if negb (Quiz.is_public quiz) then
    match user with
    | AnonymousUser => negb (Quiz.allow_anonymous_attempts quiz)
    | Authenticated u =>
        negb (Quiz.creator quiz =? u) && negb (shared_with_exists st quiz u)
    end
  else false.

(** The access the checks of the views give a viewer on a quiz: none when
    the views refuse the quiz; that of the owner when the object permission
    lets the viewer write; otherwise by the reason the quiz is shown. *)
Definition access_policy (st : Store) (quiz : Quiz.t) (user : RequestUser)
  : Access :=
  if access_refused st quiz user then no_access
  else if IsCreatorOrReadOnly PUT quiz user then owner
  else if Quiz.is_public quiz then public_view
  else match user with
       | AnonymousUser => anonymous_allowed
       | Authenticated _ => shared
       end.

(** *** Extracted records *)

(** The record has the key the build reads with [[...]]. *)
Definition choice_ok (c : Parsed.choice_data) : bool :=
  match Parsed.choice_text c with Some _ => true | None => false end.
Definition question_ok (q : Parsed.q_data) : bool :=
  match Parsed.question_text q with
  | Some _ => forallb choice_ok (get_default (Parsed.choices q) [])
  | None => false
  end.
Definition parsed_ok (d : Parsed.parsed_data) : bool :=
  forallb question_ok (get_default (Parsed.questions d) []).

(** The choices of a question, in the order of the table. *)
Definition choices_of (st : Store) (question : uuid) : list Choice.t :=
  filter (fun c => Choice.question c =? question) (choices st).

(** The statement ends without an exception. *)
Definition returns {A} (r : Outcome A * Store) : bool :=
  match fst r with Return _ => true | Raise _ => false end.

(** *** A store to run on *)

(** Three users; a private quiz of alice, ten minutes, with two questions of
    two choices each (the correct ones: C1b and C2a), and a public quiz of
    hers without questions; a session of bob on the private quiz, started at
    time 0. *)
Definition alice := User.mk 1 "alice" "alice@example.org".
Definition bob := User.mk 2 "bob" "bob@example.org".
Definition carol := User.mk 3 "carol" "carol@example.org".

Definition capitals := Quiz.mk 10 "Capitals" 1 10%N false (Some 77) false.
Definition rivers := Quiz.mk 11 "Rivers" 1 10%N true (Some 78) false.

Definition example_store : Store :=
  mkStore [alice; bob; carol]
          [capitals; rivers]
          [Question.mk 20 10 "Q1" 0; Question.mk 21 10 "Q2" 1]
          [Choice.mk 30 20 "C1a" false 0; Choice.mk 31 20 "C1b" true 1;
           Choice.mk 32 21 "C2a" true 0; Choice.mk 33 21 "C2b" false 1]
          []
          [QuizSession.mk 40 10 2 0%Z None None]
          []
          []
          100.

(** Bob answers Q1 with C1b and Q2 with C2b, one second and two seconds
    after the start. *)
Definition example_answers : list SubmitAnswer :=
  [mkSubmitAnswer 1000000%Z (Authenticated 2) 40 (Some 20) (Some 31);
   mkSubmitAnswer 2000000%Z (Authenticated 2) 40 (Some 21) (Some 33)].

Definition example_answered : Store :=
  snd (submit_answers example_answers example_store).

(** Bob answers Q1 with C1a, changes to C1b, answers Q2 with C2b, and then
    sends for Q1 a choice of Q2, which is refused. *)
Definition example_resubmissions : list SubmitAnswer :=
  [mkSubmitAnswer 1000000%Z (Authenticated 2) 40 (Some 20) (Some 30);
   mkSubmitAnswer 2000000%Z (Authenticated 2) 40 (Some 20) (Some 31);
   mkSubmitAnswer 3000000%Z (Authenticated 2) 40 (Some 21) (Some 33);
   mkSubmitAnswer 4000000%Z (Authenticated 2) 40 (Some 20) (Some 32)].

(** Alice shares her quiz with bob to view, then again to edit. *)
Definition example_shares : list Share :=
  [mkShare 1000000%Z (Authenticated 1) 10 (Some "bob") (Some "view");
   mkShare 2000000%Z (Authenticated 1) 10 (Some "bob@example.org")
           (Some "edit")].

(** Alice shares her quiz with bob to view and with carol to view, and then
    with bob again, to edit. *)
Definition example_reshares : list Share :=
  [mkShare 1000000%Z (Authenticated 1) 10 (Some "bob") (Some "view");
   mkShare 2000000%Z (Authenticated 1) 10 (Some "carol") (Some "view");
   mkShare 3000000%Z (Authenticated 1) 10 (Some "bob") (Some "edit")].

(** An extraction of two questions in which the second choice of the first
    question has no [choice_text], and an upload of alice that holds it. *)
Definition malformed : Parsed.parsed_data :=
  Parsed.mk
    (Some [Parsed.mk_question
             (Some "Q1")
             (Some [Parsed.mk_choice (Some "A") (Some true);
                    Parsed.mk_choice None (Some false)]);
           Parsed.mk_question (Some "Q2") None])
    None.

Definition store_with_upload : Store :=
  mkStore (users example_store) (quizzes example_store)
          (questions example_store) (choices example_store)
          [ImageUpload.mk 50 1 true (Some malformed)]
          (sessions example_store) (answers example_store)
          (shares example_store) (next_uuid example_store).

(** ** The rest of the views *)

Definition set_image_uploads (v : list ImageUpload.t) (st : Store) : Store :=
  mkStore (users st) (quizzes st) (questions st) (choices st) v
          (sessions st) (answers st) (shares st) (next_uuid st).

(** What a view answers when the data is rows of type [A]: an error
    response, or a status with the rows. *)
Inductive Reply (A : Type) :=
| Refused (response : Response)
| Answered (code : nat) (rows : A).
Arguments Refused {A} response.
Arguments Answered {A} code rows.

Definition HTTP_204_NO_CONTENT := 204.

(** [queryset.first()] of a queryset without ordering: the row of least
    primary key. *)
Definition first_by_pk {A} (pk : A -> nat) (rows : list A) : option A :=
  fold_right
    (fun r least =>
       match least with
       | Some m => if pk r <=? pk m then Some r else Some m
       | None => Some r
       end)
    None rows.

(** *** Starting a session *)

Module QuizSessionSerializer.

(** [create(validated_data)]: the user of the request is put in, and
    [QuizSession.objects.create] inserts the row; [started_at] is
    [auto_now_add]. *)
Definition create (now : datetime) (user : nat) (quiz : Quiz.t)
  : Db QuizSession.t :=
  bind uuid4 (fun id st =>
    let session := QuizSession.mk id (Quiz.id quiz) user now None None in
    (Return session, set_sessions (insert_row session (sessions st)) st)).

End QuizSessionSerializer.

(** [create] of [QuizSessionViewSet] ([POST sessions/]): the field [quiz] is
    resolved among all quizzes, and the serializer creates the session. *)
Definition QuizSessionViewSet_create (now : datetime) (user : RequestUser)
    (quiz : uuid) (st : Store) : Reply QuizSession.t * Store :=
  match user with
  | AnonymousUser => (Refused not_authenticated, st)
  | Authenticated u =>
      match objects_get (fun q => Quiz.id q =? quiz) (quizzes st) with
      | One quiz =>
          match QuizSessionSerializer.create now u quiz st with
          | (Return session, st') => (Answered HTTP_201_CREATED session, st')
          | (Raise _, st') => (Refused server_error, st')
          end
      | _ =>
          (Refused (mkResponse HTTP_400_BAD_REQUEST
                      (Error "Invalid pk - object does not exist.")), st)
      end
  end.

Module JoinQuiz.

(** [QuizSession.objects.filter(quiz=quiz, user=request.user,
    completed_at__isnull=True).first()]. *)
Definition existing_session (st : Store) (quiz : Quiz.t) (u : nat)
  : option QuizSession.t :=
  first_by_pk QuizSession.id
    (filter (fun s => (QuizSession.quiz s =? Quiz.id quiz)
                      && (QuizSession.user s =? u)
                      && negb (QuizSession.is_completed s))
            (sessions st)).

(** [JoinQuizByShareCodeView.retrieve] in full: the response of the check,
    and with it [data['active_session']] when [auto_start=true] is asked by a
    user with an account. *)
Definition retrieve (now : datetime) (user : RequestUser) (share_code : uuid)
    (auto_start : option string) (st : Store)
  : (Response * option QuizSession.t) * Store :=
  match JoinQuizByShareCodeView.retrieve user share_code st with
  | mkResponse _ (QuizData quiz) as response =>
      match user with
      | Authenticated u =>
          if match auto_start with
             | Some v => String.eqb v "true"
             | None => false
             end
          then
            match existing_session st quiz u with
            | Some existing =>
                if negb (is_timed_out now (Quiz.duration_minutes quiz)
                                      existing)
                then ((response, Some existing), st)
                else
                  match QuizSessionSerializer.create now u quiz st with
                  | (Return session, st') => ((response, Some session), st')
                  | (Raise _, st') => ((server_error, None), st')
                  end
            | None =>
                match QuizSessionSerializer.create now u quiz st with
                | (Return session, st') => ((response, Some session), st')
                | (Raise _, st') => ((server_error, None), st')
                end
            end
          else ((response, None), st)
      | AnonymousUser => ((response, None), st)
      end
  | response => ((response, None), st)
  end.

End JoinQuiz.

(** *** Uploading an image *)

(** [ImageUploadView.create] for a request that carries a valid image:
    [parsed_data] is what [process_image_with_openai] returned for it.  The
    row is inserted by the serializer, then saved with the extraction and
    [processed = True].  The answer is 201 with the key of the upload and
    the extraction. *)
Definition ImageUploadView_create (user : RequestUser)
    (parsed_data : Parsed.parsed_data) (st : Store)
  : Reply (uuid * Parsed.parsed_data) * Store :=
  match user with
  | AnonymousUser => (Refused not_authenticated, st)
  | Authenticated u =>
      match uuid4 st with
      | (Return id, st1) =>
          let image_upload := ImageUpload.mk id u false None in
          let st2 :=
            set_image_uploads (insert_row image_upload (image_uploads st1))
                              st1 in
          let image_upload' := ImageUpload.mk id u true (Some parsed_data) in
          (Answered HTTP_201_CREATED (id, parsed_data),
           set_image_uploads
             (save_row ImageUpload.id image_upload' (image_uploads st2)) st2)
      | (Raise _, st1) => (Refused server_error, st1)
      end
  end.

(** *** Questions and choices of a quiz *)

(** [instance.delete()] of a question: with it go the rows that point to it
    with [on_delete=CASCADE], its choices and the answers to it, and the
    answers that selected one of those choices. *)
Definition Question_delete (question : Question.t) (st : Store) : Store :=
  let gone (c : Choice.t) := Choice.question c =? Question.id question in
  let chosen_gone (a : UserAnswer.t) :=
    existsb (fun c => gone c && (Choice.id c =? UserAnswer.selected_choice a))
            (choices st) in
  set_answers
    (filter (fun a => negb ((UserAnswer.question a =? Question.id question)
                            || chosen_gone a))
            (answers st))
    (set_choices
       (filter (fun c => negb (gone c)) (choices st))
       (set_questions
          (filter (fun q => negb (Question.id q =? Question.id question))
                  (questions st))
          st)).

Module QuestionViewSet.

(** [get_queryset], [quiz_pk] being the key of the route. *)
Definition get_queryset (st : Store) (quiz_pk : option uuid)
  : list Question.t :=
  match quiz_pk with
  | Some quiz_id => filter (fun q => Question.quiz q =? quiz_id) (questions st)
  | None => []
  end.

(** [perform_create]: [text] and [order] are the validated fields. *)
Definition perform_create (user : nat) (quiz_pk : uuid) (text : string)
    (order : nat) : Db Question.t :=
  fun st =>
    match objects_get (fun q => Quiz.id q =? quiz_pk) (quizzes st) with
    | One quiz =>
        if negb (Quiz.creator quiz =? user) then
          (Raise (OtherError "You can only add questions to your own quizzes."),
           st)
        else Question_objects_create quiz text order st
    | DoesNotExist => (Raise (Http404 "Quiz"), st)
    | MultipleObjectsReturned =>
        (Raise (OtherError "get() returned more than one Quiz"), st)
    end.

(** [destroy] ([DELETE quizzes/<quiz_pk>/questions/<pk>/]): the object is
    looked up in the queryset, the only permission class is
    [IsAuthenticated], and the instance is deleted. *)
Definition destroy (user : RequestUser) (quiz_pk pk : uuid) (st : Store)
  : Reply unit * Store :=
  match user with
  | AnonymousUser => (Refused not_authenticated, st)
  | Authenticated _ =>
      match objects_get (fun q => Question.id q =? pk)
                        (get_queryset st (Some quiz_pk)) with
      | One question =>
          (Answered HTTP_204_NO_CONTENT tt, Question_delete question st)
      | DoesNotExist => (Refused not_found, st)
      | MultipleObjectsReturned => (Refused server_error, st)
      end
  end.

End QuestionViewSet.

Module ChoiceViewSet.

Definition get_queryset (st : Store) (question_pk : option uuid)
  : list Choice.t :=
  match question_pk with
  | Some question_id =>
      filter (fun c => Choice.question c =? question_id) (choices st)
  | None => []
  end.

(** [perform_create]: [question.quiz] is the row the foreign key of the
    question points to. *)
Definition perform_create (user : nat) (question_pk : uuid) (text : string)
    (is_correct : bool) (order : nat) : Db Choice.t :=
  fun st =>
    match objects_get (fun q => Question.id q =? question_pk)
                      (questions st) with
    | One question =>
        match objects_get (fun q => Quiz.id q =? Question.quiz question)
                          (quizzes st) with
        | One quiz =>
            if negb (Quiz.creator quiz =? user) then
              (Raise (OtherError
                 "You can only add choices to your own quiz questions."), st)
            else Choice_objects_create question text is_correct order st
        | _ => (Raise (OtherError "Question has no quiz."), st)
        end
    | DoesNotExist => (Raise (Http404 "Question"), st)
    | MultipleObjectsReturned =>
        (Raise (OtherError "get() returned more than one Question"), st)
    end.

End ChoiceViewSet.

(** *** Lists of shares *)

Module QuizShareLists.

(** [QuizShareViewSet.get_queryset], [sent] and [received]. *)
Definition get_queryset (st : Store) (u : nat) : list QuizShare.t :=
  filter (fun sh => (QuizShare.shared_by sh =? u)
                    || (QuizShare.shared_with sh =? u))
         (shares st).
Definition sent (st : Store) (u : nat) : list QuizShare.t :=
  filter (fun sh => QuizShare.shared_by sh =? u) (shares st).
Definition received (st : Store) (u : nat) : list QuizShare.t :=
  filter (fun sh => QuizShare.shared_with sh =? u) (shares st).

(** [QuizViewSet.shares]: the shares of a quiz, for its creator. *)
Definition shares_of_quiz (user : RequestUser) (pk : uuid) (st : Store)
  : Reply (list QuizShare.t) :=
  match QuizViewSet.get_object st user pk with
  | inl response => Refused response
  | inr quiz =>
      if negb (user_is (Quiz.creator quiz) user) then
        Refused (mkResponse HTTP_403_FORBIDDEN
          (Error "You don't have permission to view shares for this quiz."))
      else
        Answered HTTP_200_OK
                 (filter (fun sh => QuizShare.quiz sh =? Quiz.id quiz)
                         (shares st))
  end.

End QuizShareLists.

(** ** utils.py: the JSON part of an answer of the vision model *)

(** [s.find(c)] and [s.rfind(c)] for a character: the first and the last
    position, or [-1]. *)
Fixpoint find_from (c : ascii) (s : string) (i : nat) : option nat :=
  match s with
  | EmptyString => None
  | String a s' => if Ascii.eqb a c then Some i else find_from c s' (S i)
  end.

Fixpoint rfind_from (c : ascii) (s : string) (i : nat) : option nat :=
  match s with
  | EmptyString => None
  | String a s' =>
      match rfind_from c s' (S i) with
      | Some j => Some j
      | None => if Ascii.eqb a c then Some i else None
      end
  end.

Definition find (c : ascii) (s : string) : Z :=
  match find_from c s 0 with Some i => Z.of_nat i | None => (-1)%Z end.
Definition rfind (c : ascii) (s : string) : Z :=
  match rfind_from c s 0 with Some i => Z.of_nat i | None => (-1)%Z end.

(** [s[a:b]] for indices that are not negative. *)
Definition slice (s : string) (a b : Z) : string :=
  substring (Z.to_nat a) (Z.to_nat (b - a)) s.

(** The lines of [process_image_with_openai] that cut the JSON text out of
    the (stripped) content of the answer: the text handed to [json.loads], or
    [None] when the function gives up with "No valid JSON found in the
    response". *)
Definition json_content (content : string) : option string :=
  let json_start := find "{"%char content in
  let json_end := (rfind "}"%char content + 1)%Z in
  if negb (json_start =? -1)%Z && negb (json_end =? -1)%Z
  then Some (slice content json_start json_end)
  else None.

(** ** More to run on *)

(** The session of bob in [example_store]. *)
Definition bobs_session : QuizSession.t :=
  QuizSession.mk 40 10 2 0%Z None None.

(** A call of one of the two actions of a session, with [timezone.now()],
    the user and the key of the route. *)
Inductive SessionCall :=
| CallSubmitAnswer (c : SubmitAnswer)
| CallComplete (now : datetime) (user : RequestUser) (pk : uuid).

Definition session_call (c : SessionCall) : Store -> Response * Store :=
  match c with
  | CallSubmitAnswer c => submit_answer c
  | CallComplete now user pk => QuizSessionViewSet.complete now user pk
  end.

Fixpoint session_calls (calls : list SessionCall) (st : Store)
  : list Response * Store :=
  match calls with
  | [] => ([], st)
  | c :: calls' =>
      let (r, st1) := session_call c st in
      let (rs, st') := session_calls calls' st1 in
      (r :: rs, st')
  end.

(** Bob completes his session after his two answers; then he and alice, who
    created the quiz, go on calling. *)
Definition example_completed : Store :=
  snd (QuizSessionViewSet.complete 3000000%Z (Authenticated 2) 40
                                   example_answered).

Definition bobs_completed_session : QuizSession.t :=
  QuizSession.mk 40 10 2 0%Z (Some 3000000%Z) (Some 50%Q).

Definition example_late_calls : list SessionCall :=
  [CallSubmitAnswer
     (mkSubmitAnswer 4000000%Z (Authenticated 2) 40 (Some 21) (Some 32));
   CallComplete 5000000%Z (Authenticated 1) 40;
   CallSubmitAnswer
     (mkSubmitAnswer 6000000%Z (Authenticated 1) 40 (Some 20) (Some 30))].

(** What is kept while a completed session [s] sits in the table: the
    constraints of the tables of sessions and answers, the row of [s], and
    the answers [s] had in [st0]. *)
Definition frozen (s : QuizSession.t) (st0 st : Store) : Prop :=
  NoDup (map QuizSession.id (sessions st)) /\
  answers_wf st /\
  In s (sessions st) /\
  forall question,
    answers_for st (QuizSession.id s) question
    = answers_for st0 (QuizSession.id s) question.

(** *** The rows a build is expected to write *)

(** [enumerate(xs)], counting from [i]. *)
Fixpoint enumerate_from {A} (i : nat) (xs : list A) : list (nat * A) :=
  match xs with
  | [] => []
  | x :: xs' => (i, x) :: enumerate_from (S i) xs'
  end.

(** The text under a key that is present. *)
Definition text_of (o : option string) : string :=
  get_default o EmptyString.

(** The columns of a question and of a choice, the primary key apart. *)
Definition question_columns (q : Question.t) : uuid * string * nat :=
  (Question.quiz q, Question.text q, Question.order q).
Definition choice_columns (c : Choice.t) : uuid * string * bool * nat :=
  (Choice.question c, Choice.text c, Choice.is_correct c, Choice.order c).

(** The questions of a quiz for the records [qs], in order, numbered from
    [i]. *)
Definition expected_questions (quiz_id : uuid) (i : nat)
    (qs : list Parsed.q_data) : list (uuid * string * nat) :=
  map (fun iq => (quiz_id, text_of (Parsed.question_text (snd iq)), fst iq))
      (enumerate_from i qs).

(** The choices of a question for the choice records [cs], numbered from
    [j]; and the choices of the question rows [rows] for their records. *)
Definition expected_choices_of (question_id : uuid) (j : nat)
    (cs : list Parsed.choice_data) : list (uuid * string * bool * nat) :=
  map (fun jc => (question_id, text_of (Parsed.choice_text (snd jc)),
                  get_default (Parsed.is_correct (snd jc)) false, fst jc))
      (enumerate_from j cs).
Definition expected_choices (rows : list Question.t)
    (qs : list Parsed.q_data) : list (uuid * string * bool * nat) :=
  flat_map
    (fun rq => expected_choices_of (Question.id (fst rq)) 0
                 (get_default (Parsed.choices (snd rq)) []))
    (combine rows qs).

(** An extraction with every text, and a processed upload of alice that
    holds it. *)
Definition well_formed : Parsed.parsed_data :=
  Parsed.mk
    (Some [Parsed.mk_question
             (Some "Q1")
             (Some [Parsed.mk_choice (Some "A") (Some true);
                    Parsed.mk_choice (Some "B") None]);
           Parsed.mk_question (Some "Q2") None])
    None.

(** Bob has two open sessions on the public quiz of alice: one started at
    time 0, of key 41, and one started 650 seconds later, of key 42. *)
Definition store_two_sessions : Store :=
  set_sessions
    (sessions example_store
     ++ [QuizSession.mk 41 11 2 0%Z None None;
         QuizSession.mk 42 11 2 650000000%Z None None])
    example_store.

(** A public quiz of alice with 25 questions, each with one choice, the right
    one; bob has answered the first 7 of them in his session, of key 60. *)
Definition store_of_25_questions : Store :=
  mkStore [alice; bob; carol]
          [Quiz.mk 12 "Elements" 1 10%N true (Some 79) false]
          (map (fun i => Question.mk (200 + i) 12 "Q" i) (seq 0 25))
          (map (fun i => Choice.mk (300 + i) (200 + i) "C" true 0) (seq 0 25))
          []
          [QuizSession.mk 60 12 2 0%Z None None]
          (map (fun i => UserAnswer.mk (400 + i) 60 (200 + i) (300 + i)
                                       (Z.of_nat i))
               (seq 0 7))
          []
          500.

(** Alice has shared her private quiz with bob and with carol. *)
Definition example_shared_twice : Store :=
  snd (share_all
         [mkShare 1000000%Z (Authenticated 1) 10 (Some "bob") (Some "edit");
          mkShare 2000000%Z (Authenticated 1) 10 (Some "carol") (Some "view")]
         example_store).

(** The character [c] is in [s], first (last) at position [i]. *)
Definition first_at (c : ascii) (s : string) (i : nat) : Prop :=
  String.get i s = Some c /\ forall m, m < i -> String.get m s <> Some c.
Definition last_at (c : ascii) (s : string) (i : nat) : Prop :=
  String.get i s = Some c /\ forall m, i < m -> String.get m s <> Some c.

(** *** The session engine as a whole *)

(** A call of the engine: starting a session, submitting an answer,
    completing. *)
Inductive EngineCall :=
| Start (now : datetime) (user : RequestUser) (quiz : uuid)
| Submit (c : SubmitAnswer)
| Complete (now : datetime) (user : RequestUser) (pk : uuid).

Definition engine_call (c : EngineCall) (st : Store) : Store :=
  match c with
  | Start now user quiz => snd (QuizSessionViewSet_create now user quiz st)
  | Submit c => snd (submit_answer c st)
  | Complete now user pk => snd (QuizSessionViewSet.complete now user pk st)
  end.

Definition engine_calls (calls : list EngineCall) (st : Store) : Store :=
  fold_left (fun st c => engine_call c st) calls st.

(** Every answer is of a session in the table, to a question of the quiz of
    that session, with a choice of that question. *)
Definition answers_valid (st : Store) : Prop :=
  forall a, In a (answers st) ->
    exists s q c,
      In s (sessions st) /\ QuizSession.id s = UserAnswer.session a /\
      In q (questions st) /\ Question.id q = UserAnswer.question a /\
      Question.quiz q = QuizSession.quiz s /\
      In c (choices st) /\ Choice.id c = UserAnswer.selected_choice a /\
      Choice.question c = Question.id q.

(** Every stored score is a percentage. *)
Definition scores_in_range (st : Store) : Prop :=
  forall s v, In s (sessions st) -> QuizSession.score s = Some v ->
              (0 <= v)%Q /\ (v <= 100)%Q.

(** What the engine keeps: the primary keys of sessions and questions, the
    constraints of the table of answers, the validity of the answers, and the
    range of the scores. *)
Definition engine_inv (st : Store) : Prop :=
  NoDup (map QuizSession.id (sessions st)) /\
  (forall s, In s (sessions st) -> QuizSession.id s < next_uuid st) /\
  NoDup (map Question.id (questions st)) /\
  answers_wf st /\
  answers_valid st /\
  scores_in_range st.

(** Carol starts a session on the quiz of alice and answers; bob answers,
    changes his answer and completes; carol lets her time run out. *)
Definition example_run : list EngineCall :=
  [Start 500000%Z (Authenticated 3) 10;
   Submit (mkSubmitAnswer 1000000%Z (Authenticated 3) 100 (Some 20) (Some 31));
   Submit (mkSubmitAnswer 1000000%Z (Authenticated 2) 40 (Some 20) (Some 30));
   Submit (mkSubmitAnswer 2000000%Z (Authenticated 2) 40 (Some 20) (Some 31));
   Complete 3000000%Z (Authenticated 2) 40;
   Submit (mkSubmitAnswer 700000000%Z (Authenticated 3) 100 (Some 21)
                          (Some 32))].

(** * Properties *)

Arguments keyed : simpl never.
Arguments save_row : simpl never.
Arguments insert_row : simpl never.

(** ** Lists and rows *)

Lemma count_if_filter {A} (p : A -> bool) (l : list A) :
  objects_count p l = count_if p l.
Proof.
  unfold objects_count.
  induction l as [|x l IH]; simpl; [reflexivity|].
  destruct (p x); simpl; rewrite IH; reflexivity.
Qed.

Lemma objects_get_One_filter {A} (p : A -> bool) (rows : list A) (a : A) :
  objects_get p rows = One a -> filter p rows = [a].
Proof.
  unfold objects_get.
  destruct (filter p rows) as [|x [|y l]]; intro H; inversion H; reflexivity.
Qed.

Lemma objects_get_One_In {A} (p : A -> bool) (rows : list A) (a : A) :
  objects_get p rows = One a -> In a rows /\ p a = true.
Proof.
  intro H. apply objects_get_One_filter in H.
  apply filter_In. rewrite H. left; reflexivity.
Qed.

Lemma objects_get_DoesNotExist {A} (p : A -> bool) (rows : list A) :
  objects_get p rows = DoesNotExist <-> filter p rows = [].
Proof.
  unfold objects_get.
  destruct (filter p rows) as [|x [|y l]]; split; intro H;
    try reflexivity; discriminate H.
Qed.

Section Rows.
Context {A : Type} (pk : A -> nat).

(** With unique primary keys, a row is known by its key. *)
Lemma pk_unique (rows : list A) (r r' : A) :
  NoDup (map pk rows) -> In r rows -> In r' rows -> pk r = pk r' -> r = r'.
Proof.
  induction rows as [|x rows IH]; simpl; intros ND Hr Hr' E; [contradiction|].
  inversion ND as [|? ? Hx ND']; subst.
  destruct Hr as [->|Hr], Hr' as [->|Hr'].
  - reflexivity.
  - exfalso. apply Hx. rewrite E. apply in_map, Hr'.
  - exfalso. apply Hx. rewrite <- E. apply in_map, Hr.
  - apply IH; assumption.
Qed.

Lemma save_row_present (row : A) (rows : list A) :
  (exists r, In r rows /\ pk r = pk row) ->
  save_row pk row rows
  = map (fun r => if pk r =? pk row then row else r) rows.
Proof.
  intros [r [Hin E]]. unfold save_row.
  replace (existsb (fun r0 => pk r0 =? pk row) rows) with true; [reflexivity|].
  symmetry. apply existsb_exists. exists r. split; [exact Hin|].
  apply Nat.eqb_eq, E.
Qed.

(** Saving over an existing row keeps the primary keys. *)
Lemma save_row_pks (row : A) (rows : list A) :
  (exists r, In r rows /\ pk r = pk row) ->
  map pk (save_row pk row rows) = map pk rows.
Proof.
  intro H. rewrite (save_row_present _ _ H). rewrite map_map.
  apply map_ext. intro r.
  destruct (pk r =? pk row) eqn:E; [|reflexivity].
  apply Nat.eqb_eq in E. symmetry; exact E.
Qed.

(** After a save, the rows with the key of the saved row are that row. *)
Lemma save_row_stored (row : A) (rows : list A) :
  (exists r, In r rows /\ pk r = pk row) ->
  In row (save_row pk row rows) /\
  forall r, In r (save_row pk row rows) -> pk r = pk row -> r = row.
Proof.
  intro H. rewrite (save_row_present _ _ H).
  destruct H as [r0 [Hin E]]. split.
  - apply in_map_iff. exists r0. split; [|exact Hin].
    rewrite E, Nat.eqb_refl. reflexivity.
  - intros r Hr Er. apply in_map_iff in Hr. destruct Hr as [x [Hx _]].
    destruct (pk x =? pk row) eqn:Ex; [symmetry; exact Hx|].
    subst x. apply Nat.eqb_neq in Ex. contradiction.
Qed.

(** A filter that cannot tell the old row from the new one commutes with
    the save. *)
Lemma filter_save_row (p : A -> bool) (old new : A) (rows : list A) :
  NoDup (map pk rows) -> In old rows -> pk new = pk old -> p new = p old ->
  filter p (save_row pk new rows)
  = map (fun r => if pk r =? pk new then new else r) (filter p rows).
Proof.
  intros ND Hold Epk Ep.
  rewrite save_row_present by (exists old; split; [exact Hold|congruence]).
  assert (Hsame : forall r, In r rows -> pk r = pk new -> r = old).
  { intros r Hr Er. apply (pk_unique rows); try assumption. congruence. }
  clear ND Hold. induction rows as [|x rows IH]; simpl; [reflexivity|].
  assert (Hp : p (if pk x =? pk new then new else x) = p x).
  { destruct (pk x =? pk new) eqn:Ex; [|reflexivity].
    apply Nat.eqb_eq in Ex. rewrite (Hsame x (or_introl eq_refl) Ex).
    exact Ep. }
  rewrite Hp. destruct (p x); simpl; rewrite IH;
    try reflexivity; intros r Hr; apply Hsame; right; exact Hr.
Qed.

(** The rows the filter keeps are untouched when it rejects the saved
    row. *)
Lemma filter_save_row_other (p : A -> bool) (old new : A) (rows : list A) :
  NoDup (map pk rows) -> In old rows -> pk new = pk old ->
  p new = false -> p old = false ->
  filter p (save_row pk new rows) = filter p rows.
Proof.
  intros ND Hold Epk Hnew Hold'.
  rewrite (filter_save_row p old new rows) by congruence.
  rewrite <- (map_id (filter p rows)) at 2. apply map_ext_in.
  intros r Hr. apply filter_In in Hr. destruct Hr as [Hr Hpr].
  destruct (pk r =? pk new) eqn:Er; [|reflexivity].
  apply Nat.eqb_eq in Er.
  assert (r = old) by (apply (pk_unique rows); try assumption; congruence).
  subst r. congruence.
Qed.

(** The one row the filter keeps is replaced by the saved row. *)
Lemma filter_save_row_same (p : A -> bool) (old new : A) (rows : list A) :
  NoDup (map pk rows) -> filter p rows = [old] -> pk new = pk old ->
  p new = true ->
  filter p (save_row pk new rows) = [new].
Proof.
  intros ND Hf Epk Hnew.
  assert (Hin : In old rows /\ p old = true).
  { apply filter_In. rewrite Hf. left; reflexivity. }
  destruct Hin as [Hin Hpo].
  rewrite (filter_save_row p old new rows) by congruence.
  rewrite Hf. simpl. rewrite <- Epk, Nat.eqb_refl. reflexivity.
Qed.

End Rows.

(** ** Python floats *)

Section Binary64.
Local Open Scope Q_scope.

(** *** Rounding to an integer *)

Lemma round_half_even_nonneg (a b : Z) :
  (0 <= a)%Z -> (0 < b)%Z -> (0 <= round_half_even a b)%Z.
Proof.
  intros Ha Hb. unfold round_half_even.
  assert (0 <= a / b)%Z by (apply Z.div_pos; assumption).
  destruct (2 * (a mod b) ?= b)%Z; [destruct (Z.even (a / b)) | | ]; lia.
Qed.

Lemma round_half_even_le (a b C : Z) :
  (0 < b)%Z -> (a <= C * b)%Z -> (round_half_even a b <= C)%Z.
Proof.
  intros Hb Ha. unfold round_half_even.
  pose proof (Z.div_mod a b ltac:(lia)) as E.
  pose proof (Z.mod_pos_bound a b Hb) as R.
  destruct (Z.compare_spec (2 * (a mod b)) b) as [H|H|H];
    [destruct (Z.even (a / b)) | | ]; nia.
Qed.

(** The rounded quotient is within one half of the quotient. *)
Lemma round_half_even_error (a b : Z) :
  (0 < b)%Z ->
  (2 * a - b <= 2 * round_half_even a b * b <= 2 * a + b)%Z.
Proof.
  intros Hb. unfold round_half_even.
  pose proof (Z.div_mod a b ltac:(lia)) as E.
  pose proof (Z.mod_pos_bound a b Hb) as R.
  destruct (Z.compare_spec (2 * (a mod b)) b) as [H|H|H];
    [destruct (Z.even (a / b)) | | ]; nia.
Qed.

(** *** The binary exponent of a rational *)

Lemma two_power_pos (e : Z) : 0 < 2 ^ e.
Proof. apply Qpower_0_lt. reflexivity. Qed.

Lemma two_power_inject (e : Z) : (0 <= e)%Z -> inject_Z (2 ^ e) == 2 ^ e.
Proof. intro H. rewrite Zpower_Qpower by assumption. reflexivity. Qed.

Lemma two_power_succ (e : Z) : 2 ^ (e + 1) == 2 * 2 ^ e.
Proof.
  rewrite Qpower_plus by discriminate. rewrite Qmult_comm. reflexivity.
Qed.

Lemma Qdiv_lt_cross (a b c d : Q) :
  0 < b -> 0 < d -> a * d < c * b -> a / b < c / d.
Proof.
  intros Hb Hd H.
  apply Qlt_shift_div_r; [assumption|].
  assert (E : c / d * b == (c * b) / d) by (field; lra).
  rewrite E. apply Qlt_shift_div_l; assumption.
Qed.

(** The difference of the logarithms of the numerator and of the denominator
    is the exponent, or one more. *)
Lemma quotient_log2 (x : Q) :
  0 < x ->
  let e := (Z.log2 (Qnum x) - Z.log2 (Zpos (Qden x)))%Z in
  2 ^ (e - 1) < x /\ x < 2 ^ (e + 1).
Proof.
  intros Hx e. destruct x as [n d].
  assert (Hn : (0 < n)%Z).
  { unfold Qlt in Hx. simpl in Hx. lia. }
  cbn [Qnum Qden] in e.
  pose proof (Z.log2_spec n Hn) as [Ln Un].
  pose proof (Z.log2_spec (Zpos d) eq_refl) as [Ld Ud].
  pose proof (Z.log2_nonneg n) as Pn.
  pose proof (Z.log2_nonneg (Zpos d)) as Pd.
  set (ln := Z.log2 n) in *. set (ld := Z.log2 (Zpos d)) in *.
  rewrite <- Z.add_1_r in Un, Ud.
  rewrite Zle_Qle in Ln, Ld. rewrite Zlt_Qlt in Un, Ud.
  rewrite two_power_inject in Ln, Ld, Un, Ud by lia.
  pose proof (two_power_pos ln) as Pln. pose proof (two_power_pos ld) as Pld.
  pose proof (two_power_succ ln) as Sn. pose proof (two_power_succ ld) as Sd.
  assert (HD : 0 < inject_Z (Zpos d)) by reflexivity.
  rewrite (Qmake_Qdiv n d).
  split.
  - replace (e - 1)%Z with (ln - (ld + 1))%Z by (unfold e; lia).
    rewrite Qpower_minus by discriminate.
    apply Qdiv_lt_cross; [rewrite Sd; lra | assumption |].
    rewrite Sd. nra.
  - replace (e + 1)%Z with ((ln + 1) - ld)%Z by (unfold e; lia).
    rewrite Qpower_minus by discriminate.
    apply Qdiv_lt_cross; [assumption | assumption |].
    rewrite Sn in *. nra.
Qed.

Lemma floor_log2_spec (x : Q) :
  0 < x -> 2 ^ floor_log2 x <= x /\ x < 2 ^ (floor_log2 x + 1).
Proof.
  intro Hx. destruct (quotient_log2 x Hx) as [L U].
  unfold floor_log2.
  set (e := (Z.log2 (Qnum x) - Z.log2 (Zpos (Qden x)))%Z) in *.
  destruct (Qle_bool (2 ^ e) x) eqn:T.
  - apply Qle_bool_iff in T. split; assumption.
  - split; [apply Qlt_le_weak; assumption|].
    replace (e - 1 + 1)%Z with e by lia.
    apply Qnot_le_lt. intro H. apply Qle_bool_iff in H. congruence.
Qed.

(** *** The nearest binary64 number *)

Lemma round_to_integer_nonneg (y : Q) : 0 <= y -> (0 <= round_to_integer y)%Z.
Proof.
  intro H. apply round_half_even_nonneg; [|reflexivity].
  unfold Qle in H. simpl in H. lia.
Qed.

Lemma round_to_integer_le (y : Q) (C : Z) :
  y <= inject_Z C -> (round_to_integer y <= C)%Z.
Proof.
  intro H. apply round_half_even_le; [reflexivity|].
  unfold Qle in H. simpl in H. lia.
Qed.

Lemma round_to_integer_error (y : Q) :
  y - (1 # 2) <= inject_Z (round_to_integer y) /\
  inject_Z (round_to_integer y) <= y + (1 # 2).
Proof.
  unfold round_to_integer.
  pose proof (round_half_even_error (Qnum y) (Zpos (Qden y)) eq_refl) as [L U].
  set (m := round_half_even _ _) in *.
  destruct y as [a b]. cbn [Qnum Qden] in *.
  unfold Qle, Qminus, Qplus, Qopp, inject_Z. cbn [Qnum Qden].
  split; lia.
Qed.

Lemma nearest_eq (x : Q) :
  nearest x ==
  inject_Z (round_to_integer (x * 2 ^ (- ulp_exponent x))) * 2 ^ ulp_exponent x.
Proof. unfold nearest. apply Qred_correct. Qed.

Lemma two_power_opp (e : Z) : 2 ^ (- e) * 2 ^ e == 1.
Proof.
  rewrite <- Qpower_plus by discriminate.
  replace (- e + e)%Z with 0%Z by lia. reflexivity.
Qed.

Lemma nearest_nonneg (x : Q) : 0 <= x -> 0 <= nearest x.
Proof.
  intro Hx. rewrite nearest_eq.
  pose proof (two_power_pos (ulp_exponent x)) as P.
  pose proof (two_power_pos (- ulp_exponent x)) as P'.
  assert (0 <= inject_Z (round_to_integer (x * 2 ^ (- ulp_exponent x)))).
  { change 0 with (inject_Z 0). rewrite <- Zle_Qle.
    apply round_to_integer_nonneg. nra. }
  nra.
Qed.

(** Rounding does not pass an integer below [2 ^ 53]: such an integer is a
    binary64 number. *)
Lemma nearest_le_integer (x : Q) (c : Z) :
  0 < x -> x <= inject_Z c -> (c < 2 ^ 53)%Z -> nearest x <= inject_Z c.
Proof.
  intros Hx Hc Hmax. rewrite nearest_eq.
  destruct (floor_log2_spec x Hx) as [L _].
  assert (Hq : (ulp_exponent x <= 0)%Z).
  { unfold ulp_exponent.
    assert (floor_log2 x < 53)%Z; [|lia].
    apply (Qpower_lt_compat_l_inv 2); [|reflexivity].
    rewrite <- (two_power_inject 53) by lia.
    rewrite Zlt_Qlt in Hmax. lra. }
  set (q := ulp_exponent x) in *.
  pose proof (two_power_pos q) as P. pose proof (two_power_pos (- q)) as P'.
  pose proof (two_power_opp q) as I.
  assert (H : (round_to_integer (x * 2 ^ (- q)) <= c * 2 ^ (- q))%Z).
  { apply round_to_integer_le.
    rewrite inject_Z_mult, two_power_inject by lia. nra. }
  rewrite Zle_Qle, inject_Z_mult, two_power_inject in H by lia.
  set (m := inject_Z (round_to_integer _)) in *. set (C := inject_Z c) in *.
  set (u := 2 ^ q) in *. set (v := 2 ^ (- q)) in *.
  assert (m * u <= C * v * u) by nra.
  assert (C * v * u == C) by (rewrite <- Qmult_assoc, I; ring).
  lra.
Qed.

(** In the normal range the relative error of rounding is at most
    [2 ^ (-53)]. *)
Lemma nearest_error (x : Q) :
  0 < x -> 2 ^ (-1022) <= x ->
  x * (1 - 2 ^ (-53)) <= nearest x /\ nearest x <= x * (1 + 2 ^ (-53)).
Proof.
  intros Hx Hmin. rewrite nearest_eq.
  destruct (floor_log2_spec x Hx) as [L U].
  assert (Hq : ulp_exponent x = (floor_log2 x - 52)%Z).
  { unfold ulp_exponent.
    assert (-1022 < floor_log2 x + 1)%Z; [|lia].
    apply (Qpower_lt_compat_l_inv 2); [|reflexivity]. lra. }
  rewrite Hq. set (e := floor_log2 x) in *.
  pose proof (round_to_integer_error (x * 2 ^ (- (e - 52)))) as [Lm Um].
  set (m := inject_Z (round_to_integer _)) in *.
  pose proof (two_power_pos (e - 52)) as P.
  pose proof (two_power_opp (e - 52)) as I.
  assert (E : 2 ^ (e - 52) * (1 # 2) == 2 ^ e * 2 ^ (-53)).
  { rewrite <- Qpower_plus by discriminate.
    replace (e + -53)%Z with ((e - 52) + -1)%Z by lia.
    rewrite Qpower_plus by discriminate. reflexivity. }
  assert (P53 : 0 < 2 ^ (-53)) by apply two_power_pos.
  set (u := 2 ^ (e - 52)) in *. set (v := 2 ^ (- (e - 52))) in *.
  set (h := 2 ^ (-53)) in *. set (p := 2 ^ e) in *.
  assert (X : x * v * u == x) by (rewrite <- Qmult_assoc, I; ring).
  assert (Lu : (x * v - (1 # 2)) * u <= m * u) by nra.
  assert (Uu : m * u <= (x * v + (1 # 2)) * u) by nra.
  assert (p * h <= x * h) by nra.
  split.
  - assert ((x * v - (1 # 2)) * u == x - u * (1 # 2)) by (rewrite <- X at 2; ring).
    lra.
  - assert ((x * v + (1 # 2)) * u == x + u * (1 # 2)) by (rewrite <- X at 2; ring).
    lra.
Qed.

Lemma binary64_nonneg (x : Q) : 0 <= x -> 0 <= binary64 x.
Proof.
  intro Hx. unfold binary64. destruct (Qnum x) eqn:E.
  - apply Qle_refl.
  - apply nearest_nonneg. assumption.
  - exfalso. unfold Qle in Hx. rewrite E in Hx. simpl in Hx. lia.
Qed.

Lemma Qnum_pos (x : Q) (p : positive) : Qnum x = Zpos p -> 0 < x.
Proof. intro E. unfold Qlt. rewrite E. simpl. lia. Qed.

Lemma Qnum_zero (x : Q) : Qnum x = 0%Z -> x == 0.
Proof. intro E. unfold Qeq. rewrite E. reflexivity. Qed.

Lemma binary64_le_integer (x : Q) (c : Z) :
  0 <= x -> x <= inject_Z c -> (c < 2 ^ 53)%Z -> binary64 x <= inject_Z c.
Proof.
  intros Hx Hc Hmax. unfold binary64. destruct (Qnum x) eqn:E.
  - lra.
  - apply nearest_le_integer; [apply (Qnum_pos _ _ E) | assumption | assumption].
  - exfalso. unfold Qle in Hx. rewrite E in Hx. simpl in Hx. lia.
Qed.

Lemma binary64_error (x : Q) :
  0 <= x -> (x == 0 \/ 2 ^ (-1022) <= x) ->
  x * (1 - 2 ^ (-53)) <= binary64 x /\ binary64 x <= x * (1 + 2 ^ (-53)).
Proof.
  intros Hx Hn. unfold binary64. destruct (Qnum x) eqn:E.
  - rewrite (Qnum_zero _ E). split; lra.
  - pose proof (Qnum_pos _ _ E) as P. apply nearest_error; [assumption|].
    destruct Hn as [Hn|Hn]; [lra | assumption].
  - exfalso. unfold Qle in Hx. rewrite E in Hx. simpl in Hx. lia.
Qed.

(** *** The percentage in binary64 *)

Lemma quotient_bounds (K N : nat) :
  (0 < N)%nat ->
  0 <= inject_Z (Z.of_nat K) / inject_Z (Z.of_nat N) /\
  ((K <= N)%nat -> inject_Z (Z.of_nat K) / inject_Z (Z.of_nat N) <= 1).
Proof.
  intro HN.
  assert (PN : 0 < inject_Z (Z.of_nat N)).
  { change 0 with (inject_Z 0). rewrite <- Zlt_Qlt. lia. }
  assert (PK : 0 <= inject_Z (Z.of_nat K)).
  { change 0 with (inject_Z 0). rewrite <- Zle_Qle. lia. }
  split.
  - apply Qle_shift_div_l; [assumption|]. lra.
  - intro H. apply Qle_shift_div_r; [assumption|].
    assert (inject_Z (Z.of_nat K) <= inject_Z (Z.of_nat N))
      by (rewrite <- Zle_Qle; lia).
    lra.
Qed.

(** With at most as many right answers as questions the score is between 0
    and 100, rounding included. *)
Lemma float_percentage_bounds (K N : nat) :
  (K <= N)%nat ->
  0 <= float_percentage K N /\ float_percentage K N <= 100.
Proof.
  intro H. destruct N as [|n].
  - simpl. split; [apply Qle_refl | discriminate].
  - change (float_percentage K (S n))
      with (float_mul (int_truediv (Z.of_nat K) (Z.of_nat (S n))) 100).
    unfold float_mul, int_truediv.
    destruct (quotient_bounds K (S n) ltac:(lia)) as [L U].
    specialize (U H).
    set (a := inject_Z (Z.of_nat K) / inject_Z (Z.of_nat (S n))) in *.
    pose proof (binary64_nonneg a L) as L'.
    pose proof (binary64_le_integer a 1 L U eq_refl) as U'.
    change (inject_Z 1) with 1 in U'.
    split.
    + apply binary64_nonneg. lra.
    + apply (binary64_le_integer _ 100); [lra | | reflexivity].
      change (inject_Z 100) with 100. lra.
Qed.

(** The two roundings move the score by at most the relative error
    [2 ^ (-51)]. *)
Lemma float_percentage_error (K N : nat) :
  (Z.of_nat N <= 2 ^ 1022)%Z ->
  Qabs (float_percentage K N - percentage K N) <= percentage K N * 2 ^ (-51).
Proof.
  intro HN. destruct N as [|n].
  - simpl. discriminate.
  - change (float_percentage K (S n))
      with (float_mul (int_truediv (Z.of_nat K) (Z.of_nat (S n))) 100).
    assert (Ep : percentage K (S n)
                 == (inject_Z (Z.of_nat K) / inject_Z (Z.of_nat (S n))) * 100).
    { change (percentage K (S n))
        with (100 * inject_Z (Z.of_nat K) / inject_Z (Z.of_nat (S n))).
      unfold Qdiv. ring. }
    rewrite Ep. clear Ep.
    unfold float_mul, int_truediv.
    destruct (quotient_bounds K (S n) ltac:(lia)) as [L _].
    assert (Hn : inject_Z (Z.of_nat K) / inject_Z (Z.of_nat (S n)) == 0 \/
                 2 ^ (-1022) <= inject_Z (Z.of_nat K) / inject_Z (Z.of_nat (S n))).
    { destruct K as [|k].
      - left. reflexivity.
      - right.
        assert (PN : 0 < inject_Z (Z.of_nat (S n))).
        { change 0 with (inject_Z 0). rewrite <- Zlt_Qlt. lia. }
        apply Qle_shift_div_l; [assumption|].
        assert (1 <= inject_Z (Z.of_nat (S k))).
        { change 1 with (inject_Z 1). rewrite <- Zle_Qle. lia. }
        assert (inject_Z (Z.of_nat (S n)) <= 2 ^ 1022).
        { rewrite <- two_power_inject by lia. rewrite <- Zle_Qle. assumption. }
        pose proof (two_power_opp 1022) as I.
        change (- (1022))%Z with (-1022)%Z in I.
        pose proof (two_power_pos (-1022)).
        set (u := 2 ^ (-1022)) in *. set (v := 2 ^ 1022) in *.
        assert (u * inject_Z (Z.of_nat (S n)) <= u * v) by nra.
        lra. }
    set (a := inject_Z (Z.of_nat K) / inject_Z (Z.of_nat (S n))) in *.
    destruct (binary64_error a L Hn) as [La Ua].
    assert (H53 : 2 ^ (-53) <= 1 # 2) by discriminate.
    assert (P53 : 0 < 2 ^ (-53)) by apply two_power_pos.
    assert (E51 : 2 ^ (-51) == 4 * 2 ^ (-53)) by reflexivity.
    pose proof (binary64_nonneg a L) as Pa.
    assert (Hb : binary64 a * 100 == 0 \/ 2 ^ (-1022) <= binary64 a * 100).
    { destruct Hn as [Hn|Hn].
      - left. set (h := 2 ^ (-53)) in *. nra.
      - right. set (h := 2 ^ (-53)) in *. nra. }
    destruct (binary64_error (binary64 a * 100) ltac:(lra) Hb) as [Lb Ub].
    rewrite E51. set (h := 2 ^ (-53)) in *.
    set (a' := binary64 a) in *. set (s := binary64 (a' * 100)) in *.
    apply Qabs_Qle_condition. split; nra.
Qed.

End Binary64.

(** ** Scoring and completion *)

Lemma calculate_quiz_score_float (st : Store) (session : QuizSession.t) :
  Utils.calculate_quiz_score st session
  = float_percentage (number_correct st session)
                     (number_of_questions st session).
Proof.
  unfold Utils.calculate_quiz_score, number_correct, number_of_questions.
  rewrite !count_if_filter.
  change (Utils.selected_choice__is_correct st) with (answer_is_correct st).
  set (N := count_if _ (questions st)).
  set (K := count_if _ (answers st)).
  destruct N as [|n]; reflexivity.
Qed.

Lemma get_object_session (st : Store) (user : RequestUser) (pk : uuid)
    (session : QuizSession.t) :
  QuizSessionViewSet.get_object st user pk = inr session ->
  In session (sessions st) /\ QuizSession.id session = pk /\
  exists quiz, session_quiz st session = One quiz.
Proof.
  unfold QuizSessionViewSet.get_object.
  destruct user as [|u]; [discriminate|].
  destruct (objects_get _ (QuizSessionViewSet.get_queryset st u))
    as [s| |] eqn:G; try discriminate.
  destruct (session_quiz st s) as [quiz| |] eqn:Q; try discriminate.
  destruct (QuizSessionViewSet.IsQuizCreatorOrParticipant u s quiz);
    [|discriminate].
  intro H; inversion H; subst s; clear H.
  apply objects_get_One_In in G. destruct G as [Hin Hpk].
  unfold QuizSessionViewSet.get_queryset in Hin.
  apply filter_In in Hin. destruct Hin as [Hin _].
  apply Nat.eqb_eq in Hpk.
  repeat split; try assumption. exists quiz; exact Q.
Qed.

(** What [complete_quiz_session] does to a session that is not completed. *)
Lemma complete_quiz_session_open (now : datetime) (session : QuizSession.t)
    (st : Store) :
  In session (sessions st) ->
  QuizSession.completed_at session = None ->
  exists session',
    Utils.complete_quiz_session now session st
    = (session',
       set_sessions (save_row QuizSession.id session' (sessions st)) st) /\
    QuizSession.id session' = QuizSession.id session /\
    QuizSession.quiz session' = QuizSession.quiz session /\
    QuizSession.user session' = QuizSession.user session /\
    QuizSession.completed_at session' = Some now /\
    QuizSession.score session' = Some (Utils.calculate_quiz_score st session) /\
    stored_session
      (set_sessions (save_row QuizSession.id session' (sessions st)) st)
      (QuizSession.id session) session'.
Proof.
  intros Hin Hc. unfold Utils.complete_quiz_session. rewrite Hc.
  eexists. split; [reflexivity|]. simpl.
  repeat split; try reflexivity.
  - apply (save_row_stored QuizSession.id). exists session. split; auto.
  - intros s' Hs' E.
    apply (save_row_stored QuizSession.id) with (rows := sessions st); auto.
    exists session. split; auto.
Qed.

(** The scores of four attempts, as Python prints them: 50.0,
    33.33333333333333, 66.66666666666666 and 28.000000000000004. *)
Example float_percentage_values :
  float_percentage 1 2 = 50%Q /\
  float_percentage 1 3 = (2345624805922133 # 70368744177664)%Q /\
  float_percentage 2 3 = (2345624805922133 # 35184372088832)%Q /\
  float_percentage 7 25 = (7881299347898369 # 281474976710656)%Q.
Proof. repeat split; vm_compute; reflexivity. Qed.

(** On every K <= N <= 40 the score is the one of the IEEE 754 model of the
    Standard Library. *)
Example float_percentage_is_IEEE :
  forallb (fun N =>
    forallb (fun K =>
      match SF2Q (SF_percentage (Z.of_nat K) (Z.of_nat N)) with
      | Some v => Qeq_bool v (float_percentage K N)
      | None => false
      end) (seq 0 (S N))) (seq 1 40) = true.
Proof. vm_compute. reflexivity. Qed.

(** C1.  Completing a session that is not completed answers 200 and leaves,
    as the stored row of the session, a row with the completion time [now]
    and a score that is (K / N) × 100 evaluated in binary64 arithmetic, the
    quotient rounded and then the product, for K the number of recorded
    answers of the session whose selected choice is correct and N the number
    of questions of its quiz; the score is 0 when N = 0, and it is within
    the relative error 2^-51 of 100 × K / N. *)
Theorem complete_persists_score :
  forall (now : datetime) (user : RequestUser) (pk : uuid) (st : Store)
         (session : QuizSession.t),
    QuizSessionViewSet.get_object st user pk = inr session ->
    QuizSession.completed_at session = None ->
    let K := number_correct st session in
    let N := number_of_questions st session in
    let (response, st') := QuizSessionViewSet.complete now user pk st in
    status response = HTTP_200_OK /\
    exists session' score,
      stored_session st' pk session' /\
      QuizSession.completed_at session' = Some now /\
      QuizSession.score session' = Some score /\
      (N = 0 -> score = 0%Q) /\
      (N <> 0 ->
       score = float_mul (int_truediv (Z.of_nat K) (Z.of_nat N)) 100%Q) /\
      ((Z.of_nat N <= 2 ^ 1022)%Z ->
       (Qabs (score - percentage K N) <= percentage K N * 2 ^ (-51))%Q).
Proof.
  intros now user pk st session Hget Hopen K N.
  destruct (get_object_session _ _ _ _ Hget) as [Hin [Hpk _]].
  destruct (complete_quiz_session_open now session st Hin Hopen)
    as [session' [Hc [_ [_ [_ [Hat [Hscore Hstored]]]]]]].
  unfold QuizSessionViewSet.complete. rewrite Hget.
  unfold QuizSession.is_completed. rewrite Hopen, Hc.
  split; [reflexivity|].
  exists session', (Utils.calculate_quiz_score st session).
  rewrite Hpk in Hstored.
  rewrite calculate_quiz_score_float in *. fold K N in Hscore |- *.
  split; [exact Hstored|]. split; [exact Hat|]. split; [exact Hscore|].
  split; [|split].
  - intro HN. rewrite HN. reflexivity.
  - intro HN. destruct N; [contradiction|]. reflexivity.
  - apply float_percentage_error.
Qed.

Lemma complete_persists_score_witness :
  let (response, st') :=
    QuizSessionViewSet.complete 3000000%Z (Authenticated 2) 40
                                example_answered in
  status response = HTTP_200_OK /\
  exists session' score,
    stored_session st' 40 session' /\
    QuizSession.completed_at session' = Some 3000000%Z /\
    QuizSession.score session' = Some score /\
    (2 = 0 -> score = 0%Q) /\
    (2 <> 0 -> score = float_mul (int_truediv 1 2) 100%Q) /\
    ((2 <= 2 ^ 1022)%Z ->
     (Qabs (score - percentage 1 2) <= percentage 1 2 * 2 ^ (-51))%Q).
Proof.
  exact (complete_persists_score 3000000%Z (Authenticated 2) 40
           example_answered (QuizSession.mk 40 10 2 0%Z None None)
           eq_refl eq_refl).
Defined.

(** The stored score is not always 100 × K / N: with 7 answers right out of
    25 questions, 100 × 7 / 25 is 28, and [complete] stores
    28.000000000000004, the product by 100 of the binary64 quotient 7 / 25. *)
Lemma complete_score_is_rounded :
  let st := store_of_25_questions in
  let session := QuizSession.mk 60 12 2 0%Z None None in
  let K := number_correct st session in
  let N := number_of_questions st session in
  QuizSessionViewSet.get_object st (Authenticated 2) 60 = inr session /\
  QuizSession.completed_at session = None /\
  K = 7 /\ N = 25 /\
  let (response, st') :=
    QuizSessionViewSet.complete 3000000%Z (Authenticated 2) 60 st in
  (exists session',
     stored_session st' 60 session' /\
     QuizSession.score session'
     = Some (7881299347898369 # 281474976710656)%Q) /\
  ~ (exists session' score,
       stored_session st' 60 session' /\
       QuizSession.score session' = Some score /\
       (score == 100 * inject_Z (Z.of_nat K) / inject_Z (Z.of_nat N))%Q).
Proof.
  cbv zeta.
  split; [vm_compute; reflexivity|].
  split; [reflexivity|].
  split; [vm_compute; reflexivity|].
  split; [vm_compute; reflexivity|].
  destruct (QuizSessionViewSet.complete 3000000%Z (Authenticated 2) 60
              store_of_25_questions) as [response st'] eqn:E.
  assert (S : sessions st'
              = [QuizSession.mk 60 12 2 0%Z (Some 3000000%Z)
                   (Some (7881299347898369 # 281474976710656)%Q)]).
  { apply (f_equal (fun r => sessions (snd r))) in E.
    vm_compute in E. symmetry. exact E. }
  unfold stored_session. rewrite S. split.
  - eexists. split.
    + split; [left; reflexivity|].
      intros s' [<-|[]] _. reflexivity.
    + reflexivity.
  - intros [session' [score [[Hin _] [Hs Hv]]]].
    destruct Hin as [<-|[]]. inversion Hs; subst score.
    assert (N25 : number_of_questions store_of_25_questions
                    (QuizSession.mk 60 12 2 0%Z None None) = 25)
      by (vm_compute; reflexivity).
    assert (K7 : number_correct store_of_25_questions
                   (QuizSession.mk 60 12 2 0%Z None None) = 7)
      by (vm_compute; reflexivity).
    rewrite N25, K7 in Hv. vm_compute in Hv. discriminate.
Qed.

(** The scenario of the specification: one answer right out of two questions
    scores 50. *)
Example score_of_example :
  exists session,
    stored_session
      (snd (QuizSessionViewSet.complete 3000000%Z (Authenticated 2) 40
                                        example_answered))
      40 session /\
    QuizSession.score session = Some 50%Q.
Proof.
  eexists. split.
  - split; [left; reflexivity|].
    intros s' [<-|[]] _. reflexivity.
  - reflexivity.
Qed.

(** ** Time-out at submission *)

(** [complete_quiz_session] writes the table of sessions only. *)
Lemma complete_quiz_session_answers (now : datetime) (session : QuizSession.t)
    (st : Store) :
  let st' := snd (Utils.complete_quiz_session now session st) in
  answers st' = answers st /\ next_uuid st' = next_uuid st /\
  shares st' = shares st /\ quizzes st' = quizzes st.
Proof.
  unfold Utils.complete_quiz_session.
  destruct (QuizSession.completed_at session); simpl; repeat split.
Qed.

(** C3.  A session that is not completed and whose elapsed time exceeds the
    duration of its quiz reports [is_timed_out]; [submit_answer] on it answers
    the time-out error, records no answer, and leaves the session stored as
    completed at [now] with the score of the answers recorded before the
    call: (K / N) × 100 in binary64 arithmetic, for K the number of these
    answers whose selected choice is correct and N the number of questions
    of the quiz. *)
Theorem submit_answer_timed_out :
  forall (now : datetime) (user : RequestUser) (pk : uuid)
         (question_id choice_id : option uuid) (st : Store)
         (session : QuizSession.t) (quiz : Quiz.t),
    QuizSessionViewSet.get_object st user pk = inr session ->
    QuizSession.completed_at session = None ->
    session_quiz st session = One quiz ->
    (Z.of_N (Quiz.duration_minutes quiz) * 60 * 1000000
     < now - QuizSession.started_at session)%Z ->
    is_timed_out now (Quiz.duration_minutes quiz) session = true /\
    let (response, st') :=
      QuizSessionViewSet.submit_answer now user pk question_id choice_id st in
    TimedOutError response /\
    answers st' = answers st /\
    exists session' score,
      stored_session st' pk session' /\
      QuizSession.completed_at session' = Some now /\
      QuizSession.score session' = Some score /\
      score = float_percentage (number_correct st session)
                               (number_of_questions st session).
Proof.
  intros now user pk question_id choice_id st session quiz
         Hget Hopen Hquiz Hlate.
  assert (Hto : is_timed_out now (Quiz.duration_minutes quiz) session = true).
  { unfold is_timed_out. rewrite Hopen. apply Z.ltb_lt. exact Hlate. }
  split; [exact Hto|].
  destruct (get_object_session _ _ _ _ Hget) as [Hin [Hpk _]].
  destruct (complete_quiz_session_open now session st Hin Hopen)
    as [session' [Hc [_ [_ [_ [Hat [Hscore Hstored]]]]]]].
  unfold QuizSessionViewSet.submit_answer. rewrite Hget.
  unfold QuizSession.is_completed. rewrite Hopen, Hquiz, Hto, Hc.
  split; [reflexivity|]. split; [reflexivity|].
  exists session', (Utils.calculate_quiz_score st session).
  rewrite Hpk in Hstored.
  repeat split; try assumption; try apply Hstored.
  apply calculate_quiz_score_float.
Qed.

Lemma submit_answer_timed_out_witness :
  is_timed_out 601000000%Z 10%N (QuizSession.mk 40 10 2 0%Z None None) = true /\
  let (response, st') :=
    QuizSessionViewSet.submit_answer 601000000%Z (Authenticated 2) 40
                                     (Some 21) (Some 32) example_answered in
  TimedOutError response /\
  answers st' = answers example_answered /\
  exists session' score,
    stored_session st' 40 session' /\
    QuizSession.completed_at session' = Some 601000000%Z /\
    QuizSession.score session' = Some score /\
    score = float_percentage 1 2.
Proof.
  exact (submit_answer_timed_out 601000000%Z (Authenticated 2) 40
           (Some 21) (Some 32) example_answered
           (QuizSession.mk 40 10 2 0%Z None None) capitals
           eq_refl eq_refl eq_refl eq_refl).
Defined.

(** ** Completing twice *)

Lemma filter_filter {A} (p g : A -> bool) (l : list A) :
  filter p (filter g l) = filter (fun x => g x && p x) l.
Proof.
  induction l as [|x l IH]; simpl; [reflexivity|].
  destruct (g x); simpl; [destruct (p x)|]; rewrite IH; reflexivity.
Qed.

Lemma get_object_inl_status (st : Store) (user : RequestUser) (pk : uuid)
    (response : Response) :
  QuizSessionViewSet.get_object st user pk = inl response ->
  status response <> HTTP_200_OK.
Proof.
  unfold QuizSessionViewSet.get_object.
  destruct user as [|u]; [intro H; inversion H; discriminate|].
  destruct (objects_get _ _) as [s| |];
    [destruct (session_quiz st s) as [quiz| |];
     [destruct (QuizSessionViewSet.IsQuizCreatorOrParticipant u s quiz)|..]|..];
    intro H; inversion H; discriminate.
Qed.

(** After a session is completed, the same request finds the completed
    row. *)
Lemma get_object_after_complete (now : datetime) (user : RequestUser)
    (pk : uuid) (st : Store) (session : QuizSession.t) :
  NoDup (map QuizSession.id (sessions st)) ->
  QuizSessionViewSet.get_object st user pk = inr session ->
  QuizSession.completed_at session = None ->
  let (session', st') := Utils.complete_quiz_session now session st in
  QuizSessionViewSet.get_object st' user pk = inr session' /\
  QuizSession.completed_at session' = Some now.
Proof.
  intros ND Hget Hopen.
  destruct (get_object_session _ _ _ _ Hget) as [Hin [Hpk _]].
  destruct (complete_quiz_session_open now session st Hin Hopen)
    as [session' [Hc [Hid [Hq [Hu [Hat _]]]]]].
  rewrite Hc. split; [|exact Hat].
  revert Hget. unfold QuizSessionViewSet.get_object.
  destruct user as [|u]; [discriminate|].
  unfold QuizSessionViewSet.get_queryset, objects_get. simpl.
  rewrite !filter_filter.
  set (p := fun x : QuizSession.t => _ && (QuizSession.id x =? pk)).
  destruct (filter p (sessions st)) as [|s [|s2 l]] eqn:F; try discriminate.
  destruct (session_quiz st s) as [quiz| |] eqn:Q; try discriminate.
  destruct (QuizSessionViewSet.IsQuizCreatorOrParticipant u s quiz) eqn:P;
    [|discriminate].
  intro H; inversion H; subst s; clear H.
  assert (Hp : p session = true).
  { apply (proj2 (proj1 (filter_In p session (sessions st))
                        ltac:(rewrite F; left; reflexivity))). }
  rewrite (filter_save_row_same QuizSession.id p session session'
             (sessions st) ND F Hid).
  - unfold session_quiz in *. simpl. rewrite Hq, Q.
    unfold QuizSessionViewSet.IsQuizCreatorOrParticipant in *.
    rewrite Hu, P. reflexivity.
  - revert Hp. unfold p. rewrite Hid, Hq, Hu. auto.
Qed.

(** C4.  When a call of [complete] succeeds, a second call on the same
    session answers the state error and leaves the store, with the completion
    time and the score of the first call, as it is; and a call of [complete]
    that answers 200 has completed a session that was not completed. *)
Theorem complete_twice :
  forall (now1 now2 : datetime) (user : RequestUser) (pk : uuid) (st : Store),
    NoDup (map QuizSession.id (sessions st)) ->
    let (response1, st1) := QuizSessionViewSet.complete now1 user pk st in
    status response1 = HTTP_200_OK ->
    (exists session session',
        QuizSessionViewSet.get_object st user pk = inr session /\
        QuizSession.completed_at session = None /\
        stored_session st1 pk session' /\
        QuizSession.completed_at session' = Some now1) /\
    let (response2, st2) := QuizSessionViewSet.complete now2 user pk st1 in
    StateError response2 /\ st2 = st1.
Proof.
  intros now1 now2 user pk st ND.
  unfold QuizSessionViewSet.complete at 1.
  destruct (QuizSessionViewSet.get_object st user pk) as [r|session] eqn:Hget.
  - intro H. exfalso. exact (get_object_inl_status _ _ _ _ Hget H).
  - unfold QuizSession.is_completed.
    destruct (QuizSession.completed_at session) eqn:Hopen; [discriminate|].
    pose proof (get_object_after_complete now1 user pk st session ND Hget Hopen)
      as Hafter.
    destruct (get_object_session _ _ _ _ Hget) as [Hin [Hpk _]].
    destruct (complete_quiz_session_open now1 session st Hin Hopen)
      as [session' [Hc [_ [_ [_ [Hat [_ Hstored]]]]]]].
    rewrite Hc in *. intros _. destruct Hafter as [Hget' _]. split.
    + exists session, session'. rewrite Hpk in Hstored. auto.
    + unfold QuizSessionViewSet.complete. rewrite Hget'.
      unfold QuizSession.is_completed. rewrite Hat.
      split; [|reflexivity]. split; [reflexivity|]. right; reflexivity.
Qed.

Lemma complete_twice_witness :
  let (response1, st1) :=
    QuizSessionViewSet.complete 3000000%Z (Authenticated 2) 40
                                example_answered in
  status response1 = HTTP_200_OK /\
  let (response2, st2) :=
    QuizSessionViewSet.complete 4000000%Z (Authenticated 2) 40 st1 in
  StateError response2 /\ st2 = st1.
Proof.
  assert (ND : NoDup (map QuizSession.id (sessions example_answered))).
  { simpl. constructor; [intros []|constructor]. }
  pose proof (complete_twice 3000000%Z 4000000%Z (Authenticated 2) 40
                example_answered ND) as H.
  cbv beta iota zeta delta
    [QuizSessionViewSet.complete example_answered] in H |- *.
  vm_compute in H |- *.
  split; [reflexivity|]. exact (proj2 (H eq_refl)).
Defined.

(** ** Tables with a unique pair of columns *)

Lemma filter_nil_iff {A} (p : A -> bool) (l : list A) :
  filter p l = [] <-> forall r, In r l -> p r = false.
Proof.
  induction l as [|x l IH]; simpl.
  - split; [intros _ r []|reflexivity].
  - destruct (p x) eqn:E; split.
    + discriminate.
    + intro H. rewrite (H x (or_introl eq_refl)) in E. discriminate.
    + intros H r [<-|Hr]; [exact E|]. apply IH; assumption.
    + intro H. apply IH. intros r Hr. apply H. right; exact Hr.
Qed.

(** A filter that fixes the primary key keeps at most one row. *)
Lemma filter_pk_at_most_one {A} (pk : A -> nat) (p : A -> bool) (k : nat)
    (rows : list A) :
  NoDup (map pk rows) ->
  (forall r, In r rows -> p r = true -> pk r = k) ->
  filter p rows = [] \/ exists r, filter p rows = [r].
Proof.
  induction rows as [|x rows IH]; simpl; intros ND Hk; [left; reflexivity|].
  inversion ND as [|? ? Hx ND']; subst.
  destruct (p x) eqn:E.
  - right. exists x. f_equal. apply filter_nil_iff. intros r Hr.
    destruct (p r) eqn:Er; [|reflexivity]. exfalso. apply Hx.
    rewrite (Hk x (or_introl eq_refl) E), <- (Hk r (or_intror Hr) Er).
    apply in_map, Hr.
  - apply IH; [exact ND'|]. intros r Hr. apply Hk. right; exact Hr.
Qed.

Section Upsert.
Context {A : Type} (pk k1 k2 : A -> nat).

Lemma keyed_other (x y x' y' : nat) (r : A) :
  k1 r = x -> k2 r = y -> x' <> x \/ y' <> y -> keyed k1 k2 x' y' r = false.
Proof.
  intros <- <- H. unfold keyed. apply andb_false_iff.
  destruct H as [H|H]; [left|right]; apply Nat.eqb_neq; congruence.
Qed.

Lemma keyed_same (x y : nat) (r : A) :
  k1 r = x -> k2 r = y -> keyed k1 k2 x y r = true.
Proof.
  intros <- <-. unfold keyed. rewrite !Nat.eqb_refl. reflexivity.
Qed.

(** Saving a new version of the one row of a pair. *)
Lemma upsert_update (rows : list A) (next : uuid) (x y : nat) (old new : A) :
  table_wf pk k1 k2 rows next ->
  filter (keyed k1 k2 x y) rows = [old] ->
  pk new = pk old -> k1 new = x -> k2 new = y ->
  table_wf pk k1 k2 (save_row pk new rows) next /\
  filter (keyed k1 k2 x y) (save_row pk new rows) = [new] /\
  forall x' y', x' <> x \/ y' <> y ->
    filter (keyed k1 k2 x' y') (save_row pk new rows)
    = filter (keyed k1 k2 x' y') rows.
Proof.
  intros [ND [Hlt Huniq]] Hf Epk E1 E2.
  assert (Hold : In old rows /\ keyed k1 k2 x y old = true).
  { apply filter_In. rewrite Hf. left; reflexivity. }
  destruct Hold as [Hin Hko].
  assert (Hex : exists r, In r rows /\ pk r = pk new)
    by (exists old; split; [exact Hin|congruence]).
  assert (Hsame : filter (keyed k1 k2 x y) (save_row pk new rows) = [new]).
  { apply (filter_save_row_same pk _ old); auto using keyed_same. }
  assert (Hother : forall x' y', x' <> x \/ y' <> y ->
            filter (keyed k1 k2 x' y') (save_row pk new rows)
            = filter (keyed k1 k2 x' y') rows).
  { intros x' y' Hne. apply (filter_save_row_other pk _ old); auto.
    - apply keyed_other with (x := x) (y := y); auto.
    - unfold keyed in Hko. apply andb_true_iff in Hko.
      destruct Hko as [H1 H2]. apply Nat.eqb_eq in H1, H2.
      apply keyed_other with (x := x) (y := y); auto. }
  split; [|split; assumption].
  split; [|split].
  - rewrite (save_row_pks pk new rows Hex). exact ND.
  - intros r Hr. apply (in_map pk) in Hr.
    rewrite (save_row_pks pk new rows Hex) in Hr.
    apply in_map_iff in Hr. destruct Hr as [r0 [E Hr0]].
    rewrite <- E. apply Hlt, Hr0.
  - intros x' y'.
    destruct (Nat.eq_dec x' x) as [->|Hx];
      [destruct (Nat.eq_dec y' y) as [->|Hy]|].
    + rewrite Hsame. simpl. lia.
    + rewrite Hother by (right; exact Hy). apply Huniq.
    + rewrite Hother by (left; exact Hx). apply Huniq.
Qed.

(** Inserting the first row of a pair, under a key just drawn. *)
Lemma upsert_insert (rows : list A) (next : uuid) (x y : nat) (new : A) :
  table_wf pk k1 k2 rows next ->
  filter (keyed k1 k2 x y) rows = [] ->
  pk new = next -> k1 new = x -> k2 new = y ->
  table_wf pk k1 k2 (insert_row new rows) (S next) /\
  filter (keyed k1 k2 x y) (insert_row new rows) = [new] /\
  forall x' y', x' <> x \/ y' <> y ->
    filter (keyed k1 k2 x' y') (insert_row new rows)
    = filter (keyed k1 k2 x' y') rows.
Proof.
  intros [ND [Hlt Huniq]] Hf Epk E1 E2. unfold insert_row.
  assert (Hsame : filter (keyed k1 k2 x y) (rows ++ [new]) = [new]).
  { rewrite filter_app, Hf. simpl. rewrite (keyed_same x y new E1 E2).
    reflexivity. }
  assert (Hother : forall x' y', x' <> x \/ y' <> y ->
            filter (keyed k1 k2 x' y') (rows ++ [new])
            = filter (keyed k1 k2 x' y') rows).
  { intros x' y' Hne. rewrite filter_app. simpl.
    rewrite (keyed_other x y x' y' new E1 E2 Hne). apply app_nil_r. }
  split; [|split; assumption].
  split; [|split].
  - rewrite map_app. apply NoDup_app; [exact ND|repeat constructor; intros []|].
    simpl. intros a Ha [<-|[]]. apply in_map_iff in Ha.
    destruct Ha as [r [E Hr]]. specialize (Hlt r Hr). lia.
  - intros r Hr. apply in_app_iff in Hr. destruct Hr as [Hr|[<-|[]]].
    + specialize (Hlt r Hr). lia.
    + lia.
  - intros x' y'.
    destruct (Nat.eq_dec x' x) as [->|Hx];
      [destruct (Nat.eq_dec y' y) as [->|Hy]|].
    + rewrite Hsame. simpl. lia.
    + rewrite Hother by (right; exact Hy). apply Huniq.
    + rewrite Hother by (left; exact Hx). apply Huniq.
Qed.

(** The constraints hold as well when more keys have been drawn. *)
Lemma table_wf_next (rows : list A) (next next' : uuid) :
  next <= next' -> table_wf pk k1 k2 rows next -> table_wf pk k1 k2 rows next'.
Proof.
  intros Hle [ND [Hlt Huniq]]. split; [exact ND|split; [|exact Huniq]].
  intros r Hr. specialize (Hlt r Hr). lia.
Qed.

End Upsert.

(** ** Answers: validation *)

(** C6.  On a session in progress, [submit_answer] with a question that is
    not one of the quiz of the session, or with a choice that is not one of
    the question, answers a validation error and leaves the store as it
    is. *)
Theorem submit_answer_invalid :
  forall (now : datetime) (user : RequestUser) (pk question_id choice_id : uuid)
         (st : Store) (session : QuizSession.t) (quiz : Quiz.t),
    NoDup (map Question.id (questions st)) ->
    QuizSessionViewSet.get_object st user pk = inr session ->
    QuizSession.completed_at session = None ->
    session_quiz st session = One quiz ->
    is_timed_out now (Quiz.duration_minutes quiz) session = false ->
    question_in_quiz st question_id (Quiz.id quiz) = false \/
    choice_in_question st choice_id question_id = false ->
    let (response, st') :=
      QuizSessionViewSet.submit_answer now user pk (Some question_id)
                                       (Some choice_id) st in
    ValidationError response /\ st' = st.
Proof.
  intros now user pk question_id choice_id st session quiz
         ND Hget Hopen Hquiz Hnot Hbad.
  unfold QuizSessionViewSet.submit_answer. rewrite Hget.
  unfold QuizSession.is_completed. rewrite Hopen, Hquiz, Hnot.
  set (pq := fun q : Question.t => _ && _).
  assert (Hq : filter pq (questions st) = [] \/
               exists r, filter pq (questions st) = [r]).
  { apply (filter_pk_at_most_one Question.id pq question_id); [exact ND|].
    intros r _ Hr. unfold pq in Hr. apply andb_true_iff in Hr.
    apply Nat.eqb_eq, Hr. }
  unfold objects_get at 1.
  destruct Hq as [Hq|[question Hq]]; rewrite Hq.
  - split; [|reflexivity]. split; [reflexivity|]. right; left; reflexivity.
  - assert (Hin : In question (questions st) /\ pq question = true).
    { apply filter_In. rewrite Hq. left; reflexivity. }
    destruct Hin as [Hin Hpq].
    destruct Hbad as [Hbad|Hbad].
    + exfalso. unfold question_in_quiz in Hbad.
      assert (Htrue : existsb pq (questions st) = true)
        by (apply existsb_exists; exists question; auto).
      unfold pq in Htrue. rewrite Hbad in Htrue. discriminate.
    + assert (Eid : Question.id question = question_id).
      { unfold pq in Hpq. apply andb_true_iff in Hpq.
        apply Nat.eqb_eq, Hpq. }
      rewrite Eid.
      replace (objects_get _ (choices st)) with (@DoesNotExist Choice.t).
      * split; [|reflexivity]. split; [reflexivity|].
        right; right; left; reflexivity.
      * symmetry. apply objects_get_DoesNotExist, filter_nil_iff.
        intros c Hc. destruct (_ && _) eqn:E; [|reflexivity].
        unfold choice_in_question in Hbad.
        assert (Htrue : existsb
                  (fun c => (Choice.id c =? choice_id)
                            && (Choice.question c =? question_id))
                  (choices st) = true)
          by (apply existsb_exists; exists c; auto).
        rewrite Hbad in Htrue. discriminate.
Qed.

(** A question of another quiz, and a choice of another question. *)
Lemma submit_answer_invalid_witness :
  (let (response, st') :=
     QuizSessionViewSet.submit_answer 1000000%Z (Authenticated 2) 40
                                      (Some 99) (Some 31) example_store in
   ValidationError response /\ st' = example_store) /\
  (let (response, st') :=
     QuizSessionViewSet.submit_answer 1000000%Z (Authenticated 2) 40
                                      (Some 20) (Some 32) example_store in
   ValidationError response /\ st' = example_store).
Proof.
  assert (ND : NoDup (map Question.id (questions example_store))).
  { simpl. repeat constructor; simpl; intuition discriminate. }
  split.
  - exact (submit_answer_invalid 1000000%Z (Authenticated 2) 40 99 31
             example_store (QuizSession.mk 40 10 2 0%Z None None) capitals
             ND eq_refl eq_refl eq_refl eq_refl (or_introl eq_refl)).
  - exact (submit_answer_invalid 1000000%Z (Authenticated 2) 40 20 32
             example_store (QuizSession.mk 40 10 2 0%Z None None) capitals
             ND eq_refl eq_refl eq_refl eq_refl (or_intror eq_refl)).
Defined.

(** ** Answers: one per question, last write wins *)

(** What [update_or_create] returns and leaves in the table. *)
Lemma update_or_create_effect (now : datetime) (session : QuizSession.t)
    (question : Question.t) (choice : Choice.t) (st st' : Store)
    (a : UserAnswer.t) (created : bool) :
  answers_wf st ->
  QuizSessionViewSet.update_or_create now session question choice st
  = (Return (a, created), st') ->
  answers_wf st' /\
  UserAnswer.session a = QuizSession.id session /\
  UserAnswer.question a = Question.id question /\
  UserAnswer.selected_choice a = Choice.id choice /\
  answers_for st' (QuizSession.id session) (Question.id question) = [a] /\
  forall s q, s <> QuizSession.id session \/ q <> Question.id question ->
    answers_for st' s q = answers_for st s q.
Proof.
  intros Hwf. unfold QuizSessionViewSet.update_or_create.
  change (fun a0 : UserAnswer.t =>
            (UserAnswer.session a0 =? QuizSession.id session)
            && (UserAnswer.question a0 =? Question.id question))
    with (keyed UserAnswer.session UserAnswer.question
                (QuizSession.id session) (Question.id question)).
  destruct (objects_get _ (answers st)) as [old| |] eqn:G; [| |discriminate].
  - apply objects_get_One_filter in G.
    assert (Hold : In old (answers st) /\
                   keyed UserAnswer.session UserAnswer.question
                         (QuizSession.id session) (Question.id question) old
                   = true).
    { apply filter_In. rewrite G. left; reflexivity. }
    destruct Hold as [_ Hk]. unfold keyed in Hk.
    apply andb_true_iff in Hk. destruct Hk as [Hs Hq].
    apply Nat.eqb_eq in Hs, Hq.
    intro H; inversion H; subst; clear H.
    destruct (upsert_update UserAnswer.id UserAnswer.session
                UserAnswer.question (answers st) (next_uuid st)
                (QuizSession.id session) (Question.id question) old
                (UserAnswer.mk (UserAnswer.id old) (UserAnswer.session old)
                               (UserAnswer.question old) (Choice.id choice)
                               (UserAnswer.answered_at old))
                Hwf G eq_refl Hs Hq) as [Hwf' [Hsame Hother]].
    unfold answers_wf, answers_for. simpl. auto 10.
  - apply objects_get_DoesNotExist in G.
    unfold bind, uuid4. intro H; inversion H; subst; clear H.
    destruct (upsert_insert UserAnswer.id UserAnswer.session
                UserAnswer.question (answers st) (next_uuid st)
                (QuizSession.id session) (Question.id question)
                (UserAnswer.mk (next_uuid st) (QuizSession.id session)
                               (Question.id question) (Choice.id choice) now)
                Hwf G eq_refl eq_refl eq_refl) as [Hwf' [Hsame Hother]].
    unfold answers_wf, answers_for. simpl. auto 10.
Qed.

(** A call of [submit_answer] either is refused and leaves the answers as
    they are, or is answered 200 after a successful [update_or_create] on the
    session, the question and the choice that the request names, whose row
    the response carries. *)
Lemma submit_answer_effect (now : datetime) (user : RequestUser) (pk : uuid)
    (question_id choice_id : option uuid) (st : Store) :
  let (response, st') :=
    QuizSessionViewSet.submit_answer now user pk question_id choice_id st in
  (status response <> HTTP_200_OK /\
   answers st' = answers st /\ next_uuid st' = next_uuid st)
  \/
  (exists session question choice a created,
      QuizSessionViewSet.update_or_create now session question choice st
      = (Return (a, created), st') /\
      response = mkResponse HTTP_200_OK (UserAnswerData a) /\
      QuizSession.id session = pk /\
      question_id = Some (Question.id question) /\
      choice_id = Some (Choice.id choice)).
Proof.
  unfold QuizSessionViewSet.submit_answer.
  destruct (QuizSessionViewSet.get_object st user pk) as [r|session] eqn:Hget.
  { left. repeat split. exact (get_object_inl_status _ _ _ _ Hget). }
  destruct (get_object_session _ _ _ _ Hget) as [_ [Hpk _]].
  destruct (QuizSession.is_completed session);
    [left; repeat split; discriminate|].
  destruct (session_quiz st session) as [quiz| |];
    [|left; repeat split; discriminate..].
  destruct (is_timed_out now (Quiz.duration_minutes quiz) session).
  { pose proof (complete_quiz_session_answers now session st) as H.
    destruct (Utils.complete_quiz_session now session st) as [s1 st1].
    simpl in H. left. split; [discriminate|]. intuition. }
  destruct question_id as [question_id|];
    [|left; repeat split; discriminate].
  destruct choice_id as [choice_id|]; [|left; repeat split; discriminate].
  destruct (objects_get _ (questions st)) as [question| |] eqn:Gq;
    [|left; repeat split; discriminate..].
  destruct (objects_get _ (choices st)) as [choice| |] eqn:Gc;
    [|left; repeat split; discriminate..].
  apply objects_get_One_In in Gq, Gc.
  destruct Gq as [_ Gq]. destruct Gc as [_ Gc].
  apply andb_true_iff in Gq, Gc.
  destruct Gq as [Gq _]. destruct Gc as [Gc _].
  apply Nat.eqb_eq in Gq, Gc.
  destruct (QuizSessionViewSet.update_or_create now session question choice st)
    as [[[a created]|e] st'] eqn:U.
  - right. exists session, question, choice, a, created.
    rewrite Gq, Gc. auto.
  - left. revert U. unfold QuizSessionViewSet.update_or_create.
    destruct (objects_get _ (answers st)); try discriminate.
    intro H; inversion H; subst. repeat split. discriminate.
Qed.

(** One call: the constraints are kept, and the answers of a pair are the
    row with the submitted choice when the call is a successful submission
    for the pair, and unchanged otherwise. *)
Lemma submit_answer_step (c : SubmitAnswer) (st : Store) (s q : uuid) :
  answers_wf st ->
  let (response, st') := submit_answer c st in
  answers_wf st' /\
  match submitted_choice s q c response with
  | Some choice =>
      exists a, answers_for st' s q = [a] /\
                UserAnswer.selected_choice a = choice
  | None => answers_for st' s q = answers_for st s q
  end.
Proof.
  intro Hwf. unfold submit_answer, submitted_choice.
  pose proof (submit_answer_effect (sa_now c) (sa_user c) (sa_pk c)
                (sa_question_id c) (sa_choice_id c) st) as H.
  destruct (QuizSessionViewSet.submit_answer _ _ _ _ _ st) as [response st'].
  destruct H as [[Hs [Ha Hn]]
                |[session [question [choice [a [created
                   [U [-> [Epk [Eq Ec]]]]]]]]]].
  - apply Nat.eqb_neq in Hs. rewrite Hs. simpl.
    unfold answers_wf, answers_for in *. rewrite Ha, Hn.
    split; [exact Hwf|reflexivity].
  - destruct (update_or_create_effect _ _ _ _ _ _ _ _ Hwf U)
      as [Hwf' [_ [_ [Esel [Hsame Hother]]]]].
    split; [exact Hwf'|].
    rewrite Eq, Ec, <- Epk.
    change (status (mkResponse HTTP_200_OK (UserAnswerData a)) =? HTTP_200_OK)
      with true. cbn [andb].
    destruct (QuizSession.id session =? s) eqn:E1;
      [destruct (Question.id question =? q) eqn:E2|].
    + apply Nat.eqb_eq in E1, E2. subst s q. exists a. auto.
    + apply Nat.eqb_neq in E2. apply Hother. right; congruence.
    + apply Nat.eqb_neq in E1. apply Hother. left; congruence.
Qed.

(** C5.  On a table of answers that satisfies its constraints, after any
    sequence of calls of [submit_answer] there is at most one answer for a
    question in a session, and when some call of the sequence was a
    successful submission for that pair, the answer is there and its selected
    choice is the [choice_id] that the last such call submitted. *)
Theorem resubmission_keeps_one_answer :
  forall (calls : list SubmitAnswer) (st : Store) (session question : uuid),
    answers_wf st ->
    let (responses, st') := submit_answers calls st in
    List.length (answers_for st' session question) <= 1 /\
    forall choice,
      last_submitted_choice session question calls responses = Some choice ->
      exists a, answers_for st' session question = [a] /\
                UserAnswer.selected_choice a = choice.
Proof.
  intros calls st session question Hwf.
  assert (H : let (responses, st') := submit_answers calls st in
              answers_wf st' /\
              match last_submitted_choice session question calls responses
              with
              | Some choice =>
                  exists a, answers_for st' session question = [a] /\
                            UserAnswer.selected_choice a = choice
              | None => answers_for st' session question
                        = answers_for st session question
              end).
  { revert st Hwf. induction calls as [|c calls IH]; intros st Hwf; simpl.
    - split; [exact Hwf|reflexivity].
    - pose proof (submit_answer_step c st session question Hwf) as Hstep.
      destruct (submit_answer c st) as [r st1]. destruct Hstep as [Hwf1 Hr].
      specialize (IH st1 Hwf1).
      destruct (submit_answers calls st1) as [rs st']. simpl.
      destruct IH as [Hwf' Hrs]. split; [exact Hwf'|].
      destruct (last_submitted_choice session question calls rs);
        [exact Hrs|].
      rewrite Hrs. exact Hr. }
  destruct (submit_answers calls st) as [responses st'].
  destruct H as [[_ [_ Huniq]] Hlast]. split; [apply Huniq|].
  intros choice E. rewrite E in Hlast. exact Hlast.
Qed.

(** Bob sends for the first question the choice 30 and then the choice 31,
    both answered 200: the one answer of the question holds 31. *)
Lemma resubmission_keeps_one_answer_witness :
  answers_wf example_store /\
  last_submitted_choice 40 20 example_resubmissions
    (fst (submit_answers example_resubmissions example_store)) = Some 31 /\
  exists a,
    answers_for (snd (submit_answers example_resubmissions example_store))
                40 20 = [a] /\
    UserAnswer.selected_choice a = 31.
Proof.
  assert (Hwf : answers_wf example_store).
  { split; [constructor|]. split; [intros r []|]. intros x y. simpl. lia. }
  split; [exact Hwf|]. split; [reflexivity|].
  pose proof (resubmission_keeps_one_answer example_resubmissions
                example_store 40 20 Hwf) as H.
  destruct (submit_answers example_resubmissions example_store)
    as [responses st'] eqn:E.
  assert (Er : responses
               = fst (submit_answers example_resubmissions example_store))
    by (rewrite E; reflexivity).
  destruct H as [_ H]. apply H. rewrite Er. reflexivity.
Defined.

(** ** Shares: one per grantee, last permission wins *)

Lemma quiz_get_object_inl_status (st : Store) (user : RequestUser) (pk : uuid)
    (response : Response) :
  QuizViewSet.get_object st user pk = inl response ->
  status response <> HTTP_200_OK.
Proof.
  unfold QuizViewSet.get_object.
  destruct user as [|u]; [intro H; inversion H; discriminate|].
  destruct (objects_get _ _); intro H; inversion H; discriminate.
Qed.

Lemma granted_permission_error (quiz : uuid) (grantee : nat) (r : Response) :
  status r <> HTTP_200_OK -> granted_permission quiz grantee r = None.
Proof.
  intro H. unfold granted_permission. destruct (data r); try reflexivity.
  apply Nat.eqb_neq in H. rewrite H. reflexivity.
Qed.

(** The branches of a view that answer an error on the store as it is. *)
Ltac refused := solve [simpl; split; [assumption|reflexivity]].

(** One call of [share]: the constraints are kept, and the shares of a pair
    are the row with the granted permission when the response grants one to
    the pair, and unchanged otherwise. *)
Lemma share_step (c : Share) (st : Store) (q : uuid) (g : nat) :
  shares_wf st ->
  let (response, st') := share c st in
  shares_wf st' /\
  match granted_permission q g response with
  | Some permission =>
      exists sh, shares_for st' q g = [sh] /\
                 QuizShare.permission_type sh = permission
  | None => shares_for st' q g = shares_for st q g
  end.
Proof.
  intro Hwf. unfold share, QuizViewSet.share.
  destruct (QuizViewSet.get_object st (sh_user c) (sh_pk c))
    as [r|quiz] eqn:Hget.
  { assert (Hr : granted_permission q g r = None)
      by exact (granted_permission_error q g r
                  (quiz_get_object_inl_status _ _ _ _ Hget)).
    destruct (sh_user c); rewrite Hr; split; auto. }
  destruct (sh_user c) as [|u]; [refused|].
  destruct (negb (Quiz.creator quiz =? u)
            && negb (QuizViewSet.edit_share_exists st quiz u)); [refused|].
  destruct (sh_shared_with c) as [identifier|]; [|refused].
  set (permission := get_default (sh_permission_type c) "attempt").
  destruct (if has_at identifier then _ else _) as [recipient| |];
    [|refused..].
  unfold QuizViewSet.get_or_create.
  change (fun sh : QuizShare.t =>
            (QuizShare.quiz sh =? Quiz.id quiz)
            && (QuizShare.shared_with sh =? User.id recipient))
    with (keyed QuizShare.quiz QuizShare.shared_with
                (Quiz.id quiz) (User.id recipient)).
  destruct (objects_get _ (shares st)) as [old| |] eqn:G; [| |refused].
  - apply objects_get_One_filter in G.
    assert (Hold : In old (shares st) /\
                   keyed QuizShare.quiz QuizShare.shared_with
                         (Quiz.id quiz) (User.id recipient) old = true).
    { apply filter_In. rewrite G. left; reflexivity. }
    destruct Hold as [_ Hk]. unfold keyed in Hk.
    apply andb_true_iff in Hk. destruct Hk as [Hq Hg].
    apply Nat.eqb_eq in Hq, Hg.
    destruct (upsert_update QuizShare.id QuizShare.quiz QuizShare.shared_with
                (shares st) (next_uuid st) (Quiz.id quiz) (User.id recipient)
                old
                (QuizShare.mk (QuizShare.id old) (QuizShare.quiz old)
                              (QuizShare.shared_by old)
                              (QuizShare.shared_with old)
                              (QuizShare.shared_at old) permission)
                Hwf G eq_refl Hq Hg) as [Hwf' [Hsame Hother]].
    simpl. split; [exact Hwf'|].
    unfold granted_permission, shares_for. simpl.
    destruct (QuizShare.quiz old =? q) eqn:E1;
      [destruct (QuizShare.shared_with old =? g) eqn:E2|]; simpl.
    + apply Nat.eqb_eq in E1, E2. subst q g.
      rewrite <- Hq, <- Hg in Hsame.
      eexists. split; [exact Hsame|]. reflexivity.
    + apply Nat.eqb_neq in E2. apply Hother. right; congruence.
    + apply Nat.eqb_neq in E1. apply Hother. left; congruence.
  - apply objects_get_DoesNotExist in G.
    destruct (upsert_insert QuizShare.id QuizShare.quiz QuizShare.shared_with
                (shares st) (next_uuid st) (Quiz.id quiz) (User.id recipient)
                (QuizShare.mk (next_uuid st) (Quiz.id quiz) u
                              (User.id recipient) (sh_now c) permission)
                Hwf G eq_refl eq_refl eq_refl) as [Hwf' [Hsame Hother]].
    simpl. split; [exact Hwf'|].
    unfold granted_permission, shares_for. simpl.
    destruct (Quiz.id quiz =? q) eqn:E1;
      [destruct (User.id recipient =? g) eqn:E2|]; simpl.
    + apply Nat.eqb_eq in E1, E2. subst q g. eexists. split; [exact Hsame|].
      reflexivity.
    + apply Nat.eqb_neq in E2. apply Hother. right; congruence.
    + apply Nat.eqb_neq in E1. apply Hother. left; congruence.
Qed.

(** On a table of shares that satisfies its constraints, after any sequence
    of calls of the [share] action there is at most one share of a quiz with
    a grantee, and it holds the permission of the last call that was answered
    with a share of the pair.  Nothing is said here of the calls that are
    answered with an error. *)
Lemma resharing_keeps_one_share :
  forall (calls : list Share) (st : Store) (quiz : uuid) (grantee : nat),
    shares_wf st ->
    let (responses, st') := share_all calls st in
    List.length (shares_for st' quiz grantee) <= 1 /\
    forall permission,
      last_granted_permission quiz grantee responses = Some permission ->
      exists sh, shares_for st' quiz grantee = [sh] /\
                 QuizShare.permission_type sh = permission.
Proof.
  intros calls st quiz grantee Hwf.
  assert (H : let (responses, st') := share_all calls st in
              shares_wf st' /\
              match last_granted_permission quiz grantee responses with
              | Some permission =>
                  exists sh, shares_for st' quiz grantee = [sh] /\
                             QuizShare.permission_type sh = permission
              | None => shares_for st' quiz grantee
                        = shares_for st quiz grantee
              end).
  { revert st Hwf. induction calls as [|c calls IH]; intros st Hwf; simpl.
    - split; [exact Hwf|reflexivity].
    - pose proof (share_step c st quiz grantee Hwf) as Hstep.
      destruct (share c st) as [r st1]. destruct Hstep as [Hwf1 Hr].
      specialize (IH st1 Hwf1).
      destruct (share_all calls st1) as [rs st']. simpl.
      destruct IH as [Hwf' Hrs]. split; [exact Hwf'|].
      destruct (last_granted_permission quiz grantee rs); [exact Hrs|].
      rewrite Hrs. exact Hr. }
  destruct (share_all calls st) as [responses st'].
  destruct H as [[_ [_ Huniq]] Hlast]. split; [apply Huniq|].
  intros permission E. rewrite E in Hlast. exact Hlast.
Qed.

Lemma resharing_keeps_one_share_witness :
  shares_wf example_store /\
  exists sh,
    shares_for (snd (share_all example_shares example_store)) 10 2 = [sh] /\
    QuizShare.permission_type sh = "edit".
Proof.
  assert (Hwf : shares_wf example_store).
  { split; [constructor|]. split; [intros r []|]. intros x y. simpl. lia. }
  split; [exact Hwf|].
  pose proof (resharing_keeps_one_share example_shares example_store 10 2 Hwf)
    as H.
  destruct (share_all example_shares example_store) as [responses st'] eqn:E.
  assert (Er : responses = fst (share_all example_shares example_store))
    by (rewrite E; reflexivity).
  destruct H as [_ H]. apply H. rewrite Er. reflexivity.
Defined.

(** C9, at the failing input.  Alice, who created the quiz 10, shares it with
    bob to view, then with carol to view, and then with bob again, to edit.
    The first two calls are answered 200.  The quiz is then twice in the
    queryset of alice, once for each of its shares, so that [get_object]
    fails on the third call: it is answered 500, and the one share of bob
    still holds the permission "view", not that of the latest operation. *)
Theorem reshare_fails_after_second_grantee :
  let (responses, st') := share_all example_reshares example_store in
  map status responses
  = [HTTP_200_OK; HTTP_200_OK; HTTP_500_INTERNAL_SERVER_ERROR] /\
  List.length
    (filter (fun q => Quiz.id q =? 10)
            (QuizViewSet.get_queryset st' (Authenticated 1))) = 2 /\
  shares_for st' 10 2 = [QuizShare.mk 100 10 1 2 1000000%Z "view"] /\
  shares_for st' 10 3 = [QuizShare.mk 101 10 1 3 2000000%Z "view"].
Proof.
  vm_compute. repeat split.
Qed.

(** ** Access to a quiz *)

(** C7.  For a quiz found by its share code: its creator gets the access of
    the owner whatever the flags of the quiz (both views show the quiz and
    every method is permitted on it); on a public quiz an anonymous viewer
    gets public view (both views show the quiz, and exactly the safe methods
    are permitted); on a private quiz that does not allow anonymous attempts
    an anonymous viewer gets no access (both views answer 403, and the quiz is
    not in the queryset of the quiz routes). *)
Theorem access_policy_cases :
  forall (st : Store) (code : uuid) (quiz : Quiz.t),
    quiz_by_share_code st code = inr quiz ->
    (forall u, Quiz.creator quiz = u ->
       access_policy st quiz (Authenticated u) = owner /\
       QuizViewSet.by_share_code (Authenticated u) code st
       = mkResponse HTTP_200_OK (QuizData quiz) /\
       JoinQuizByShareCodeView.retrieve (Authenticated u) code st
       = mkResponse HTTP_200_OK (QuizData quiz) /\
       forall m, IsCreatorOrReadOnly m quiz (Authenticated u) = true) /\
    (Quiz.is_public quiz = true ->
       access_policy st quiz AnonymousUser = public_view /\
       QuizViewSet.by_share_code AnonymousUser code st
       = mkResponse HTTP_200_OK (QuizData quiz) /\
       JoinQuizByShareCodeView.retrieve AnonymousUser code st
       = mkResponse HTTP_200_OK (QuizData quiz) /\
       forall m, IsCreatorOrReadOnly m quiz AnonymousUser = SAFE_METHODS m) /\
    (Quiz.is_public quiz = false ->
     Quiz.allow_anonymous_attempts quiz = false ->
       access_policy st quiz AnonymousUser = no_access /\
       status (QuizViewSet.by_share_code AnonymousUser code st)
       = HTTP_403_FORBIDDEN /\
       status (JoinQuizByShareCodeView.retrieve AnonymousUser code st)
       = HTTP_403_FORBIDDEN /\
       ~ In quiz (QuizViewSet.get_queryset st AnonymousUser)).
Proof.
  intros st code quiz Hfind.
  unfold access_policy, access_refused, QuizViewSet.by_share_code,
    JoinQuizByShareCodeView.retrieve, IsCreatorOrReadOnly.
  rewrite Hfind. split; [|split].
  - intros u <-. simpl. rewrite Nat.eqb_refl. simpl.
    destruct (Quiz.is_public quiz); simpl; repeat split;
      intro m; destruct (SAFE_METHODS m); reflexivity.
  - intros ->. simpl. repeat split.
    intro m; destruct (SAFE_METHODS m); reflexivity.
  - intros Hprivate Hlogin. rewrite Hprivate, Hlogin. simpl. repeat split.
    intro Hin. simpl in Hin. apply filter_In in Hin. destruct Hin as [_ Hpub].
    congruence.
Qed.

Lemma access_policy_cases_witness :
  access_policy example_store capitals (Authenticated 1) = owner /\
  access_policy example_store capitals AnonymousUser = no_access /\
  status (QuizViewSet.by_share_code AnonymousUser 77 example_store)
  = HTTP_403_FORBIDDEN /\
  access_policy example_store rivers AnonymousUser = public_view.
Proof.
  pose proof (access_policy_cases example_store 77 capitals eq_refl)
    as [Howner [_ Hnone]].
  pose proof (access_policy_cases example_store 78 rivers eq_refl)
    as [_ [Hpublic _]].
  destruct (Howner 1 eq_refl) as [H1 _].
  destruct (Hnone eq_refl eq_refl) as [H2 [H3 _]].
  destruct (Hpublic eq_refl) as [H4 _].
  exact (conj H1 (conj H2 (conj H3 H4))).
Defined.

(** ** Sharing with oneself *)

(** The serializer of the [shares] route refuses a share with oneself. *)
Lemma validate_refuses_self (st : Store) (user : nat) (quiz : Quiz.t) :
  QuizShareSerializer.validate st user quiz user
  = Some "You cannot share a quiz with yourself.".
Proof.
  unfold QuizShareSerializer.validate. rewrite Nat.eqb_refl. reflexivity.
Qed.

(** On the [shares] route, a share with oneself is answered 400 and no row
    is written. *)
Lemma shares_route_refuses_self (now : datetime) (u : nat) (quiz : uuid)
    (permission_type : option string) (st : Store) :
  let (response, st') :=
    QuizShareViewSet.create now (Authenticated u) quiz u permission_type st in
  status response = HTTP_400_BAD_REQUEST /\ st' = st.
Proof.
  unfold QuizShareViewSet.create.
  destruct (objects_get _ (quizzes st)) as [q| |]; try (split; reflexivity).
  destruct (objects_get _ (users st)) as [r| |] eqn:G;
    try (split; reflexivity).
  destruct (negb _); [split; reflexivity|].
  destruct (shared_with_exists st q (User.id r)); [split; reflexivity|].
  apply objects_get_One_In in G. destruct G as [_ E].
  apply Nat.eqb_eq in E. rewrite E, validate_refuses_self.
  split; reflexivity.
Qed.

(** C8, at the failing input.  Alice, the creator of the quiz, calls the
    [share] action of the quiz with her own user name as recipient: the
    answer is 200 with the new share, not a validation error, and the table
    of shares holds a share of alice with alice. *)
Theorem share_action_accepts_self :
  let (response, st') :=
    QuizViewSet.share 1000000%Z (Authenticated 1) 10 (Some "alice")
                      (Some "view") example_store in
  response = mkResponse HTTP_200_OK
               (QuizShareData (QuizShare.mk 100 10 1 1 1000000%Z "view")) /\
  ~ ValidationError response /\
  shares st' = [QuizShare.mk 100 10 1 1 1000000%Z "view"].
Proof.
  vm_compute. repeat split. intros [H _]. discriminate H.
Qed.

(** ** A quiz from extracted records *)

(** C2, at the failing input.  The upload of alice holds an extraction whose
    first question has a choice without [choice_text].  The view answers 500,
    and the quiz, the first question and its first choice, written before the
    missing key was met, are in the store after the call. *)
Theorem malformed_build_persists_rows :
  parsed_ok malformed = false /\
  let (response, st') :=
    CreateQuizFromImageView.create (Authenticated 1) (Some 50)
                                   (Some "Scanned") None None
                                   store_with_upload in
  response = mkResponse HTTP_500_INTERNAL_SERVER_ERROR
                        (Error "Failed to create quiz") /\
  quizzes st'
  = quizzes store_with_upload
    ++ [Quiz.mk 101 "Scanned" 1 10%N false (Some 100) false] /\
  questions st'
  = questions store_with_upload ++ [Question.mk 102 101 "Q1" 0] /\
  choices st' = choices store_with_upload ++ [Choice.mk 103 102 "A" true 0].
Proof.
  vm_compute. repeat split.
Qed.

(** The loop ends without an exception exactly when its body does on every
    element. *)
Lemma for_enumerate_returns {A} (ok : A -> bool) (body : nat -> A -> Db unit) :
  (forall i x st, returns (body i x st) = ok x) ->
  forall xs i st, returns (for_enumerate i xs body st) = forallb ok xs.
Proof.
  intros Hbody xs. induction xs as [|x xs IH]; intros i st; simpl.
  - reflexivity.
  - unfold bind. specialize (Hbody i x st).
    destruct (body i x st) as [[[]|e] st1]; unfold returns in Hbody;
      simpl in Hbody; rewrite <- Hbody; simpl; [apply IH|reflexivity].
Qed.

(** What the body of the loop keeps, the loop keeps. *)
Lemma for_enumerate_keeps {A B} (f : Store -> B) (body : nat -> A -> Db unit) :
  (forall i x st, f (snd (body i x st)) = f st) ->
  forall xs i st, f (snd (for_enumerate i xs body st)) = f st.
Proof.
  intros Hbody xs. induction xs as [|x xs IH]; intros i st; simpl.
  - reflexivity.
  - unfold bind. specialize (Hbody i x st).
    destruct (body i x st) as [[[]|e] st1]; simpl in Hbody;
      [rewrite IH|]; exact Hbody.
Qed.

Lemma create_choice_returns (question : Question.t) (i : nat)
    (c : Parsed.choice_data) (st : Store) :
  returns (Utils.create_choice question i c st) = choice_ok c.
Proof.
  unfold Utils.create_choice, choice_ok.
  destruct (Parsed.choice_text c); reflexivity.
Qed.

Lemma create_question_returns (quiz : Quiz.t) (i : nat) (q : Parsed.q_data)
    (st : Store) :
  returns (Utils.create_question quiz i q st) = question_ok q.
Proof.
  unfold Utils.create_question, question_ok.
  destruct (Parsed.question_text q) as [text|]; [|reflexivity].
  simpl. unfold bind at 1. simpl. unfold bind at 1. simpl.
  apply for_enumerate_returns. intros. apply create_choice_returns.
Qed.

Lemma create_choice_keeps_quizzes (question : Question.t) (i : nat)
    (c : Parsed.choice_data) (st : Store) :
  quizzes (snd (Utils.create_choice question i c st)) = quizzes st.
Proof.
  unfold Utils.create_choice. destruct (Parsed.choice_text c); reflexivity.
Qed.

Lemma create_question_keeps_quizzes (quiz : Quiz.t) (i : nat)
    (q : Parsed.q_data) (st : Store) :
  quizzes (snd (Utils.create_question quiz i q st)) = quizzes st.
Proof.
  unfold Utils.create_question.
  destruct (Parsed.question_text q) as [text|]; [|reflexivity].
  simpl. unfold bind at 1. simpl. unfold bind at 1. simpl.
  rewrite (for_enumerate_keeps quizzes).
  - reflexivity.
  - intros. apply create_choice_keeps_quizzes.
Qed.

(** [create_quiz_from_parsed_data] never raises; it returns the quiz exactly
    when every record has its text, and in every case the row of the quiz is
    in the store afterwards. *)
Lemma create_quiz_from_parsed_data_outcome (user : nat) (title : string)
    (d : Parsed.parsed_data) (duration_minutes : N) (is_public : bool)
    (st : Store) :
  let quiz := Quiz.mk (S (next_uuid st)) title user duration_minutes is_public
                      (Some (next_uuid st)) false in
  let (out, st') :=
    Utils.create_quiz_from_parsed_data user title d duration_minutes
                                       is_public st in
  out = Return (if parsed_ok d then Some quiz else None) /\
  quizzes st' = quizzes st ++ [quiz].
Proof.
  unfold Utils.create_quiz_from_parsed_data, try_except, parsed_ok.
  unfold bind at 1. simpl. unfold bind at 1. simpl.
  set (quiz := Quiz.mk _ _ _ _ _ _ _).
  set (st1 := set_quizzes _ _).
  set (qs := get_default (Parsed.questions d) []).
  pose proof (for_enumerate_returns question_ok (Utils.create_question quiz)
                (create_question_returns quiz) qs 0 st1) as Hret.
  pose proof (for_enumerate_keeps quizzes (Utils.create_question quiz)
                (create_question_keeps_quizzes quiz) qs 0 st1) as Hkeep.
  unfold bind.
  destruct (for_enumerate 0 qs (Utils.create_question quiz) st1)
    as [[[]|e] st2]; unfold returns in Hret; simpl in Hret, Hkeep |- *;
    rewrite <- Hret; split; try reflexivity; exact Hkeep.
Qed.

(** Whatever malformed extraction a processed upload holds, the view answers
    500 and the row of the quiz stays in the store. *)
Lemma malformed_build_keeps_quiz (u : nat) (image_id : uuid)
    (title : option string) (duration_minutes : option N)
    (is_public : option bool) (st : Store) (image_upload : ImageUpload.t)
    (d : Parsed.parsed_data) :
  objects_get (fun i => (ImageUpload.id i =? image_id)
                        && (ImageUpload.user i =? u))
              (image_uploads st) = One image_upload ->
  ImageUpload.processed image_upload = true ->
  ImageUpload.parsed_data image_upload = Some d ->
  Parsed.truthy d = true ->
  parsed_ok d = false ->
  let (response, st') :=
    CreateQuizFromImageView.create (Authenticated u) (Some image_id) title
                                   duration_minutes is_public st in
  status response = HTTP_500_INTERNAL_SERVER_ERROR /\
  exists quiz, quizzes st' = quizzes st ++ [quiz].
Proof.
  intros Hget Hproc Hdata Htruthy Hbad.
  unfold CreateQuizFromImageView.create, try_except.
  unfold bind at 1. unfold CreateQuizFromImageView.get_image_upload.
  rewrite Hget. unfold CreateQuizFromImageView.not_processed.
  rewrite Hproc, Hdata, Htruthy. simpl. unfold atomic, bind.
  pose proof (create_quiz_from_parsed_data_outcome u
                (get_default title "Untitled Quiz") d
                (get_default duration_minutes 10%N)
                (get_default is_public false) st) as H.
  destruct (Utils.create_quiz_from_parsed_data _ _ _ _ _ st) as [out st'].
  simpl in H. destruct H as [-> Hq]. rewrite Hbad. simpl.
  split; [reflexivity|]. eexists. exact Hq.
Qed.

(** *** The rows that the build writes *)

Lemma for_enumerate_cons {A} (i : nat) (x : A) (xs : list A)
    (body : nat -> A -> Db unit) (st : Store) :
  for_enumerate i (x :: xs) body st
  = match body i x st with
    | (Return _, st1) => for_enumerate (S i) xs body st1
    | (Raise e, st1) => (Raise e, st1)
    end.
Proof. reflexivity. Qed.

Lemma create_choice_row (question : Question.t) (j : nat)
    (c : Parsed.choice_data) (text : string) (st : Store) :
  Parsed.choice_text c = Some text ->
  Utils.create_choice question j c st
  = (Return tt,
     set_choices
       (insert_row
          (Choice.mk (next_uuid st) (Question.id question) text
                     (get_default (Parsed.is_correct c) false) j)
          (choices st))
       (set_next_uuid (S (next_uuid st)) st)).
Proof.
  intro E. unfold Utils.create_choice. rewrite E. reflexivity.
Qed.

Lemma create_question_row (quiz : Quiz.t) (i : nat) (q : Parsed.q_data)
    (text : string) (st : Store) :
  Parsed.question_text q = Some text ->
  Utils.create_question quiz i q st
  = for_enumerate 0 (get_default (Parsed.choices q) [])
      (Utils.create_choice (Question.mk (next_uuid st) (Quiz.id quiz) text i))
      (set_questions
         (insert_row (Question.mk (next_uuid st) (Quiz.id quiz) text i)
                     (questions st))
         (set_next_uuid (S (next_uuid st)) st)).
Proof.
  intro E. unfold Utils.create_question. rewrite E. reflexivity.
Qed.

(** The loop over the choice records of a question. *)
Lemma create_choices_rows (question : Question.t) (cs : list Parsed.choice_data) :
  forall (j : nat) (st : Store),
    forallb choice_ok cs = true ->
    exists st' rows,
      for_enumerate j cs (Utils.create_choice question) st = (Return tt, st') /\
      quizzes st' = quizzes st /\ questions st' = questions st /\
      choices st' = choices st ++ rows /\
      map choice_columns rows
      = expected_choices_of (Question.id question) j cs.
Proof.
  induction cs as [|c cs IH]; intros j st Hok.
  - exists st, []. simpl. rewrite app_nil_r. auto.
  - simpl in Hok. apply andb_true_iff in Hok. destruct Hok as [Hc Hcs].
    unfold choice_ok in Hc.
    destruct (Parsed.choice_text c) as [text|] eqn:Et; [|discriminate].
    rewrite for_enumerate_cons, (create_choice_row question j c text st Et).
    set (row := Choice.mk _ _ _ _ _).
    set (st1 := set_choices _ _).
    destruct (IH (S j) st1 Hcs) as [st' [rows [Hrun [Hq [Hqs [Hch Hcols]]]]]].
    rewrite Hrun. exists st', (row :: rows).
    split; [reflexivity|]. split; [exact Hq|]. split; [exact Hqs|].
    split.
    + rewrite Hch. simpl. unfold insert_row. rewrite <- app_assoc.
      reflexivity.
    + unfold expected_choices_of in *. simpl. rewrite Hcols, Et. reflexivity.
Qed.

(** The loop over the question records. *)
Lemma create_questions_rows (quiz : Quiz.t) (qs : list Parsed.q_data) :
  forall (i : nat) (st : Store),
    forallb question_ok qs = true ->
    exists st' rows choice_rows,
      for_enumerate i qs (Utils.create_question quiz) st = (Return tt, st') /\
      quizzes st' = quizzes st /\
      questions st' = questions st ++ rows /\
      choices st' = choices st ++ choice_rows /\
      map question_columns rows = expected_questions (Quiz.id quiz) i qs /\
      map choice_columns choice_rows = expected_choices rows qs.
Proof.
  induction qs as [|q qs IH]; intros i st Hok.
  - exists st, [], []. simpl. rewrite !app_nil_r. auto 10.
  - simpl in Hok. apply andb_true_iff in Hok. destruct Hok as [Hq Hqs].
    unfold question_ok in Hq.
    destruct (Parsed.question_text q) as [text|] eqn:Et; [|discriminate].
    rewrite for_enumerate_cons, (create_question_row quiz i q text st Et).
    set (row := Question.mk (next_uuid st) (Quiz.id quiz) text i).
    set (st1 := set_questions _ _).
    destruct (create_choices_rows row (get_default (Parsed.choices q) [])
                0 st1 Hq)
      as [st2 [crows [Hrun [Hz [Hqn [Hch Hcols]]]]]].
    rewrite Hrun.
    destruct (IH (S i) st2 Hqs)
      as [st' [rows [crows' [Hrun' [Hz' [Hqn' [Hch' [Hcols1 Hcols2]]]]]]]].
    exists st', (row :: rows), (crows ++ crows'). rewrite Hrun'.
    split; [reflexivity|]. split; [rewrite Hz', Hz; reflexivity|].
    split; [|split; [|split]].
    + rewrite Hqn', Hqn. simpl. unfold insert_row. rewrite <- app_assoc.
      reflexivity.
    + rewrite Hch', Hch. simpl. rewrite <- app_assoc. reflexivity.
    + unfold expected_questions in *. simpl. rewrite Hcols1, Et. reflexivity.
    + unfold expected_choices. simpl. rewrite map_app, Hcols, Hcols2.
      reflexivity.
Qed.

Lemma for_enumerate_next {A} (body : nat -> A -> Db unit) :
  (forall i x st, next_uuid st <= next_uuid (snd (body i x st))) ->
  forall xs i st, next_uuid st <= next_uuid (snd (for_enumerate i xs body st)).
Proof.
  intros Hbody xs. induction xs as [|x xs IH]; intros i st; simpl.
  - lia.
  - unfold bind. specialize (Hbody i x st).
    destruct (body i x st) as [[[]|e] st1]; simpl in Hbody |- *; [|exact Hbody].
    specialize (IH (S i) st1). lia.
Qed.

Lemma create_choice_next (question : Question.t) (j : nat)
    (c : Parsed.choice_data) (st : Store) :
  next_uuid st <= next_uuid (snd (Utils.create_choice question j c st)).
Proof.
  unfold Utils.create_choice.
  destruct (Parsed.choice_text c); simpl; lia.
Qed.

Lemma enumerate_from_nth {A} (xs : list A) :
  forall (i k : nat) (x : A),
    nth_error xs k = Some x ->
    nth_error (enumerate_from i xs) k = Some (i + k, x).
Proof.
  induction xs as [|y xs IH]; intros i k x H.
  - destruct k; discriminate.
  - destruct k as [|k]; simpl in *.
    + inversion H. rewrite Nat.add_0_r. reflexivity.
    + rewrite (IH (S i) k x H). f_equal. f_equal. lia.
Qed.

(** The choices made for a question are choices of this question. *)
Lemma expected_choices_of_question (qid : uuid) (cs : list Parsed.choice_data) :
  forall (j : nat) (group : list Choice.t),
    map choice_columns group = expected_choices_of qid j cs ->
    forall c, In c group -> Choice.question c = qid.
Proof.
  unfold expected_choices_of.
  induction cs as [|x cs IH]; intros j group H c Hin.
  - destruct group; [contradiction|discriminate].
  - destruct group as [|g group]; [contradiction|].
    simpl in H. injection H as H1 _ _ _ H2.
    destruct Hin as [<-|Hin].
    + exact H1.
    + exact (IH (S j) group H2 c Hin).
Qed.

(** The loop over the question records: the question made for each record,
    with the choices made for it. *)
Lemma create_questions_built (quiz : Quiz.t) (qs : list Parsed.q_data) :
  forall (i : nat) (st : Store),
    forallb question_ok qs = true ->
    exists st' (built : list (Question.t * list Choice.t)),
      for_enumerate i qs (Utils.create_question quiz) st = (Return tt, st') /\
      questions st' = questions st ++ map fst built /\
      choices st' = choices st ++ flat_map snd built /\
      next_uuid st <= next_uuid st' /\
      List.length built = List.length qs /\
      (forall k q, nth_error qs k = Some q ->
         exists row group,
           nth_error built k = Some (row, group) /\
           question_columns row
           = (Quiz.id quiz, text_of (Parsed.question_text q), i + k) /\
           map choice_columns group
           = expected_choices_of (Question.id row) 0
               (get_default (Parsed.choices q) [])) /\
      (forall b, In b built ->
         next_uuid st <= Question.id (fst b) /\
         Question.id (fst b) < next_uuid st' /\
         forall c, In c (snd b) -> Choice.question c = Question.id (fst b)) /\
      NoDup (map (fun b => Question.id (fst b)) built).
Proof.
  induction qs as [|q qs IH]; intros i st Hok.
  - exists st, []. simpl. rewrite !app_nil_r.
    split; [reflexivity|]. split; [reflexivity|]. split; [reflexivity|].
    split; [lia|]. split; [reflexivity|]. split; [|split; [|constructor]].
    + intros k q H. destruct k; discriminate.
    + intros b [].
  - simpl in Hok. apply andb_true_iff in Hok. destruct Hok as [Hq Hqs].
    unfold question_ok in Hq.
    destruct (Parsed.question_text q) as [text|] eqn:Et; [|discriminate].
    rewrite for_enumerate_cons, (create_question_row quiz i q text st Et).
    set (row := Question.mk (next_uuid st) (Quiz.id quiz) text i).
    set (st1 := set_questions _ _).
    destruct (create_choices_rows row (get_default (Parsed.choices q) [])
                0 st1 Hq)
      as [st2 [group [Hrun [_ [Hqn [Hch Hcols]]]]]].
    pose proof (for_enumerate_next (Utils.create_choice row)
                  (create_choice_next row)
                  (get_default (Parsed.choices q) []) 0 st1) as Hnext.
    rewrite Hrun in *. simpl in Hnext.
    destruct (IH (S i) st2 Hqs)
      as [st' [built [Hrun' [Hqn' [Hch' [Hn' [Hlen [Hnth [Hids Hnd]]]]]]]]].
    exists st', ((row, group) :: built). rewrite Hrun'.
    split; [reflexivity|].
    split.
    { rewrite Hqn', Hqn. simpl. unfold insert_row. rewrite <- app_assoc.
      reflexivity. }
    split.
    { rewrite Hch', Hch. simpl. rewrite <- app_assoc. reflexivity. }
    split; [lia|].
    split; [simpl; rewrite Hlen; reflexivity|].
    split.
    { intros k q' H. destruct k as [|k]; simpl in H.
      - inversion H; subst q'. exists row, group.
        split; [reflexivity|]. rewrite Et, Nat.add_0_r.
        split; [reflexivity|exact Hcols].
      - destruct (Hnth k q' H) as [r [g [E1 [E2 E3]]]].
        exists r, g. split; [exact E1|]. split; [|exact E3].
        rewrite E2. f_equal. lia. }
    split.
    { intros b [<-|Hb].
      - simpl. split; [lia|]. split; [lia|].
        apply (expected_choices_of_question _ _ _ _ Hcols).
      - destruct (Hids b Hb) as [H1 [H2 H3]].
        split; [lia|]. split; [exact H2|exact H3]. }
    simpl. constructor; [|exact Hnd].
    intro Hin. apply in_map_iff in Hin. destruct Hin as [b [Eb Hb]].
    destruct (Hids b Hb) as [H1 _]. lia.
Qed.

Lemma filter_none {A} (p : A -> bool) (l : list A) :
  (forall x, In x l -> p x = false) -> filter p l = [].
Proof.
  induction l as [|x l IH]; intro H; simpl; [reflexivity|].
  rewrite (H x (or_introl eq_refl)). apply IH.
  intros y Hy. apply H. right. exact Hy.
Qed.

Lemma filter_all {A} (p : A -> bool) (l : list A) :
  (forall x, In x l -> p x = true) -> filter p l = l.
Proof.
  induction l as [|x l IH]; intro H; simpl; [reflexivity|].
  rewrite (H x (or_introl eq_refl)). f_equal. apply IH.
  intros y Hy. apply H. right. exact Hy.
Qed.

(** The choices of a question that the build made are the ones made for its
    record. *)
Lemma choices_of_built (built : list (Question.t * list Choice.t)) :
  (forall b, In b built ->
     forall c, In c (snd b) -> Choice.question c = Question.id (fst b)) ->
  NoDup (map (fun b => Question.id (fst b)) built) ->
  forall row group,
    In (row, group) built ->
    filter (fun c => Choice.question c =? Question.id row)
           (flat_map snd built) = group.
Proof.
  induction built as [|b built IH]; intros Hown Hnd row group Hin.
  - contradiction.
  - simpl. rewrite filter_app. inversion Hnd as [|x l Hnotin Hnd']; subst.
    destruct Hin as [->|Hin].
    + simpl in *. rewrite filter_all, filter_none.
      * apply app_nil_r.
      * intros c Hc. apply in_flat_map in Hc. destruct Hc as [b' [Hb' Hc]].
        rewrite (Hown b' (or_intror Hb') c Hc).
        apply Nat.eqb_neq. intro E.
        apply Hnotin. apply in_map_iff. exists b'. auto.
      * intros c Hc. apply Nat.eqb_eq.
        apply (Hown (row, group)); [left; reflexivity|exact Hc].
    + rewrite (IH (fun b' H => Hown b' (or_intror H)) Hnd' row group Hin).
      rewrite filter_none; [reflexivity|].
      intros c Hc. rewrite (Hown b (or_introl eq_refl) c Hc).
      apply Nat.eqb_neq. intro E.
      apply Hnotin. apply in_map_iff. exists (row, group). auto.
Qed.

(** C10.  On a store whose choices point to questions with keys already
    drawn, the build returns [None] when a question record has no
    [question_text] or a choice record has no [choice_text], and otherwise
    returns the quiz and has added to the table of questions one row per
    question record, in order: a question of the quiz with the text of the
    record and its position as order, whose choices in the store are those of
    the choice records of the record, in order: none when the record has no
    key [choices], and for a choice record without the key [is_correct] a
    choice with the text of the record that is not correct. *)
Theorem build_requires_only_texts :
  forall (user : nat) (title : string) (d : Parsed.parsed_data)
         (duration_minutes : N) (is_public : bool) (st : Store),
    (forall c, In c (choices st) -> Choice.question c < next_uuid st) ->
    let qs := get_default (Parsed.questions d) [] in
    let (out, st') :=
      Utils.create_quiz_from_parsed_data user title d duration_minutes
                                         is_public st in
    (parsed_ok d = false -> out = Return None) /\
    (parsed_ok d = true ->
     exists quiz rows,
       out = Return (Some quiz) /\
       questions st' = questions st ++ rows /\
       List.length rows = List.length qs /\
       forall i q,
         nth_error qs i = Some q ->
         exists question,
           nth_error rows i = Some question /\
           question_columns question
           = (Quiz.id quiz, text_of (Parsed.question_text q), i) /\
           map choice_columns (choices_of st' (Question.id question))
           = expected_choices_of (Question.id question) 0
               (get_default (Parsed.choices q) []) /\
           (Parsed.choices q = None ->
            choices_of st' (Question.id question) = []) /\
           (forall j c,
               nth_error (get_default (Parsed.choices q) []) j = Some c ->
               Parsed.is_correct c = None ->
               exists choice,
                 nth_error (choices_of st' (Question.id question)) j
                 = Some choice /\
                 Choice.text choice = text_of (Parsed.choice_text c) /\
                 Choice.is_correct choice = false)).
Proof.
  intros user title d duration_minutes is_public st Hold qs.
  pose proof (create_quiz_from_parsed_data_outcome user title d
                duration_minutes is_public st) as Hout.
  cbv zeta in Hout.
  destruct (parsed_ok d) eqn:Hok.
  - (* every record has its text *)
    clear Hout.
    unfold Utils.create_quiz_from_parsed_data, try_except.
    unfold bind at 1. simpl. unfold bind at 1. simpl.
    set (quiz := Quiz.mk _ _ _ _ _ _ _).
    unfold bind.
    match goal with
    | |- context [for_enumerate 0 _ (Utils.create_question quiz) ?st1] =>
        destruct (create_questions_built quiz qs 0 st1 Hok)
          as [st' [built [Hrun [Hqn [Hch [Hn [Hlen [Hnth [Hids Hnd]]]]]]]]]
    end.
    fold qs. rewrite Hrun. split; [discriminate|]. intros _.
    exists quiz, (map fst built). split; [reflexivity|].
    split; [exact Hqn|]. split; [rewrite length_map; exact Hlen|].
    intros i q Hq. destruct (Hnth i q Hq) as [row [group [Eb [Ecols Egroup]]]].
    assert (Hin : In (row, group) built) by (apply nth_error_In with i; exact Eb).
    assert (Eof : choices_of st' (Question.id row) = group).
    { unfold choices_of. rewrite Hch. rewrite filter_app.
      rewrite filter_none.
      - simpl. apply choices_of_built; [|exact Hnd|exact Hin].
        intros b Hb. apply (Hids b Hb).
      - intros c Hc. simpl in Hc. apply Nat.eqb_neq.
        specialize (Hold c Hc). destruct (Hids _ Hin) as [H1 _].
        simpl in H1. lia. }
    exists row. rewrite Eof.
    split; [exact (map_nth_error fst i built Eb)|].
    split; [exact Ecols|]. split; [exact Egroup|].
    split.
    { intro E. rewrite E in Egroup. simpl in Egroup.
      destruct group; [reflexivity|discriminate]. }
    intros j c Hc Ec.
    pose proof (enumerate_from_nth _ 0 j c Hc) as He.
    apply (map_nth_error
             (fun jc : nat * Parsed.choice_data =>
                (Question.id row, text_of (Parsed.choice_text (snd jc)),
                 get_default (Parsed.is_correct (snd jc)) false, fst jc)))
      in He.
    fold (expected_choices_of (Question.id row) 0
            (get_default (Parsed.choices q) [])) in He.
    rewrite <- Egroup in He. rewrite nth_error_map in He.
    destruct (nth_error group j) as [choice|]; [|discriminate].
    exists choice. split; [reflexivity|].
    simpl in He. rewrite Ec in He. simpl in He.
    unfold choice_columns in He. inversion He. split; reflexivity.
  - destruct (Utils.create_quiz_from_parsed_data _ _ _ _ _ st) as [out st'].
    destruct Hout as [-> _]. split; [reflexivity|discriminate].
Qed.

Lemma build_requires_only_texts_witness :
  (forall c, In c (choices example_store) ->
             Choice.question c < next_uuid example_store) /\
  let qs := get_default (Parsed.questions well_formed) [] in
  let (out, st') :=
    Utils.create_quiz_from_parsed_data 1 "Scanned" well_formed 10%N false
                                       example_store in
  (parsed_ok well_formed = false -> out = Return None) /\
  (parsed_ok well_formed = true ->
   exists quiz rows,
     out = Return (Some quiz) /\
     questions st' = questions example_store ++ rows /\
     List.length rows = List.length qs /\
     forall i q,
       nth_error qs i = Some q ->
       exists question,
         nth_error rows i = Some question /\
         question_columns question
         = (Quiz.id quiz, text_of (Parsed.question_text q), i) /\
         map choice_columns (choices_of st' (Question.id question))
         = expected_choices_of (Question.id question) 0
             (get_default (Parsed.choices q) []) /\
         (Parsed.choices q = None ->
          choices_of st' (Question.id question) = []) /\
         (forall j c,
             nth_error (get_default (Parsed.choices q) []) j = Some c ->
             Parsed.is_correct c = None ->
             exists choice,
               nth_error (choices_of st' (Question.id question)) j
               = Some choice /\
               Choice.text choice = text_of (Parsed.choice_text c) /\
               Choice.is_correct choice = false)).
Proof.
  assert (H : forall c, In c (choices example_store) ->
                        Choice.question c < next_uuid example_store).
  { intros c [<-|[<-|[<-|[<-|[]]]]]; simpl; lia. }
  split; [exact H|].
  exact (build_requires_only_texts 1 "Scanned" well_formed 10%N false
           example_store H).
Defined.

(** The build on an extraction of two questions, the first with the choices
    A, flagged correct, and B, without flag, the second without the key
    [choices]: the questions 102 and 105, and the two choices of 102. *)
Example build_of_well_formed :
  let st' := snd (Utils.create_quiz_from_parsed_data 1 "Scanned" well_formed
                    10%N false example_store) in
  questions st'
  = questions example_store
    ++ [Question.mk 102 101 "Q1" 0; Question.mk 105 101 "Q2" 1] /\
  choices st'
  = choices example_store
    ++ [Choice.mk 103 102 "A" true 0; Choice.mk 104 102 "B" false 1] /\
  choices_of st' 105 = [].
Proof. vm_compute. repeat split. Qed.

(** * Further properties of the code *)

(** ** The score is a percentage *)

Lemma filter_and_length {A} (p q : A -> bool) (l : list A) :
  List.length (filter (fun x => p x && q x) l) <= List.length (filter p l).
Proof.
  induction l as [|x l IH]; simpl; [lia|].
  destruct (p x), (q x); simpl; lia.
Qed.

(** A column on which every value selects at most one row has no value
    twice. *)
Lemma NoDup_map_of_unique {A} (f : A -> nat) (l : list A) :
  (forall k, List.length (filter (fun a => f a =? k) l) <= 1) ->
  NoDup (map f l).
Proof.
  induction l as [|x l IH]; simpl; intro H; constructor.
  - intro Hin. apply in_map_iff in Hin. destruct Hin as [y [Ey Hy]].
    specialize (H (f x)). rewrite Nat.eqb_refl in H. simpl in H.
    assert (Hy' : In y (filter (fun a => f a =? f x) l)).
    { apply filter_In. split; [exact Hy|]. apply Nat.eqb_eq, Ey. }
    destruct (filter (fun a => f a =? f x) l); [contradiction|].
    simpl in H. lia.
  - apply IH. intro k. specialize (H k).
    destruct (f x =? k); simpl in H; lia.
Qed.

Lemma percentage_bounds (K N : nat) :
  K <= N -> (0 <= percentage K N)%Q /\ (percentage K N <= 100)%Q.
Proof.
  intro H. destruct N as [|n].
  - simpl. split; [apply Qle_refl|]. unfold Qle; simpl; lia.
  - change (percentage K (S n))
      with (100 * inject_Z (Z.of_nat K) / inject_Z (Z.of_nat (S n)))%Q.
    assert (Hpos : (0 < inject_Z (Z.of_nat (S n)))%Q)
      by (unfold Qlt; simpl; lia).
    split.
    + apply Qle_shift_div_l; [exact Hpos|]. rewrite Qmult_0_l.
      change 0%Q with (inject_Z 0). change 100%Q with (inject_Z 100).
      rewrite <- inject_Z_mult, <- Zle_Qle. lia.
    + apply Qle_shift_div_r; [exact Hpos|].
      apply Qmult_le_l; [reflexivity|]. rewrite <- Zle_Qle. lia.
Qed.

Lemma calculate_quiz_score_in_range :
  forall (st : Store) (session : QuizSession.t),
    NoDup (map Question.id (questions st)) ->
    (forall question,
        List.length (answers_for st (QuizSession.id session) question) <= 1) ->
    (forall a, In a (answers st) ->
               UserAnswer.session a = QuizSession.id session ->
               exists q, In q (questions st) /\
                         Question.id q = UserAnswer.question a /\
                         Question.quiz q = QuizSession.quiz session) ->
    (0 <= Utils.calculate_quiz_score st session)%Q /\
    (Utils.calculate_quiz_score st session <= 100)%Q.
Proof.
  intros st session NDq Huniq Hrefs.
  rewrite calculate_quiz_score_float.
  apply float_percentage_bounds.
  unfold number_correct, number_of_questions.
  rewrite <- !count_if_filter. unfold objects_count.
  set (mine := fun a : UserAnswer.t =>
                 UserAnswer.session a =? QuizSession.id session).
  set (ofquiz := fun q : Question.t =>
                   Question.quiz q =? QuizSession.quiz session).
  etransitivity; [apply (filter_and_length mine)|].
  rewrite <- (length_map UserAnswer.question (filter mine (answers st))).
  rewrite <- (length_map Question.id (filter ofquiz (questions st))).
  apply NoDup_incl_length.
  - apply NoDup_map_of_unique. intro k. rewrite filter_filter.
    apply (Huniq k).
  - intros k Hk. apply in_map_iff in Hk. destruct Hk as [a [<- Ha]].
    apply filter_In in Ha. destruct Ha as [Ha Hm].
    apply Nat.eqb_eq in Hm.
    destruct (Hrefs a Ha Hm) as [q [Hq [Eid Equiz]]].
    apply in_map_iff. exists q. split; [exact Eid|].
    apply filter_In. split; [exact Hq|]. apply Nat.eqb_eq, Equiz.
Qed.

(** X1.  The docstring of [calculate_quiz_score]: "Returns a percentage score
    (0-100)". On a store where question keys are unique, a session has at most
    one answer per question, and the answers of the session are to questions
    of its quiz, the score lies between 0 and 100. *)
Theorem calculate_quiz_score_bounds :
  forall (st : Store) (session : QuizSession.t),
    NoDup (map Question.id (questions st)) ->
    (forall question,
        List.length (answers_for st (QuizSession.id session) question) <= 1) ->
    (forall a, In a (answers st) ->
               UserAnswer.session a = QuizSession.id session ->
               exists q, In q (questions st) /\
                         Question.id q = UserAnswer.question a /\
                         Question.quiz q = QuizSession.quiz session) ->
    (0 <= Utils.calculate_quiz_score st session)%Q /\
    (Utils.calculate_quiz_score st session <= 100)%Q.
Proof.
  exact calculate_quiz_score_in_range.
Qed.

Lemma calculate_quiz_score_bounds_witness :
  (0 <= Utils.calculate_quiz_score example_answered bobs_session)%Q /\
  (Utils.calculate_quiz_score example_answered bobs_session <= 100)%Q.
Proof.
  apply calculate_quiz_score_bounds.
  - simpl. repeat constructor; simpl; intuition discriminate.
  - intro q. unfold answers_for, keyed.
    change (answers example_answered)
      with [UserAnswer.mk 100 40 20 31 1000000%Z;
            UserAnswer.mk 101 40 21 33 2000000%Z].
    cbv [filter UserAnswer.session UserAnswer.question].
    change (40 =? 40) with true. cbn [andb].
    destruct (20 =? q) eqn:E1; destruct (21 =? q) eqn:E2; simpl; try lia.
    apply Nat.eqb_eq in E1, E2. lia.
  - change (answers example_answered)
      with [UserAnswer.mk 100 40 20 31 1000000%Z;
            UserAnswer.mk 101 40 21 33 2000000%Z].
    intros a [<-|[<-|[]]] _.
    + exists (Question.mk 20 10 "Q1" 0). simpl. auto.
    + exists (Question.mk 21 10 "Q2" 1). simpl. auto.
Defined.

(** ** What the response of [complete] reports *)

(** X2.  The response of a successful [complete] carries the stored session
    and the two counts of [QuizSessionResultSerializer], and the score of the
    session is the percentage of these counts as [calculate_quiz_score]
    computes it: ([correct_answers] / [total_questions]) × 100 in binary64
    arithmetic, and 0 when [total_questions] is 0. *)
Theorem complete_reports_counts_of_score :
  forall (now : datetime) (user : RequestUser) (pk : uuid) (st : Store)
         (session : QuizSession.t),
    QuizSessionViewSet.get_object st user pk = inr session ->
    QuizSession.completed_at session = None ->
    let (response, st') := QuizSessionViewSet.complete now user pk st in
    exists session' total_questions correct_answers score,
      response = mkResponse HTTP_200_OK
                   (QuizSessionResult session' total_questions
                                      correct_answers) /\
      stored_session st' pk session' /\
      QuizSession.score session' = Some score /\
      score = float_percentage correct_answers total_questions.
Proof.
  intros now user pk st session Hget Hopen.
  destruct (get_object_session _ _ _ _ Hget) as [Hin [Hpk _]].
  destruct (complete_quiz_session_open now session st Hin Hopen)
    as [session' [Hc [Hid [Hq [_ [_ [Hscore Hstored]]]]]]].
  unfold QuizSessionViewSet.complete. rewrite Hget.
  unfold QuizSession.is_completed. rewrite Hopen, Hc.
  unfold QuizSessionViewSet.result_data.
  do 4 eexists. split; [reflexivity|]. rewrite Hpk in Hstored.
  split; [exact Hstored|]. split; [exact Hscore|].
  rewrite calculate_quiz_score_float.
  unfold number_correct, number_of_questions.
  rewrite !count_if_filter. simpl. rewrite Hid, Hq. reflexivity.
Qed.

Lemma complete_reports_counts_of_score_witness :
  let (response, st') :=
    QuizSessionViewSet.complete 3000000%Z (Authenticated 2) 40
                                example_answered in
  exists session' total_questions correct_answers score,
    response = mkResponse HTTP_200_OK
                 (QuizSessionResult session' total_questions
                                    correct_answers) /\
    stored_session st' 40 session' /\
    QuizSession.score session' = Some score /\
    score = float_percentage correct_answers total_questions.
Proof.
  exact (complete_reports_counts_of_score 3000000%Z (Authenticated 2) 40
           example_answered (QuizSession.mk 40 10 2 0%Z None None)
           eq_refl eq_refl).
Defined.

(** ** A completed session is frozen *)

(** The three ways a call of [submit_answer] ends: the store as it was; a
    session that was not completed, completed on time-out; an answer
    recorded for a session that was not completed. *)
Lemma submit_answer_cases (now : datetime) (user : RequestUser) (pk : uuid)
    (question_id choice_id : option uuid) (st : Store) :
  let (response, st') :=
    QuizSessionViewSet.submit_answer now user pk question_id choice_id st in
  st' = st \/
  (exists session,
      QuizSessionViewSet.get_object st user pk = inr session /\
      QuizSession.completed_at session = None /\
      st' = snd (Utils.complete_quiz_session now session st)) \/
  (exists session question choice a created,
      QuizSessionViewSet.get_object st user pk = inr session /\
      QuizSession.completed_at session = None /\
      QuizSessionViewSet.update_or_create now session question choice st
      = (Return (a, created), st')).
Proof.
  unfold QuizSessionViewSet.submit_answer.
  destruct (QuizSessionViewSet.get_object st user pk) as [r|session] eqn:Hget;
    [left; reflexivity|].
  unfold QuizSession.is_completed.
  destruct (QuizSession.completed_at session) eqn:Hopen; [left; reflexivity|].
  destruct (session_quiz st session) as [quiz| |]; [|left; reflexivity..].
  destruct (is_timed_out now (Quiz.duration_minutes quiz) session).
  { destruct (Utils.complete_quiz_session now session st) as [s1 st1] eqn:C.
    right; left. exists session. rewrite C. auto. }
  destruct question_id as [question_id|]; [|left; reflexivity].
  destruct choice_id as [choice_id|]; [|left; reflexivity].
  destruct (objects_get _ (questions st)) as [question| |];
    [|left; reflexivity..].
  destruct (objects_get _ (choices st)) as [choice| |];
    [|left; reflexivity..].
  destruct (QuizSessionViewSet.update_or_create now session question choice st)
    as [[[a created]|e] st'] eqn:U.
  - right; right. exists session, question, choice, a, created. auto.
  - left. revert U. unfold QuizSessionViewSet.update_or_create.
    destruct (objects_get _ (answers st)); try discriminate.
    intro H; inversion H; reflexivity.
Qed.

Lemma complete_cases (now : datetime) (user : RequestUser) (pk : uuid)
    (st : Store) :
  let (response, st') := QuizSessionViewSet.complete now user pk st in
  st' = st \/
  (exists session,
      QuizSessionViewSet.get_object st user pk = inr session /\
      QuizSession.completed_at session = None /\
      st' = snd (Utils.complete_quiz_session now session st)).
Proof.
  unfold QuizSessionViewSet.complete.
  destruct (QuizSessionViewSet.get_object st user pk) as [r|session] eqn:Hget;
    [left; reflexivity|].
  unfold QuizSession.is_completed.
  destruct (QuizSession.completed_at session) eqn:Hopen; [left; reflexivity|].
  destruct (Utils.complete_quiz_session now session st) as [s1 st1] eqn:C.
  right. exists session. rewrite C. auto.
Qed.

Lemma update_or_create_sessions (now : datetime) (session : QuizSession.t)
    (question : Question.t) (choice : Choice.t) (st : Store) :
  sessions (snd (QuizSessionViewSet.update_or_create now session question
                                                      choice st))
  = sessions st.
Proof.
  unfold QuizSessionViewSet.update_or_create.
  destruct (objects_get _ (answers st)); reflexivity.
Qed.

(** Completing another session keeps it. *)
Lemma frozen_complete_quiz_session (s : QuizSession.t) (st0 st : Store)
    (now : datetime) (session : QuizSession.t) :
  QuizSession.is_completed s = true ->
  frozen s st0 st ->
  In session (sessions st) ->
  QuizSession.completed_at session = None ->
  frozen s st0 (snd (Utils.complete_quiz_session now session st)).
Proof.
  intros Hdone [ND [Hwf [Hin Hans]]] Hsession Hopen.
  destruct (complete_quiz_session_open now session st Hsession Hopen)
    as [session' [Hc [Hid _]]].
  rewrite Hc. unfold frozen, answers_wf, answers_for. simpl.
  assert (Hex : exists r, In r (sessions st)
                          /\ QuizSession.id r = QuizSession.id session')
    by (exists session; auto).
  assert (Hne : QuizSession.id s <> QuizSession.id session').
  { intro E. rewrite Hid in E.
    assert (s = session)
      by (apply (pk_unique QuizSession.id (sessions st)); auto).
    subst s. unfold QuizSession.is_completed in Hdone.
    rewrite Hopen in Hdone. discriminate. }
  split; [|split; [|split]].
  - unfold uuid in *.
    rewrite (save_row_pks QuizSession.id session' (sessions st) Hex). exact ND.
  - exact Hwf.
  - rewrite (save_row_present QuizSession.id session' (sessions st) Hex).
    apply in_map_iff. exists s. split; [|exact Hin].
    apply Nat.eqb_neq in Hne. rewrite Hne. reflexivity.
  - exact Hans.
Qed.

Lemma frozen_session_call (s : QuizSession.t) (st0 st : Store)
    (c : SessionCall) :
  QuizSession.is_completed s = true ->
  frozen s st0 st ->
  frozen s st0 (snd (session_call c st)).
Proof.
  intros Hdone Hfrozen. destruct c as [c|now user pk]; simpl.
  - unfold submit_answer.
    pose proof (submit_answer_cases (sa_now c) (sa_user c) (sa_pk c)
                  (sa_question_id c) (sa_choice_id c) st) as H.
    destruct (QuizSessionViewSet.submit_answer _ _ _ _ _ st) as [r st'].
    simpl.
    destruct H as [->|[[session [Hget [Hopen ->]]]
                      |[session [question [choice [a [created
                         [Hget [Hopen U]]]]]]]]].
    + exact Hfrozen.
    + destruct (get_object_session _ _ _ _ Hget) as [Hin _].
      apply frozen_complete_quiz_session; assumption.
    + destruct (get_object_session _ _ _ _ Hget) as [Hsession _].
      destruct Hfrozen as [ND [Hwf [Hin Hans]]].
      destruct (update_or_create_effect _ _ _ _ _ _ _ _ Hwf U)
        as [Hwf' [_ [_ [_ [_ Hother]]]]].
      pose proof (update_or_create_sessions (sa_now c) session question
                    choice st) as Hs.
      rewrite U in Hs. simpl in Hs.
      assert (Hne : QuizSession.id s <> QuizSession.id session).
      { intro E.
        assert (s = session)
          by (apply (pk_unique QuizSession.id (sessions st)); auto).
        subst s. unfold QuizSession.is_completed in Hdone.
        rewrite Hopen in Hdone. discriminate. }
      split; [|split; [|split]].
      * rewrite Hs. exact ND.
      * exact Hwf'.
      * rewrite Hs. exact Hin.
      * intro q. rewrite Hother by (left; exact Hne). apply Hans.
  - pose proof (complete_cases now user pk st) as H.
    destruct (QuizSessionViewSet.complete now user pk st) as [r st'].
    simpl. destruct H as [->|[session [Hget [Hopen ->]]]].
    + exact Hfrozen.
    + destruct (get_object_session _ _ _ _ Hget) as [Hin _].
      apply frozen_complete_quiz_session; assumption.
Qed.

(** Calls of [submit_answer] keep the constraints of the table of answers. *)
Lemma submit_answers_wf (calls : list SubmitAnswer) (st : Store) :
  answers_wf st -> answers_wf (snd (submit_answers calls st)).
Proof.
  revert st. induction calls as [|c calls IH]; intros st Hwf; simpl.
  - exact Hwf.
  - pose proof (submit_answer_step c st 0 0 Hwf) as Hstep.
    destruct (submit_answer c st) as [r st1]. destruct Hstep as [Hwf1 _].
    specialize (IH st1 Hwf1).
    destruct (submit_answers calls st1) as [rs st']. exact IH.
Qed.

(** X3.  Once a session is completed, no sequence of calls of [submit_answer]
    and [complete], on this session or on others, by anyone, changes its
    stored row (completion time and score) or the answers recorded for it. *)
Theorem completed_session_is_frozen :
  forall (calls : list SessionCall) (st : Store) (s : QuizSession.t),
    NoDup (map QuizSession.id (sessions st)) ->
    answers_wf st ->
    In s (sessions st) ->
    QuizSession.is_completed s = true ->
    let (responses, st') := session_calls calls st in
    stored_session st' (QuizSession.id s) s /\
    forall question,
      answers_for st' (QuizSession.id s) question
      = answers_for st (QuizSession.id s) question.
Proof.
  intros calls st s ND Hwf Hin Hdone.
  assert (H : frozen s st (snd (session_calls calls st))).
  { assert (H0 : frozen s st st) by (repeat split; auto; apply Hwf).
    revert H0. generalize st at 2 4 as st1.
    induction calls as [|c calls IH]; intros st1 H1; simpl; [exact H1|].
    pose proof (frozen_session_call s st st1 c Hdone H1) as Hstep.
    destruct (session_call c st1) as [r st2]. simpl in Hstep.
    specialize (IH st2 Hstep).
    destruct (session_calls calls st2) as [rs st']. exact IH. }
  destruct (session_calls calls st) as [responses st']. simpl in H.
  destruct H as [ND' [_ [Hin' Hans]]].
  split; [|exact Hans]. split; [exact Hin'|].
  intros s' Hs' E. apply (pk_unique QuizSession.id (sessions st')); auto.
Qed.

Lemma completed_session_is_frozen_witness :
  let (responses, st') := session_calls example_late_calls example_completed in
  stored_session st' 40 bobs_completed_session /\
  forall question,
    answers_for st' 40 question = answers_for example_completed 40 question.
Proof.
  assert (ND : NoDup (map QuizSession.id (sessions example_completed))).
  { simpl. constructor; [intros []|constructor]. }
  assert (Hwf : answers_wf example_completed).
  { change (answers_wf (snd (submit_answers example_answers example_store))).
    apply submit_answers_wf.
    split; [constructor|]. split; [intros r []|]. intros x y. simpl. lia. }
  exact (completed_session_is_frozen example_late_calls example_completed
           bobs_completed_session ND Hwf (or_introl eq_refl) eq_refl).
Defined.

(** ** Who may act on a session *)

(** X4.  A user who is neither the participant of the session of key [pk] nor
    the creator of its quiz finds no such session: [submit_answer] and
    [complete] answer 404 and write nothing. *)
Theorem session_actions_need_participant_or_creator :
  forall (now : datetime) (u : nat) (pk : uuid)
         (question_id choice_id : option uuid) (st : Store),
    (forall s, In s (sessions st) -> QuizSession.id s = pk ->
               QuizSession.user s <> u /\
               forall q, In q (quizzes st) ->
                         Quiz.id q = QuizSession.quiz s ->
                         Quiz.creator q <> u) ->
    QuizSessionViewSet.submit_answer now (Authenticated u) pk question_id
                                     choice_id st = (not_found, st) /\
    QuizSessionViewSet.complete now (Authenticated u) pk st = (not_found, st).
Proof.
  intros now u pk question_id choice_id st Hnone.
  assert (Hget : QuizSessionViewSet.get_object st (Authenticated u) pk
                 = inl not_found).
  { unfold QuizSessionViewSet.get_object, QuizSessionViewSet.get_queryset.
    replace (objects_get _ _) with (@DoesNotExist QuizSession.t);
      [reflexivity|].
    symmetry. apply objects_get_DoesNotExist. rewrite filter_filter.
    apply filter_nil_iff. intros s Hs.
    destruct (QuizSession.id s =? pk) eqn:E;
      [|apply andb_false_r].
    apply Nat.eqb_eq in E. destruct (Hnone s Hs E) as [Hu Hq].
    rewrite andb_true_r. apply orb_false_iff. split.
    - apply Nat.eqb_neq, Hu.
    - destruct (existsb _ (quizzes st)) eqn:Ex; [|reflexivity].
      apply existsb_exists in Ex. destruct Ex as [q [Hin Hq']].
      apply andb_true_iff in Hq'. destruct Hq' as [E1 E2].
      apply Nat.eqb_eq in E1, E2. exfalso. exact (Hq q Hin E1 E2). }
  unfold QuizSessionViewSet.submit_answer, QuizSessionViewSet.complete.
  rewrite Hget. split; reflexivity.
Qed.

(** Carol is neither bob nor alice. *)
Lemma session_actions_need_participant_or_creator_witness :
  QuizSessionViewSet.submit_answer 1000000%Z (Authenticated 3) 40 (Some 20)
                                   (Some 31) example_store
  = (not_found, example_store) /\
  QuizSessionViewSet.complete 1000000%Z (Authenticated 3) 40 example_store
  = (not_found, example_store).
Proof.
  apply session_actions_need_participant_or_creator.
  intros s [<-|[]] _. split; [simpl; lia|].
  intros q [<-|[<-|[]]]; simpl; lia.
Defined.

(** ** Starting a session *)

Lemma objects_get_snoc_fresh {A} (p : A -> bool) (rows : list A) (row : A) :
  (forall r, In r rows -> p r = false) -> p row = true ->
  objects_get p (rows ++ [row]) = One row.
Proof.
  intros Hrows Hrow. unfold objects_get. rewrite filter_app.
  rewrite (proj2 (filter_nil_iff p rows) Hrows). simpl. rewrite Hrow.
  reflexivity.
Qed.

(** X5.  [POST sessions/] by a user with an account, for a quiz that exists,
    whatever the visibility of the quiz and whoever created it: a session of
    the user on the quiz is inserted, started at [now], without completion
    time or score; the user finds it under its key; and it is timed out at a
    later time exactly when more than [duration_minutes] minutes have passed.
    *)
Theorem start_session :
  forall (now : datetime) (u : nat) (quiz_pk : uuid) (st : Store)
         (quiz : Quiz.t),
    objects_get (fun q => Quiz.id q =? quiz_pk) (quizzes st) = One quiz ->
    (forall s, In s (sessions st) -> QuizSession.id s < next_uuid st) ->
    let (reply, st') :=
      QuizSessionViewSet_create now (Authenticated u) quiz_pk st in
    let session := QuizSession.mk (next_uuid st) quiz_pk u now None None in
    reply = Answered HTTP_201_CREATED session /\
    sessions st' = sessions st ++ [session] /\
    QuizSessionViewSet.get_object st' (Authenticated u) (next_uuid st)
    = inr session /\
    forall now',
      is_timed_out now' (Quiz.duration_minutes quiz) session = true <->
      (Z.of_N (Quiz.duration_minutes quiz) * 60 * 1000000 < now' - now)%Z.
Proof.
  intros now u quiz_pk st quiz Hquiz Hfresh.
  unfold QuizSessionViewSet_create. rewrite Hquiz.
  destruct (objects_get_One_In _ _ _ Hquiz) as [Hin Hid].
  apply Nat.eqb_eq in Hid.
  unfold QuizSessionSerializer.create, bind, uuid4. simpl. rewrite Hid.
  split; [reflexivity|]. split; [reflexivity|]. split.
  - unfold QuizSessionViewSet.get_object, QuizSessionViewSet.get_queryset.
    simpl. unfold insert_row. rewrite filter_app. simpl.
    rewrite Nat.eqb_refl. simpl.
    rewrite objects_get_snoc_fresh.
    + unfold session_quiz. simpl. rewrite Hquiz.
      unfold QuizSessionViewSet.IsQuizCreatorOrParticipant. simpl.
      rewrite Nat.eqb_refl. destruct (Quiz.creator quiz =? u); reflexivity.
    + intros r Hr. apply filter_In in Hr. destruct Hr as [Hr _].
      apply Nat.eqb_neq. specialize (Hfresh r Hr). lia.
    + apply Nat.eqb_refl.
  - intro now'. unfold is_timed_out. simpl. apply Z.ltb_lt.
Qed.

(** Carol starts a session on the private quiz of alice, which the views by
    share code refuse her. *)
Lemma start_session_witness :
  access_policy example_store capitals (Authenticated 3) = no_access /\
  let (reply, st') :=
    QuizSessionViewSet_create 5000000%Z (Authenticated 3) 10 example_store in
  reply = Answered HTTP_201_CREATED
                   (QuizSession.mk 100 10 3 5000000%Z None None) /\
  QuizSessionViewSet.get_object st' (Authenticated 3) 100
  = inr (QuizSession.mk 100 10 3 5000000%Z None None).
Proof.
  split; [reflexivity|].
  assert (Hfresh : forall s, In s (sessions example_store) ->
                             QuizSession.id s < next_uuid example_store).
  { intros s [<-|[]]. simpl. lia. }
  pose proof (start_session 5000000%Z 3 10 example_store capitals eq_refl
                Hfresh) as H.
  destruct (QuizSessionViewSet_create 5000000%Z (Authenticated 3) 10
                                      example_store) as [reply st'].
  destruct H as [H1 [_ [H2 _]]]. split; [exact H1|exact H2].
Defined.

(** ** The rows of a quiz built from records *)

(** X6.  When every record has its text, [create_quiz_from_parsed_data]
    returns the quiz and has inserted exactly: the quiz; one question per
    question record, of this quiz, with the text of the record and its
    position as order; and for each question one choice per choice record, of
    this question, with the text, the flag ([False] when absent) and the
    position of the record. *)
Theorem build_writes_the_records :
  forall (user : nat) (title : string) (d : Parsed.parsed_data)
         (duration_minutes : N) (is_public : bool) (st : Store),
    parsed_ok d = true ->
    let qs := get_default (Parsed.questions d) [] in
    let (out, st') :=
      Utils.create_quiz_from_parsed_data user title d duration_minutes
                                         is_public st in
    exists quiz rows choice_rows,
      out = Return (Some quiz) /\
      Quiz.creator quiz = user /\
      quizzes st' = quizzes st ++ [quiz] /\
      questions st' = questions st ++ rows /\
      choices st' = choices st ++ choice_rows /\
      map question_columns rows = expected_questions (Quiz.id quiz) 0 qs /\
      map choice_columns choice_rows = expected_choices rows qs.
Proof.
  intros user title d duration_minutes is_public st Hok qs.
  unfold Utils.create_quiz_from_parsed_data, try_except.
  unfold bind at 1. simpl. unfold bind at 1. simpl.
  set (quiz := Quiz.mk _ _ _ _ _ _ _).
  unfold bind.
  match goal with
  | |- context [for_enumerate 0 _ (Utils.create_question quiz) ?st1] =>
      destruct (create_questions_rows quiz qs 0 st1 Hok)
        as [st' [rows [crows [Hrun [Hz [Hqn [Hch [Hc1 Hc2]]]]]]]]
  end.
  fold qs. rewrite Hrun.
  exists quiz, rows, crows. simpl in Hz, Hqn, Hch. auto 10.
Qed.

Lemma build_writes_the_records_witness :
  let (out, st') :=
    Utils.create_quiz_from_parsed_data 1 "Scanned" well_formed 10%N false
                                       example_store in
  exists quiz rows choice_rows,
    out = Return (Some quiz) /\
    questions st' = questions example_store ++ rows /\
    choices st' = choices example_store ++ choice_rows /\
    map question_columns rows
    = [(Quiz.id quiz, "Q1", 0); (Quiz.id quiz, "Q2", 1)] /\
    map Choice.text choice_rows = ["A"; "B"] /\
    map Choice.is_correct choice_rows = [true; false].
Proof.
  pose proof (build_writes_the_records 1 "Scanned" well_formed 10%N false
                example_store eq_refl) as H.
  destruct (Utils.create_quiz_from_parsed_data 1 "Scanned" well_formed 10%N
                                               false example_store)
    as [out st'].
  destruct H as [quiz [rows [crows [H1 [_ [_ [H2 [H3 [H4 H5]]]]]]]]].
  exists quiz, rows, crows. split; [exact H1|]. split; [exact H2|].
  split; [exact H3|]. split; [exact H4|].
  destruct rows as [|r1 [|r2 [|r3 rows]]]; try discriminate H4.
  cbn in H5.
  destruct crows as [|c1 [|c2 [|c3 crows]]]; try discriminate H5.
  inversion H5. split; reflexivity.
Defined.

(** ** Building from an upload *)

(** X7.  A build is refused, with status 400 and nothing written, when the
    upload named is not one of the requester, and when it is not processed or
    holds no extraction. *)
Theorem build_needs_own_processed_upload :
  forall (u : nat) (image_id : uuid) (title : option string)
         (duration_minutes : option N) (is_public : option bool) (st : Store),
    (forall i, In i (image_uploads st) -> ImageUpload.id i = image_id ->
               ImageUpload.user i <> u) \/
    (exists image_upload,
        objects_get (fun i => (ImageUpload.id i =? image_id)
                              && (ImageUpload.user i =? u))
                    (image_uploads st) = One image_upload /\
        CreateQuizFromImageView.not_processed image_upload = true) ->
    let (response, st') :=
      CreateQuizFromImageView.create (Authenticated u) (Some image_id) title
                                     duration_minutes is_public st in
    status response = HTTP_400_BAD_REQUEST /\ st' = st.
Proof.
  intros u image_id title duration_minutes is_public st H.
  unfold CreateQuizFromImageView.create, try_except.
  unfold bind at 1. unfold CreateQuizFromImageView.get_image_upload.
  destruct H as [Hnone|[image_upload [Hget Hnot]]].
  - replace (objects_get _ (image_uploads st))
      with (@DoesNotExist ImageUpload.t); [split; reflexivity|].
    symmetry. apply objects_get_DoesNotExist, filter_nil_iff.
    intros i Hi. destruct (ImageUpload.id i =? image_id) eqn:E;
      [|reflexivity].
    apply Nat.eqb_eq in E. simpl. apply Nat.eqb_neq. exact (Hnone i Hi E).
  - rewrite Hget, Hnot. split; reflexivity.
Qed.

(** Bob names the upload of alice. *)
Lemma build_needs_own_processed_upload_witness :
  let (response, st') :=
    CreateQuizFromImageView.create (Authenticated 2) (Some 50)
                                   (Some "Scanned") None None
                                   store_with_upload in
  status response = HTTP_400_BAD_REQUEST /\ st' = store_with_upload.
Proof.
  apply build_needs_own_processed_upload. left.
  intros i [<-|[]] _. simpl. lia.
Defined.

Lemma save_row_snoc {A} (pk : A -> nat) (rows : list A) (old new : A) :
  (forall r, In r rows -> pk r <> pk new) -> pk old = pk new ->
  save_row pk new (rows ++ [old]) = rows ++ [new].
Proof.
  intros Hfresh E.
  rewrite save_row_present
    by (exists old; split; [apply in_or_app; right; left; reflexivity|exact E]).
  rewrite map_app. simpl. rewrite E, Nat.eqb_refl. f_equal.
  rewrite <- (map_id rows) at 2. apply map_ext_in. intros r Hr.
  specialize (Hfresh r Hr). apply Nat.eqb_neq in Hfresh. rewrite Hfresh.
  reflexivity.
Qed.

(** X8.  An upload whose extraction failed (the vision call returned its
    dictionary with the key [error]) is stored as processed all the same; and
    a build from it succeeds with a quiz of the requester that has no
    question. *)
Theorem failed_extraction_builds_empty_quiz :
  forall (u : nat) (message : string) (title : option string)
         (duration_minutes : option N) (is_public : option bool) (st : Store),
    (forall i, In i (image_uploads st) -> ImageUpload.id i < next_uuid st) ->
    let failed := Parsed.mk None (Some message) in
    let (reply, st1) := ImageUploadView_create (Authenticated u) failed st in
    reply = Answered HTTP_201_CREATED (next_uuid st, failed) /\
    image_uploads st1
    = image_uploads st ++ [ImageUpload.mk (next_uuid st) u true (Some failed)]
    /\
    let (response, st2) :=
      CreateQuizFromImageView.create (Authenticated u) (Some (next_uuid st))
                                     title duration_minutes is_public st1 in
    status response = HTTP_201_CREATED /\
    (exists quiz, quizzes st2 = quizzes st ++ [quiz] /\
                  Quiz.creator quiz = u) /\
    questions st2 = questions st /\ choices st2 = choices st.
Proof.
  intros u message title duration_minutes is_public st Hfresh failed.
  unfold ImageUploadView_create, uuid4. simpl.
  assert (Hrows : save_row ImageUpload.id
                    (ImageUpload.mk (next_uuid st) u true (Some failed))
                    (insert_row (ImageUpload.mk (next_uuid st) u false None)
                                (image_uploads st))
                  = image_uploads st
                    ++ [ImageUpload.mk (next_uuid st) u true (Some failed)]).
  { apply save_row_snoc; [|reflexivity].
    intros r Hr. specialize (Hfresh r Hr). simpl. lia. }
  rewrite Hrows. split; [reflexivity|]. split; [reflexivity|].
  unfold CreateQuizFromImageView.create, try_except.
  unfold bind at 1. unfold CreateQuizFromImageView.get_image_upload. simpl.
  rewrite objects_get_snoc_fresh.
  - simpl. split; [reflexivity|]. split; [|split; reflexivity].
    eexists. split; reflexivity.
  - intros r Hr. specialize (Hfresh r Hr).
    apply andb_false_iff. left. apply Nat.eqb_neq. lia.
  - simpl. rewrite !Nat.eqb_refl. reflexivity.
Qed.

Lemma failed_extraction_builds_empty_quiz_witness :
  let failed := Parsed.mk None (Some "rate limit") in
  let (reply, st1) :=
    ImageUploadView_create (Authenticated 2) failed example_store in
  let (response, st2) :=
    CreateQuizFromImageView.create (Authenticated 2) (Some 100) None None
                                   None st1 in
  status response = HTTP_201_CREATED /\
  questions st2 = questions example_store.
Proof.
  assert (Hfresh : forall i, In i (image_uploads example_store) ->
                             ImageUpload.id i < next_uuid example_store)
    by (intros i []).
  pose proof (failed_extraction_builds_empty_quiz 2 "rate limit" None None
                None example_store Hfresh) as H.
  simpl in H |- *.
  destruct (ImageUploadView_create (Authenticated 2)
              (Parsed.mk None (Some "rate limit")) example_store)
    as [reply st1].
  destruct H as [_ [_ H]].
  destruct (CreateQuizFromImageView.create (Authenticated 2) (Some 100) None
              None None st1) as [response st2].
  destruct H as [H1 [_ [H2 _]]]. split; assumption.
Defined.

(** ** Joining by share code, with [auto_start] *)

Lemma first_by_pk_In {A} (pk : A -> nat) (l : list A) (m : A) :
  first_by_pk pk l = Some m -> In m l.
Proof.
  revert m. induction l as [|x l IH]; simpl; intros m H; [discriminate|].
  destruct (first_by_pk pk l) as [m'|].
  - destruct (pk x <=? pk m'); inversion H; subst; auto.
  - inversion H. auto.
Qed.

(** [first()] is the row of least key. *)
Lemma first_by_pk_least {A} (pk : A -> nat) (l : list A) (e : A) :
  NoDup (map pk l) -> In e l -> (forall r, In r l -> pk e <= pk r) ->
  first_by_pk pk l = Some e.
Proof.
  induction l as [|x l IH]; simpl; intros ND Hin Hleast; [contradiction|].
  inversion ND as [|? ? Hx ND']; subst.
  destruct Hin as [->|Hin].
  - destruct (first_by_pk pk l) as [m|] eqn:F; [|reflexivity].
    apply first_by_pk_In in F.
    specialize (Hleast m (or_intror F)). apply Nat.leb_le in Hleast.
    rewrite Hleast. reflexivity.
  - rewrite (IH ND' Hin (fun r Hr => Hleast r (or_intror Hr))).
    destruct (pk x <=? pk e) eqn:E; [|reflexivity].
    apply Nat.leb_le in E. specialize (Hleast x (or_introl eq_refl)).
    exfalso. apply Hx. replace (pk x) with (pk e) by lia.
    apply in_map, Hin.
Qed.

Lemma NoDup_map_filter {A} (pk : A -> nat) (p : A -> bool) (l : list A) :
  NoDup (map pk l) -> NoDup (map pk (filter p l)).
Proof.
  induction l as [|x l IH]; simpl; intro ND; [constructor|].
  inversion ND as [|? ? Hx ND']; subst.
  destruct (p x); simpl; [constructor|]; auto.
  intro Hin. apply Hx. apply in_map_iff in Hin.
  destruct Hin as [y [E Hy]]. apply filter_In in Hy.
  rewrite <- E. apply in_map, Hy.
Qed.

Lemma retrieve_quiz_data_status (user : RequestUser) (code : uuid) (st : Store)
    (code' : nat) (quiz : Quiz.t) :
  JoinQuizByShareCodeView.retrieve user code st
  = mkResponse code' (QuizData quiz) ->
  code' = HTTP_200_OK.
Proof.
  unfold JoinQuizByShareCodeView.retrieve.
  destruct (quiz_by_share_code st code) as [r|q] eqn:F.
  - unfold quiz_by_share_code in F.
    destruct (objects_get _ _); inversion F; subst; discriminate.
  - destruct (negb (Quiz.is_public q)); [destruct user as [|u]|];
      [destruct (negb (Quiz.allow_anonymous_attempts q))
      |destruct (_ && _)|];
      intro H; inversion H; reflexivity.
Qed.

(** X9.  Joining writes only when a user with an account asks for
    [auto_start=true] on a quiz the check lets through: an anonymous viewer, a
    request without the parameter, and a refused request get the response of
    the check, no session, and the store as it is. *)
Theorem join_writes_only_when_asked :
  forall (now : datetime) (user : RequestUser) (code : uuid)
         (auto_start : option string) (st : Store),
    user = AnonymousUser \/ auto_start <> Some "true" \/
    status (JoinQuizByShareCodeView.retrieve user code st) <> HTTP_200_OK ->
    JoinQuiz.retrieve now user code auto_start st
    = ((JoinQuizByShareCodeView.retrieve user code st, None), st).
Proof.
  intros now user code auto_start st H. unfold JoinQuiz.retrieve.
  destruct (JoinQuizByShareCodeView.retrieve user code st)
    as [code' body] eqn:R.
  destruct body; try reflexivity.
  pose proof (retrieve_quiz_data_status _ _ _ _ _ R) as ->.
  destruct user as [|u]; [reflexivity|].
  destruct H as [H|[H|H]]; [discriminate| |exfalso; apply H; reflexivity].
  destruct auto_start as [v|]; [|reflexivity].
  destruct (String.eqb v "true") eqn:E; [|reflexivity].
  apply String.eqb_eq in E. subst v. exfalso. apply H. reflexivity.
Qed.

Lemma join_writes_only_when_asked_witness :
  JoinQuiz.retrieve 1000000%Z (Authenticated 3) 77 (Some "true") example_store
  = ((JoinQuizByShareCodeView.retrieve (Authenticated 3) 77 example_store,
      None), example_store) /\
  JoinQuiz.retrieve 1000000%Z AnonymousUser 78 (Some "true") example_store
  = ((JoinQuizByShareCodeView.retrieve AnonymousUser 78 example_store,
      None), example_store).
Proof.
  split; apply join_writes_only_when_asked.
  - right; right. simpl. discriminate.
  - left; reflexivity.
Defined.

(** X10.  With [auto_start=true], the resume check looks at one session only:
    the open session of the user on the quiz that has the least key. When it
    is not timed out it is returned and nothing is written; when it is timed
    out a new session is inserted and returned, whatever other open sessions
    the user has on the quiz. *)
Theorem join_resumes_least_open_session :
  forall (now : datetime) (u : nat) (code : uuid) (st : Store)
         (quiz : Quiz.t) (e : QuizSession.t),
    JoinQuizByShareCodeView.retrieve (Authenticated u) code st
    = mkResponse HTTP_200_OK (QuizData quiz) ->
    NoDup (map QuizSession.id (sessions st)) ->
    In e (sessions st) ->
    QuizSession.quiz e = Quiz.id quiz ->
    QuizSession.user e = u ->
    QuizSession.completed_at e = None ->
    (forall s, In s (sessions st) ->
               QuizSession.quiz s = Quiz.id quiz ->
               QuizSession.user s = u ->
               QuizSession.completed_at s = None ->
               QuizSession.id e <= QuizSession.id s) ->
    JoinQuiz.retrieve now (Authenticated u) code (Some "true") st
    = if is_timed_out now (Quiz.duration_minutes quiz) e
      then
        let session :=
          QuizSession.mk (next_uuid st) (Quiz.id quiz) u now None None in
        ((mkResponse HTTP_200_OK (QuizData quiz), Some session),
         set_sessions (sessions st ++ [session])
                      (set_next_uuid (S (next_uuid st)) st))
      else ((mkResponse HTTP_200_OK (QuizData quiz), Some e), st).
Proof.
  intros now u code st quiz e R ND Hin Hq Hu Hopen Hleast.
  unfold JoinQuiz.retrieve. rewrite R. simpl.
  assert (F : JoinQuiz.existing_session st quiz u = Some e).
  { unfold JoinQuiz.existing_session. apply first_by_pk_least.
    - apply NoDup_map_filter, ND.
    - apply filter_In. split; [exact Hin|].
      unfold QuizSession.is_completed. rewrite Hq, Hu, Hopen, !Nat.eqb_refl.
      reflexivity.
    - intros r Hr. apply filter_In in Hr. destruct Hr as [Hr Hp].
      apply andb_true_iff in Hp. destruct Hp as [Hp Hc].
      apply andb_true_iff in Hp. destruct Hp as [H1 H2].
      apply Nat.eqb_eq in H1, H2. unfold QuizSession.is_completed in Hc.
      destruct (QuizSession.completed_at r) eqn:Er; [discriminate|].
      apply Hleast; auto. }
  rewrite F.
  destruct (is_timed_out now (Quiz.duration_minutes quiz) e); reflexivity.
Qed.

(** At 700 seconds the session of key 41 is timed out and the one of key 42
    is in progress: a third session is opened. *)
Lemma join_resumes_least_open_session_witness :
  is_timed_out 700000000%Z 10%N (QuizSession.mk 42 11 2 650000000%Z None None)
  = false /\
  JoinQuiz.retrieve 700000000%Z (Authenticated 2) 78 (Some "true")
                    store_two_sessions
  = ((mkResponse HTTP_200_OK (QuizData rivers),
      Some (QuizSession.mk 100 11 2 700000000%Z None None)),
     set_sessions
       (sessions store_two_sessions
        ++ [QuizSession.mk 100 11 2 700000000%Z None None])
       (set_next_uuid 101 store_two_sessions)).
Proof.
  split; [reflexivity|].
  assert (ND : NoDup (map QuizSession.id (sessions store_two_sessions))).
  { simpl. repeat constructor; simpl; intuition discriminate. }
  refine (join_resumes_least_open_session 700000000%Z 2 78
            store_two_sessions rivers
            (QuizSession.mk 41 11 2 0%Z None None)
            eq_refl ND _ eq_refl eq_refl eq_refl _).
  - simpl. auto.
  - intros s [<-|[<-|[<-|[]]]]; simpl; intros; try discriminate; lia.
Defined.

(** ** The quizzes a user sees *)

(** X11.  The queryset of the quiz routes holds, for an anonymous viewer, the
    public quizzes; for a user with an account, the quizzes that are public,
    or created by the user, or shared with the user. *)
Theorem quiz_queryset_membership :
  forall (st : Store) (user : RequestUser) (q : Quiz.t),
    In q (QuizViewSet.get_queryset st user) <->
    In q (quizzes st) /\
    (Quiz.is_public q = true \/
     match user with
     | AnonymousUser => False
     | Authenticated u =>
         Quiz.creator q = u \/
         exists sh, In sh (shares st) /\ QuizShare.quiz sh = Quiz.id q /\
                    QuizShare.shared_with sh = u
     end).
Proof.
  intros st user q. destruct user as [|u]; unfold QuizViewSet.get_queryset.
  - rewrite filter_In. intuition.
  - rewrite in_flat_map. split.
    + intros [x [Hx Hq]].
      destruct (filter _ (shares st)) as [|j js] eqn:F.
      * destruct (Quiz.is_public x || (Quiz.creator x =? u)) eqn:Own;
          [|contradiction].
        destruct Hq as [<-|[]]. split; [exact Hx|].
        apply orb_true_iff in Own. destruct Own as [Hp|Hc]; [left; exact Hp|].
        right; left. apply Nat.eqb_eq, Hc.
      * rewrite <- F in Hq. apply in_flat_map in Hq.
        destruct Hq as [sh [Hsh Hq]]. apply filter_In in Hsh.
        destruct Hsh as [Hsh Hid]. apply Nat.eqb_eq in Hid.
        destruct (_ || _) eqn:Pass in Hq; [|contradiction].
        destruct Hq as [<-|[]]. split; [exact Hx|].
        apply orb_true_iff in Pass. destruct Pass as [Own|Hw].
        -- apply orb_true_iff in Own.
           destruct Own as [Hp|Hc]; [left; exact Hp|].
           right; left. apply Nat.eqb_eq, Hc.
        -- right; right. exists sh. apply Nat.eqb_eq in Hw. auto.
    + intros [Hq Hpass]. exists q. split; [exact Hq|].
      destruct (filter _ (shares st)) as [|j js] eqn:F.
      * destruct Hpass as [Hp|[Hc|[sh [Hsh [Hid Hw]]]]].
        -- rewrite Hp. left; reflexivity.
        -- apply Nat.eqb_eq in Hc. rewrite Hc, orb_true_r. left; reflexivity.
        -- exfalso.
           assert (Hin : In sh (filter (fun sh => QuizShare.quiz sh
                                                   =? Quiz.id q) (shares st))).
           { apply filter_In. split; [exact Hsh|]. apply Nat.eqb_eq, Hid. }
           rewrite F in Hin. contradiction.
      * rewrite <- F. apply in_flat_map.
        destruct Hpass as [Hp|[Hc|[sh [Hsh [Hid Hw]]]]].
        -- exists j. split; [rewrite F; left; reflexivity|].
           rewrite Hp. left; reflexivity.
        -- exists j. split; [rewrite F; left; reflexivity|].
           apply Nat.eqb_eq in Hc. rewrite Hc, orb_true_r. left; reflexivity.
        -- exists sh. split.
           ++ apply filter_In. split; [exact Hsh|]. apply Nat.eqb_eq, Hid.
           ++ apply Nat.eqb_eq in Hw. rewrite Hw, orb_true_r.
              left; reflexivity.
Qed.

(** ** A quiz that comes twice in the queryset *)

Lemma two_in_length {A} (a b : A) (l : list A) :
  In a l -> In b l -> a <> b -> 2 <= List.length l.
Proof.
  induction l as [|x l IH]; simpl; [contradiction|].
  intros [->|Ha] [->|Hb] Hne; try contradiction.
  - destruct l; [contradiction|simpl; lia].
  - destruct l; [contradiction|simpl; lia].
  - specialize (IH Ha Hb Hne). lia.
Qed.

Lemma filter_flat_map_length {A B} (p : B -> bool) (f : A -> list B)
    (x : A) (l : list A) :
  In x l ->
  List.length (filter p (f x)) <= List.length (filter p (flat_map f l)).
Proof.
  induction l as [|a l IH]; simpl; [contradiction|].
  rewrite filter_app, length_app. intros [->|Hx]; [lia|].
  specialize (IH Hx). lia.
Qed.

Lemma filter_copies_length {A B} (p : B -> bool) (b : B) (l : list A) :
  p b = true ->
  List.length (filter p (flat_map (fun _ => [b]) l)) = List.length l.
Proof.
  intro Hb. induction l as [|a l IH]; simpl; [reflexivity|].
  rewrite Hb. simpl. rewrite IH. reflexivity.
Qed.

(** X12.  The query of [get_queryset] joins each quiz with its shares and has
    no [DISTINCT]. So once a quiz has two shares, [get_object] finds it twice
    for a user that passes by the quiz alone, its creator first of all: the
    [share] action of the creator is answered with a server error and writes
    nothing. *)
Theorem creator_cannot_share_after_two_shares :
  forall (now : datetime) (u : nat) (pk : uuid)
         (shared_with permission_type : option string) (st : Store)
         (quiz : Quiz.t) (sh1 sh2 : QuizShare.t),
    In quiz (quizzes st) -> Quiz.id quiz = pk -> Quiz.creator quiz = u ->
    In sh1 (shares st) -> In sh2 (shares st) -> sh1 <> sh2 ->
    QuizShare.quiz sh1 = pk -> QuizShare.quiz sh2 = pk ->
    QuizViewSet.share now (Authenticated u) pk shared_with permission_type st
    = (server_error, st).
Proof.
  intros now u pk shared_with permission_type st quiz sh1 sh2
         Hquiz Hid Hcreator H1 H2 Hne Hq1 Hq2.
  assert (Hget : QuizViewSet.get_object st (Authenticated u) pk
                 = inl server_error).
  { unfold QuizViewSet.get_object, objects_get.
    set (p := fun q : Quiz.t => Quiz.id q =? pk).
    assert (Hlen : 2 <= List.length
                          (filter p (QuizViewSet.get_queryset
                                       st (Authenticated u)))).
    { unfold QuizViewSet.get_queryset.
      etransitivity; [|apply (filter_flat_map_length p _ quiz); exact Hquiz].
      cbv beta zeta.
      assert (Hown : Quiz.is_public quiz || (Quiz.creator quiz =? u) = true)
        by (rewrite Hcreator, Nat.eqb_refl; apply orb_true_r).
      rewrite Hown. cbn [orb].
      set (joined := filter _ (shares st)).
      assert (Hj : 2 <= List.length joined).
      { apply (two_in_length sh1 sh2); [| |exact Hne];
          apply filter_In; split; auto; apply Nat.eqb_eq; congruence. }
      destruct joined as [|j js] eqn:J; [simpl in Hj; lia|].
      rewrite <- J in *.
      rewrite (filter_copies_length p quiz joined); [exact Hj|].
      unfold p. apply Nat.eqb_eq, Hid. }
    destruct (filter p _) as [|a [|b l]]; simpl in Hlen; try lia.
    reflexivity. }
  unfold QuizViewSet.share. rewrite Hget. reflexivity.
Qed.

(** After alice has shared her quiz with bob and with carol, she cannot
    change the permission of bob. *)
Lemma creator_cannot_share_after_two_shares_witness :
  QuizViewSet.share 3000000%Z (Authenticated 1) 10 (Some "bob") (Some "view")
                    example_shared_twice
  = (server_error, example_shared_twice).
Proof.
  apply (creator_cannot_share_after_two_shares 3000000%Z 1 10 (Some "bob")
           (Some "view") example_shared_twice capitals
           (QuizShare.mk 100 10 1 2 1000000%Z "edit")
           (QuizShare.mk 101 10 1 3 2000000%Z "view"));
    try reflexivity; try discriminate.
  - left; reflexivity.
  - left; reflexivity.
  - right; left; reflexivity.
Defined.

(** ** Questions and choices: who may add, who may delete *)

(** X13.  [perform_create] of questions and of choices returns a row only to
    the creator of the quiz concerned, and then has inserted exactly this row,
    under the quiz (the question) of the route; when it raises, it has written
    nothing. *)
Theorem creation_is_for_the_creator :
  (forall (u : nat) (quiz_pk : uuid) (text : string) (order : nat)
          (st : Store),
      let (out, st') :=
        QuestionViewSet.perform_create u quiz_pk text order st in
      match out with
      | Return question =>
          exists quiz,
            In quiz (quizzes st) /\ Quiz.id quiz = quiz_pk /\
            Quiz.creator quiz = u /\
            questions st' = questions st ++ [question] /\
            question_columns question = (quiz_pk, text, order)
      | Raise _ => st' = st
      end) /\
  (forall (u : nat) (question_pk : uuid) (text : string) (is_correct : bool)
          (order : nat) (st : Store),
      let (out, st') :=
        ChoiceViewSet.perform_create u question_pk text is_correct order st in
      match out with
      | Return choice =>
          exists question quiz,
            In question (questions st) /\
            Question.id question = question_pk /\
            In quiz (quizzes st) /\
            Quiz.id quiz = Question.quiz question /\
            Quiz.creator quiz = u /\
            choices st' = choices st ++ [choice] /\
            choice_columns choice = (question_pk, text, is_correct, order)
      | Raise _ => st' = st
      end).
Proof.
  split.
  - intros. unfold QuestionViewSet.perform_create.
    destruct (objects_get _ (quizzes st)) as [quiz| |] eqn:G;
      [|reflexivity..].
    destruct (objects_get_One_In _ _ _ G) as [Hin Hid].
    apply Nat.eqb_eq in Hid.
    destruct (Quiz.creator quiz =? u) eqn:E; simpl; [|reflexivity].
    apply Nat.eqb_eq in E. exists quiz. rewrite Hid. auto 10.
  - intros. unfold ChoiceViewSet.perform_create.
    destruct (objects_get _ (questions st)) as [question| |] eqn:G;
      [|reflexivity..].
    destruct (objects_get_One_In _ _ _ G) as [Hin Hid].
    apply Nat.eqb_eq in Hid.
    destruct (objects_get _ (quizzes st)) as [quiz| |] eqn:G';
      [|reflexivity..].
    destruct (objects_get_One_In _ _ _ G') as [Hin' Hid'].
    apply Nat.eqb_eq in Hid'.
    destruct (Quiz.creator quiz =? u) eqn:E; simpl; [|reflexivity].
    apply Nat.eqb_eq in E. exists question, quiz. rewrite Hid. auto 10.
Qed.

(** X14.  [DELETE quizzes/<quiz_pk>/questions/<pk>/] by any user with an
    account, creator of the quiz or not, deletes the question: the answer is
    204; the question, its choices, and the answers to it or with one of its
    choices are gone; the other questions and choices stay; and if every
    answer had its selected choice in the table of choices before, so it is
    after. *)
Theorem any_user_can_delete_a_question :
  forall (u : nat) (quiz_pk pk : uuid) (st : Store) (question : Question.t),
    NoDup (map Question.id (questions st)) ->
    In question (questions st) ->
    Question.id question = pk ->
    Question.quiz question = quiz_pk ->
    let (reply, st') :=
      QuestionViewSet.destroy (Authenticated u) quiz_pk pk st in
    reply = Answered HTTP_204_NO_CONTENT tt /\
    (forall q, In q (questions st') <->
               In q (questions st) /\ Question.id q <> pk) /\
    (forall c, In c (choices st') <->
               In c (choices st) /\ Choice.question c <> pk) /\
    (forall a, In a (answers st') ->
               In a (answers st) /\ UserAnswer.question a <> pk) /\
    ((forall a, In a (answers st) ->
                exists c, In c (choices st) /\
                          Choice.id c = UserAnswer.selected_choice a) ->
     (forall a, In a (answers st') ->
                exists c, In c (choices st') /\
                          Choice.id c = UserAnswer.selected_choice a)).
Proof.
  intros u quiz_pk pk st question ND Hin Hid Hquiz.
  unfold QuestionViewSet.destroy, QuestionViewSet.get_queryset.
  assert (G : objects_get (fun q => Question.id q =? pk)
                (filter (fun q => Question.quiz q =? quiz_pk) (questions st))
              = One question).
  { unfold objects_get. rewrite filter_filter.
    set (p := fun x : Question.t => _ && _).
    assert (Hp : In question (filter p (questions st))).
    { apply filter_In. split; [exact Hin|]. unfold p.
      rewrite Hid, Hquiz, !Nat.eqb_refl. reflexivity. }
    destruct (filter_pk_at_most_one Question.id p pk (questions st) ND)
      as [E|[r E]].
    - intros r _ Hr. unfold p in Hr. apply andb_true_iff in Hr.
      apply Nat.eqb_eq, Hr.
    - rewrite E in Hp. contradiction.
    - rewrite E in Hp |- *. destruct Hp as [->|[]]. reflexivity. }
  rewrite G. unfold Question_delete. simpl. rewrite Hid.
  split; [reflexivity|]. split; [|split; [|split]].
  - intro q. rewrite filter_In, negb_true_iff, Nat.eqb_neq. reflexivity.
  - intro c. rewrite filter_In, negb_true_iff, Nat.eqb_neq. reflexivity.
  - intros a Ha. apply filter_In in Ha. destruct Ha as [Ha Hkeep].
    apply negb_true_iff, orb_false_iff in Hkeep. destruct Hkeep as [Hq _].
    apply Nat.eqb_neq in Hq. auto.
  - intros Hfk a Ha. apply filter_In in Ha. destruct Ha as [Ha Hkeep].
    apply negb_true_iff, orb_false_iff in Hkeep. destruct Hkeep as [_ Hc].
    destruct (Hfk a Ha) as [c [Hcin Hcid]]. exists c. split; [|exact Hcid].
    apply filter_In. split; [exact Hcin|].
    destruct (Choice.question c =? pk) eqn:E; [|reflexivity].
    exfalso.
    assert (Htrue : existsb
              (fun c => (Choice.question c =? pk)
                        && (Choice.id c =? UserAnswer.selected_choice a))
              (choices st) = true).
    { apply existsb_exists. exists c. split; [exact Hcin|].
      rewrite E, Hcid, Nat.eqb_refl. reflexivity. }
    rewrite Hc in Htrue. discriminate.
Qed.

(** Carol, who has no access to the quiz of alice, deletes its first
    question: the answer of bob to it goes with it. *)
Lemma any_user_can_delete_a_question_witness :
  access_policy example_answered capitals (Authenticated 3) = no_access /\
  let (reply, st') :=
    QuestionViewSet.destroy (Authenticated 3) 10 20 example_answered in
  reply = Answered HTTP_204_NO_CONTENT tt /\
  answers st' = [UserAnswer.mk 101 40 21 33 2000000%Z].
Proof.
  split; [reflexivity|].
  assert (ND : NoDup (map Question.id (questions example_answered))).
  { simpl. repeat constructor; simpl; intuition discriminate. }
  pose proof (any_user_can_delete_a_question 3 10 20 example_answered
                (Question.mk 20 10 "Q1" 0) ND (or_introl eq_refl)
                eq_refl eq_refl) as H.
  destruct (QuestionViewSet.destroy (Authenticated 3) 10 20 example_answered)
    as [reply st'] eqn:E.
  destruct H as [H _]. split; [exact H|].
  assert (Est : st' = snd (QuestionViewSet.destroy (Authenticated 3) 10 20
                                                   example_answered))
    by (rewrite E; reflexivity).
  rewrite Est. reflexivity.
Defined.

(** ** The [shares] route keeps one share per grantee *)

Lemma existsb_false_filter {A} (p : A -> bool) (l : list A) :
  existsb p l = false -> filter p l = [].
Proof.
  intro H. apply filter_nil_iff. intros r Hr.
  destruct (p r) eqn:E; [|reflexivity].
  assert (Htrue : existsb p l = true) by (apply existsb_exists; eauto).
  rewrite H in Htrue. discriminate.
Qed.

(** X15.  [POST shares/] keeps the constraints of the table of shares. It
    answers 201 only for a pair that had no share, which then has exactly the
    one inserted; with any other answer it writes nothing. So on this route a
    second share of a quiz with the same user is refused, not turned into an
    update. *)
Theorem shares_route_keeps_one_share :
  forall (now : datetime) (user : RequestUser) (quiz shared_with : uuid)
         (permission_type : option string) (st : Store),
    shares_wf st ->
    let (response, st') :=
      QuizShareViewSet.create now user quiz shared_with permission_type st in
    shares_wf st' /\
    (status response = HTTP_201_CREATED ->
     shares_for st quiz shared_with = [] /\
     exists sh, data response = QuizShareData sh /\
                shares_for st' quiz shared_with = [sh]) /\
    (status response <> HTTP_201_CREATED -> st' = st).
Proof.
  intros now user quiz shared_with permission_type st Hwf.
  unfold QuizShareViewSet.create.
  destruct user as [|u];
    [split; [exact Hwf|split; [discriminate|reflexivity]]|].
  destruct (objects_get _ (quizzes st)) as [q| |] eqn:Gq;
    try (split; [exact Hwf|split; [discriminate|reflexivity]]).
  destruct (objects_get _ (users st)) as [r| |] eqn:Gr;
    try (split; [exact Hwf|split; [discriminate|reflexivity]]).
  destruct (negb _);
    [split; [exact Hwf|split; [discriminate|reflexivity]]|].
  apply objects_get_One_In in Gq, Gr.
  destruct Gq as [_ Eq], Gr as [_ Er]. apply Nat.eqb_eq in Eq, Er.
  unfold shared_with_exists, objects_exists.
  change (fun sh : QuizShare.t =>
            (QuizShare.quiz sh =? Quiz.id q)
            && (QuizShare.shared_with sh =? User.id r))
    with (keyed QuizShare.quiz QuizShare.shared_with (Quiz.id q) (User.id r)).
  rewrite Eq, Er.
  destruct (existsb _ (shares st)) eqn:Ex;
    [split; [exact Hwf|split; [discriminate|reflexivity]]|].
  apply existsb_false_filter in Ex.
  destruct (QuizShareSerializer.validate st u q shared_with);
    [split; [exact Hwf|split; [discriminate|reflexivity]]|].
  simpl.
  destruct (upsert_insert QuizShare.id QuizShare.quiz QuizShare.shared_with
              (shares st) (next_uuid st) quiz shared_with
              (QuizShare.mk (next_uuid st) quiz u shared_with now
                            (get_default permission_type "attempt"))
              Hwf Ex eq_refl eq_refl eq_refl) as [Hwf' [Hsame _]].
  split; [exact Hwf'|]. split.
  - intros _. split; [exact Ex|]. eexists. split; [reflexivity|exact Hsame].
  - intro Hne. exfalso. apply Hne. reflexivity.
Qed.

(** Bob, who holds an edit share of the quiz of alice, shares it with carol
    on the [shares] route, twice. *)
Lemma shares_route_keeps_one_share_witness :
  shares_wf example_shared_twice /\
  let (response, st') :=
    QuizShareViewSet.create 3000000%Z (Authenticated 2) 10 3 (Some "edit")
                            example_shared_twice in
  status response = HTTP_400_BAD_REQUEST /\ st' = example_shared_twice.
Proof.
  assert (Hwf : shares_wf example_shared_twice).
  { split; [|split].
    - simpl. repeat constructor; simpl; intuition discriminate.
    - intros sh [<-|[<-|[]]]; simpl; lia.
    - intros x y. unfold keyed.
      change (shares example_shared_twice)
        with [QuizShare.mk 100 10 1 2 1000000%Z "edit";
              QuizShare.mk 101 10 1 3 2000000%Z "view"].
      cbv [filter QuizShare.quiz QuizShare.shared_with].
      destruct (10 =? x); cbn [andb]; [|simpl; lia].
      destruct (2 =? y) eqn:E1; destruct (3 =? y) eqn:E2; simpl; try lia.
      apply Nat.eqb_eq in E1, E2. lia. }
  split; [exact Hwf|].
  pose proof (shares_route_keeps_one_share 3000000%Z (Authenticated 2) 10 3
                (Some "edit") example_shared_twice Hwf) as H.
  destruct (QuizShareViewSet.create 3000000%Z (Authenticated 2) 10 3
              (Some "edit") example_shared_twice) as [response st']
    eqn:Ecreate.
  destruct H as [_ [_ H]].
  assert (E : response
              = fst (QuizShareViewSet.create 3000000%Z (Authenticated 2) 10 3
                       (Some "edit") example_shared_twice))
    by (rewrite Ecreate; reflexivity).
  assert (Hst : status response = HTTP_400_BAD_REQUEST)
    by (rewrite E; reflexivity).
  split; [exact Hst|]. apply H. rewrite Hst. discriminate.
Defined.

(** ** The JSON text cut out of an answer of the vision model *)

Lemma find_from_none (c : ascii) (s : string) (k : nat) :
  (forall m, String.get m s <> Some c) -> find_from c s k = None.
Proof.
  revert k. induction s as [|a s IH]; intros k H; simpl; [reflexivity|].
  destruct (Ascii.eqb a c) eqn:E.
  - apply Ascii.eqb_eq in E. subst a. exfalso. apply (H 0). reflexivity.
  - apply IH. intro m. apply (H (S m)).
Qed.

Lemma rfind_from_none (c : ascii) (s : string) (k : nat) :
  (forall m, String.get m s <> Some c) -> rfind_from c s k = None.
Proof.
  revert k. induction s as [|a s IH]; intros k H; simpl; [reflexivity|].
  rewrite IH by (intro m; apply (H (S m))).
  destruct (Ascii.eqb a c) eqn:E; [|reflexivity].
  apply Ascii.eqb_eq in E. subst a. exfalso. apply (H 0). reflexivity.
Qed.

Lemma find_from_first (c : ascii) (s : string) :
  forall i k, first_at c s i -> find_from c s k = Some (k + i).
Proof.
  induction s as [|a s IH]; intros i k [Hget Hmin].
  - destruct i; discriminate Hget.
  - simpl. destruct (Ascii.eqb a c) eqn:E.
    + apply Ascii.eqb_eq in E. subst a. destruct i as [|i].
      * rewrite Nat.add_0_r. reflexivity.
      * exfalso. apply (Hmin 0); [lia|reflexivity].
    + destruct i as [|i].
      * simpl in Hget. inversion Hget. subst a.
        rewrite Ascii.eqb_refl in E. discriminate.
      * rewrite (IH i (S k)); [f_equal; lia|]. split; [exact Hget|].
        intros m Hm. apply (Hmin (S m)). lia.
Qed.

Lemma rfind_from_last (c : ascii) (s : string) :
  forall i k, last_at c s i -> rfind_from c s k = Some (k + i).
Proof.
  induction s as [|a s IH]; intros i k [Hget Hmax].
  - destruct i; discriminate Hget.
  - simpl. destruct i as [|i].
    + rewrite rfind_from_none
        by (intros m; apply (Hmax (S m)); lia).
      simpl in Hget. inversion Hget. rewrite Ascii.eqb_refl, Nat.add_0_r.
      reflexivity.
    + rewrite (IH i (S k)); [f_equal; lia|]. split; [exact Hget|].
      intros m Hm. apply (Hmax (S m)). lia.
Qed.

Lemma substring_empty (n : nat) (s : string) : substring n 0 s = EmptyString.
Proof.
  revert n. induction s as [|a s IH]; intros [|n]; simpl; auto.
Qed.

(** X16.  What [process_image_with_openai] hands to [json.loads]. Without a
    ['{'] in the content it gives up. With a first ['{'] at [i]: when the last
    ['}'] is at [j] after it, the text is the part of the content from [i] to
    [j], which begins with ['{'] and ends with ['}']; when the last ['}'] is
    before [i], and when there is no ['}'] (the test [json_end != -1] holds
    then too, since [json_end] is [rfind + 1]), the text is empty. *)
Theorem json_content_cases :
  forall (content : string),
    ((forall m, String.get m content <> Some "{"%char) ->
     json_content content = None) /\
    (forall i, first_at "{"%char content i ->
       (forall j, last_at "}"%char content j -> i < j ->
          let text := substring i (j - i + 1) content in
          json_content content = Some text /\
          String.get 0 text = Some "{"%char /\
          String.get (j - i) text = Some "}"%char /\
          String.get (j - i + 1) text = None) /\
       (forall j, last_at "}"%char content j -> j < i ->
          json_content content = Some EmptyString) /\
       ((forall m, String.get m content <> Some "}"%char) ->
        json_content content = Some EmptyString)).
Proof.
  intro content. split.
  - intro H. unfold json_content, find. rewrite find_from_none by exact H.
    reflexivity.
  - intros i Hi. unfold json_content, find, rfind, slice.
    rewrite (find_from_first _ _ i 0 Hi). simpl (0 + i).
    assert (Hguard : (Z.of_nat i =? -1)%Z = false) by (apply Z.eqb_neq; lia).
    rewrite Hguard. split; [|split].
    + intros j Hj Hlt. rewrite (rfind_from_last _ _ j 0 Hj). simpl (0 + j).
      assert (Hguard' : (Z.of_nat j + 1 =? -1)%Z = false)
        by (apply Z.eqb_neq; lia).
      rewrite Hguard'. simpl.
      replace (Z.to_nat (Z.of_nat i)) with i by lia.
      replace (Z.to_nat (Z.of_nat j + 1 - Z.of_nat i)) with (j - i + 1) by lia.
      split; [reflexivity|]. split; [|split].
      * rewrite substring_correct1 by lia. apply Hi.
      * rewrite substring_correct1 by lia.
        replace (j - i + i) with j by lia. apply Hj.
      * apply substring_correct2. lia.
    + intros j Hj Hlt. rewrite (rfind_from_last _ _ j 0 Hj). simpl (0 + j).
      assert (Hguard' : (Z.of_nat j + 1 =? -1)%Z = false)
        by (apply Z.eqb_neq; lia).
      rewrite Hguard'. simpl.
      replace (Z.to_nat (Z.of_nat j + 1 - Z.of_nat i)) with 0 by lia.
      rewrite substring_empty. reflexivity.
    + intro H. rewrite rfind_from_none by exact H. simpl.
      replace (Z.to_nat (- Z.of_nat i)) with 0 by lia.
      rewrite substring_empty. reflexivity.
Qed.

(** An answer that wraps the JSON in prose, and one cut off before the
    closing brace. *)
Lemma json_content_cases_witness :
  json_content "Here: {1: 2} done" = Some "{1: 2}" /\
  json_content "Here: {1: 2" = Some EmptyString.
Proof.
  destruct (json_content_cases "Here: {1: 2} done") as [_ H].
  destruct (json_content_cases "Here: {1: 2") as [_ H'].
  split.
  - refine (proj1 (proj1 (H 6 _) 11 _ _)).
    + split; [reflexivity|]. intros m Hm.
      do 6 (destruct m as [|m]; [discriminate|]). lia.
    + split; [reflexivity|]. intros m Hm.
      do 12 (destruct m as [|m]; [lia|]).
      do 5 (destruct m as [|m]; [discriminate|]). destruct m; discriminate.
    + lia.
  - refine (proj2 (proj2 (H' 6 _)) _).
    + split; [reflexivity|]. intros m Hm.
      do 6 (destruct m as [|m]; [discriminate|]). lia.
    + intro m. do 11 (destruct m as [|m]; [discriminate|]).
      destruct m; discriminate.
Defined.

(** ** What the session engine keeps *)

(** A recorded answer comes from a session found and not completed, a
    question of its quiz and a choice of that question. *)
Lemma submit_answer_provenance (now : datetime) (user : RequestUser)
    (pk : uuid) (question_id choice_id : option uuid) (st : Store) :
  let (response, st') :=
    QuizSessionViewSet.submit_answer now user pk question_id choice_id st in
  st' = st \/
  (exists session,
      QuizSessionViewSet.get_object st user pk = inr session /\
      QuizSession.completed_at session = None /\
      st' = snd (Utils.complete_quiz_session now session st)) \/
  (exists session question choice a created,
      In session (sessions st) /\
      In question (questions st) /\
      Question.quiz question = QuizSession.quiz session /\
      In choice (choices st) /\
      Choice.question choice = Question.id question /\
      QuizSessionViewSet.update_or_create now session question choice st
      = (Return (a, created), st')).
Proof.
  unfold QuizSessionViewSet.submit_answer.
  destruct (QuizSessionViewSet.get_object st user pk) as [r|session] eqn:Hget;
    [left; reflexivity|].
  unfold QuizSession.is_completed.
  destruct (QuizSession.completed_at session) eqn:Hopen; [left; reflexivity|].
  destruct (session_quiz st session) as [quiz| |] eqn:Hquiz;
    [|left; reflexivity..].
  destruct (is_timed_out now (Quiz.duration_minutes quiz) session).
  { destruct (Utils.complete_quiz_session now session st) as [s1 st1] eqn:C.
    right; left. exists session. rewrite C. auto. }
  destruct question_id as [question_id|]; [|left; reflexivity].
  destruct choice_id as [choice_id|]; [|left; reflexivity].
  destruct (objects_get _ (questions st)) as [question| |] eqn:Gq;
    [|left; reflexivity..].
  destruct (objects_get _ (choices st)) as [choice| |] eqn:Gc;
    [|left; reflexivity..].
  destruct (QuizSessionViewSet.update_or_create now session question choice st)
    as [[[a created]|e] st'] eqn:U.
  - right; right. exists session, question, choice, a, created.
    destruct (get_object_session _ _ _ _ Hget) as [Hin _].
    apply objects_get_One_In in Hquiz, Gq, Gc.
    destruct Hquiz as [_ Hquiz], Gq as [Hq Hq'], Gc as [Hc Hc'].
    apply Nat.eqb_eq in Hquiz.
    apply andb_true_iff in Hq', Hc'.
    destruct Hq' as [_ Hq'], Hc' as [_ Hc'].
    apply Nat.eqb_eq in Hq', Hc'.
    repeat split; auto; congruence.
  - left. revert U. unfold QuizSessionViewSet.update_or_create.
    destruct (objects_get _ (answers st)); try discriminate.
    intro H; inversion H; reflexivity.
Qed.

(** What [update_or_create] leaves alone, and where its rows come from. *)
Lemma update_or_create_rows (now : datetime) (session : QuizSession.t)
    (question : Question.t) (choice : Choice.t) (st st' : Store)
    (a : UserAnswer.t) (created : bool) :
  QuizSessionViewSet.update_or_create now session question choice st
  = (Return (a, created), st') ->
  sessions st' = sessions st /\ questions st' = questions st /\
  choices st' = choices st /\ next_uuid st <= next_uuid st' /\
  forall x, In x (answers st') -> x = a \/ In x (answers st).
Proof.
  unfold QuizSessionViewSet.update_or_create.
  destruct (objects_get _ (answers st)) as [old| |] eqn:G; [| |discriminate].
  - intro H; inversion H; subst; clear H. simpl.
    repeat split; auto. intros x Hx.
    apply objects_get_One_In in G. destruct G as [Hold _].
    rewrite save_row_present in Hx by (exists old; auto).
    apply in_map_iff in Hx. destruct Hx as [y [E Hy]].
    destruct (_ =? _) in E; subst; auto.
  - unfold bind, uuid4. intro H; inversion H; subst; clear H. simpl.
    repeat split; auto. intros x Hx. unfold insert_row in Hx.
    apply in_app_iff in Hx. destruct Hx as [Hx|[<-|[]]]; auto.
Qed.

Lemma engine_inv_complete_quiz_session (now : datetime)
    (session : QuizSession.t) (st : Store) :
  engine_inv st ->
  In session (sessions st) ->
  QuizSession.completed_at session = None ->
  engine_inv (snd (Utils.complete_quiz_session now session st)).
Proof.
  intros [I1 [I2 [I3 [I4 [I5 I6]]]]] Hin Hopen.
  destruct (complete_quiz_session_open now session st Hin Hopen)
    as [session' [Hc [Hid [Hq [_ [_ [Hscore _]]]]]]].
  rewrite Hc. simpl.
  assert (Hex : exists r, In r (sessions st)
                          /\ QuizSession.id r = QuizSession.id session')
    by (exists session; auto).
  assert (Hrows : forall s, In s (save_row QuizSession.id session'
                                           (sessions st)) ->
                            s = session' \/ In s (sessions st)).
  { intros s Hs. rewrite (save_row_present _ _ _ Hex) in Hs.
    apply in_map_iff in Hs. destruct Hs as [y [E Hy]].
    destruct (_ =? _) in E; subst; auto. }
  unfold engine_inv, answers_wf, answers_valid, scores_in_range. simpl.
  split; [|split; [|split; [|split; [|split]]]].
  - unfold uuid in *.
    rewrite (save_row_pks QuizSession.id session' (sessions st) Hex).
    exact I1.
  - intros s Hs. destruct (Hrows s Hs) as [->|Hs'].
    + rewrite Hid. apply I2, Hin.
    + apply I2, Hs'.
  - exact I3.
  - exact I4.
  - intros a Ha. destruct (I5 a Ha) as [s [q [c [Hs [Es Hrest]]]]].
    destruct (Nat.eq_dec (QuizSession.id s) (QuizSession.id session))
      as [E|Hne].
    + assert (s = session)
        by (apply (pk_unique QuizSession.id (sessions st)); auto).
      subst s. exists session', q, c.
      split; [apply (save_row_stored QuizSession.id); exact Hex|].
      rewrite Hid, Hq. auto.
    + exists s, q, c. split; [|auto].
      rewrite (save_row_present _ _ _ Hex). apply in_map_iff. exists s.
      split; [|exact Hs]. rewrite Hid. apply Nat.eqb_neq in Hne.
      rewrite Hne. reflexivity.
  - intros s v Hs Hv. destruct (Hrows s Hs) as [->|Hs'].
    + rewrite Hscore in Hv. inversion Hv; subst v.
      apply calculate_quiz_score_in_range.
      * exact I3.
      * intro q. apply I4.
      * intros a Ha Ea. destruct (I5 a Ha) as [s [q [c [Hs0 [Es [Hq0 [Eq [Equiz _]]]]]]]].
        exists q. split; [exact Hq0|]. split; [exact Eq|].
        assert (s = session)
          by (apply (pk_unique QuizSession.id (sessions st)); auto;
              congruence).
        subst s. exact Equiz.
    + exact (I6 s v Hs' Hv).
Qed.

Lemma engine_inv_update_or_create (now : datetime) (session : QuizSession.t)
    (question : Question.t) (choice : Choice.t) (st st' : Store)
    (a : UserAnswer.t) (created : bool) :
  engine_inv st ->
  In session (sessions st) ->
  In question (questions st) ->
  Question.quiz question = QuizSession.quiz session ->
  In choice (choices st) ->
  Choice.question choice = Question.id question ->
  QuizSessionViewSet.update_or_create now session question choice st
  = (Return (a, created), st') ->
  engine_inv st'.
Proof.
  intros [I1 [I2 [I3 [I4 [I5 I6]]]]] Hs Hq Equiz Hc Ec U.
  destruct (update_or_create_effect _ _ _ _ _ _ _ _ I4 U)
    as [I4' [Ea1 [Ea2 [Ea3 _]]]].
  destruct (update_or_create_rows _ _ _ _ _ _ _ _ U)
    as [Es [Eq [Ech [Hnext Hrows]]]].
  unfold engine_inv, answers_valid, scores_in_range.
  rewrite Es, Eq, Ech.
  split; [exact I1|]. split.
  { intros s Hs'. specialize (I2 s Hs'). lia. }
  split; [exact I3|]. split; [exact I4'|]. split; [|exact I6].
  intros x Hx. destruct (Hrows x Hx) as [->|Hold]; [|exact (I5 x Hold)].
  exists session, question, choice. rewrite Ea1, Ea2, Ea3. auto 10.
Qed.

Lemma engine_inv_start (now : datetime) (user : RequestUser) (quiz : uuid)
    (st : Store) :
  engine_inv st ->
  engine_inv (snd (QuizSessionViewSet_create now user quiz st)).
Proof.
  intros Hinv. unfold QuizSessionViewSet_create.
  destruct user as [|u]; [exact Hinv|].
  destruct (objects_get _ (quizzes st)) as [q| |]; try exact Hinv.
  destruct Hinv as [I1 [I2 [I3 [I4 [I5 I6]]]]].
  unfold QuizSessionSerializer.create, bind, uuid4. simpl.
  unfold engine_inv, answers_wf, answers_valid, scores_in_range, insert_row.
  simpl.
  split; [|split; [|split; [|split; [|split]]]].
  - rewrite map_app. apply NoDup_app; [exact I1|repeat constructor; intros []|].
    simpl. intros k Hk [<-|[]]. apply in_map_iff in Hk.
    destruct Hk as [s [E Hs]]. specialize (I2 s Hs). lia.
  - intros s Hs. apply in_app_iff in Hs. destruct Hs as [Hs|[<-|[]]].
    + specialize (I2 s Hs). lia.
    + simpl. lia.
  - exact I3.
  - apply (table_wf_next UserAnswer.id UserAnswer.session UserAnswer.question
             (answers st) (next_uuid st)); [lia|exact I4].
  - intros a Ha. destruct (I5 a Ha) as [s [q0 [c [Hs Hrest]]]].
    exists s, q0, c. split; [apply in_or_app; left; exact Hs|exact Hrest].
  - intros s v Hs Hv. apply in_app_iff in Hs. destruct Hs as [Hs|[<-|[]]].
    + exact (I6 s v Hs Hv).
    + discriminate Hv.
Qed.

Lemma engine_inv_call (c : EngineCall) (st : Store) :
  engine_inv st -> engine_inv (engine_call c st).
Proof.
  intro Hinv. destruct c as [now user quiz|c|now user pk]; simpl.
  - apply engine_inv_start, Hinv.
  - unfold submit_answer.
    pose proof (submit_answer_provenance (sa_now c) (sa_user c) (sa_pk c)
                  (sa_question_id c) (sa_choice_id c) st) as H.
    destruct (QuizSessionViewSet.submit_answer _ _ _ _ _ st) as [r st'].
    simpl.
    destruct H as [->|[[session [Hget [Hopen ->]]]
                      |[session [question [choice [a [created
                         [Hs [Hq [Equiz [Hc [Ec U]]]]]]]]]]]].
    + exact Hinv.
    + destruct (get_object_session _ _ _ _ Hget) as [Hin _].
      apply engine_inv_complete_quiz_session; assumption.
    + exact (engine_inv_update_or_create _ _ _ _ _ _ _ _ Hinv Hs Hq Equiz
                 Hc Ec U).
  - pose proof (complete_cases now user pk st) as H.
    destruct (QuizSessionViewSet.complete now user pk st) as [r st'].
    simpl. destruct H as [->|[session [Hget [Hopen ->]]]].
    + exact Hinv.
    + destruct (get_object_session _ _ _ _ Hget) as [Hin _].
      apply engine_inv_complete_quiz_session; assumption.
Qed.

(** X17.  Starting sessions, submitting answers and completing, in any order
    and by anyone, keep: unique keys of sessions, at most one answer per
    session and question, every answer being to a question of the quiz of its
    session with a choice of that question, and every stored score being
    between 0 and 100. *)
Theorem session_engine_invariant :
  forall (calls : list EngineCall) (st : Store),
    engine_inv st -> engine_inv (engine_calls calls st).
Proof.
  intros calls. unfold engine_calls.
  induction calls as [|c calls IH]; intros st Hinv; simpl; [exact Hinv|].
  apply IH, engine_inv_call, Hinv.
Qed.

Lemma session_engine_invariant_witness :
  engine_inv example_store /\
  engine_inv (engine_calls example_run example_store) /\
  map QuizSession.score (sessions (engine_calls example_run example_store))
  = [Some 50%Q; Some 50%Q].
Proof.
  assert (Hinv : engine_inv example_store).
  { split; [|split; [|split; [|split; [|split]]]].
    - simpl. repeat constructor; simpl; intuition discriminate.
    - intros s [<-|[]]. simpl. lia.
    - simpl. repeat constructor; simpl; intuition discriminate.
    - split; [constructor|]. split; [intros r []|]. intros x y. simpl. lia.
    - intros a [].
    - intros s v [<-|[]] Hv. discriminate Hv. }
  split; [exact Hinv|]. split.
  - exact (session_engine_invariant example_run example_store Hinv).
  - reflexivity.
Defined.

(** ** Joining always ends on a session in progress *)

(** X18.  For a user with an account whom the check lets through, joining with
    [auto_start=true] always returns a session that is in the table, is of
    this user on this quiz, is not completed and is not timed out at the time
    of the request. *)
Theorem join_gives_session_in_progress :
  forall (now : datetime) (u : nat) (code : uuid) (st : Store) (quiz : Quiz.t),
    JoinQuizByShareCodeView.retrieve (Authenticated u) code st
    = mkResponse HTTP_200_OK (QuizData quiz) ->
    let (reply, st') :=
      JoinQuiz.retrieve now (Authenticated u) code (Some "true") st in
    exists session,
      reply = (mkResponse HTTP_200_OK (QuizData quiz), Some session) /\
      In session (sessions st') /\
      QuizSession.quiz session = Quiz.id quiz /\
      QuizSession.user session = u /\
      QuizSession.completed_at session = None /\
      is_timed_out now (Quiz.duration_minutes quiz) session = false.
Proof.
  intros now u code st quiz R. unfold JoinQuiz.retrieve. rewrite R. simpl.
  assert (Hnew : let session := QuizSession.mk (next_uuid st) (Quiz.id quiz)
                                               u now None None in
                 is_timed_out now (Quiz.duration_minutes quiz) session
                 = false).
  { unfold is_timed_out. simpl. apply Z.ltb_ge. lia. }
  destruct (JoinQuiz.existing_session st quiz u) as [e|] eqn:F.
  - destruct (is_timed_out now (Quiz.duration_minutes quiz) e) eqn:T; simpl.
    + eexists. split; [reflexivity|]. unfold insert_row.
      split; [apply in_or_app; right; left; reflexivity|]. auto.
    + unfold JoinQuiz.existing_session in F. apply first_by_pk_In in F.
      apply filter_In in F. destruct F as [Hin Hp].
      apply andb_true_iff in Hp. destruct Hp as [Hp Hc].
      apply andb_true_iff in Hp. destruct Hp as [H1 H2].
      apply Nat.eqb_eq in H1, H2. unfold QuizSession.is_completed in Hc.
      destruct (QuizSession.completed_at e) eqn:Ec; [discriminate|].
      exists e. auto 10.
  - simpl. eexists. split; [reflexivity|]. unfold insert_row.
    split; [apply in_or_app; right; left; reflexivity|]. auto.
Qed.

(** Bob joins the public quiz of alice for the first time. *)
Lemma join_gives_session_in_progress_witness :
  let (reply, st') :=
    JoinQuiz.retrieve 5000000%Z (Authenticated 2) 78 (Some "true")
                      example_store in
  exists session,
    reply = (mkResponse HTTP_200_OK (QuizData rivers), Some session) /\
    In session (sessions st') /\
    QuizSession.quiz session = 11 /\
    QuizSession.user session = 2 /\
    QuizSession.completed_at session = None /\
    is_timed_out 5000000%Z 10%N session = false.
Proof.
  exact (join_gives_session_in_progress 5000000%Z 2 78 example_store rivers
           eq_refl).
Defined.
